(** * Product API (server.js): a shallow embedding and its specification

    The development follows [server.js] top to bottom: the JavaScript values
    the handlers touch, the seed store, the error classes, the three
    middlewares, the route table in registration order, the handlers and the
    terminal error responder.  The theorems come after all definitions.

    Modelling conventions.
    - A JavaScript string is a [string]; a character stands for the code unit
      of the same number, so the model covers strings over code units 0..255.
      [trim] and [toLowerCase] are the ECMAScript functions restricted to that
      range, where [toLowerCase] works unit by unit.  It does not on UTF-16
      text at large; [Wide] has the function with the capital sigma, whose
      lower case depends on its place in the word.
    - A JavaScript number that comes in a JSON body is kept as the rational
      [Q] its text denotes.  What the handlers compute, the page bounds
      and the average price, is computed as the engine does, in binary64:
      a [number] is NaN, an infinity, or the exact value of a finite
      double; [round64] gives the double nearest to a rational, a tie
      going to the even one, and every operation rounds its exact result
      with it.  The sign of zero is left out.
    - A JavaScript object is an association list in insertion order; reading
      a property that is absent gives [VUndefined].
    - The in-memory array [products] is threaded explicitly: every handler
      takes the store and gives back the store it leaves behind.
    - [uuidv4()] is an input of the create handler.
    - [loggerMiddleware] only writes to the console and is left out;
      [asyncHandler] is the rule that what a handler throws goes to the
      error handler, which [app] applies to every route. *)

From Stdlib Require Import Bool List Arith ZArith QArith Qround Qminmax.
From Stdlib Require Import Lia Lqa.
From Stdlib Require Import Ascii String.
Import ListNotations.

Set Warnings "-register-all".

Open Scope string_scope.
Open Scope list_scope.

(* ================================================================== *)
(** * Strings *)

Module JsString.

(** Code units that ECMAScript counts as WhiteSpace or LineTerminator,
    among 0..255: TAB, LF, VT, FF, CR, SP and NBSP. *)
Definition is_ws (c : ascii) : bool :=
  let n := N_of_ascii c in
  ((9 <=? n) && (n <=? 13) || (n =? 32) || (n =? 160))%N.

(** Upper-case letters among 0..255: A-Z, and the Latin-1 capitals
    U+00C0..U+00DE without the multiplication sign U+00D7. *)
Definition is_upper (c : ascii) : bool :=
  let n := N_of_ascii c in
  ((65 <=? n) && (n <=? 90)
   || (192 <=? n) && (n <=? 222) && negb (n =? 215))%N.

Definition lower_char (c : ascii) : ascii :=
  if is_upper c then ascii_of_N (N_of_ascii c + 32) else c.

(** [String.prototype.toLowerCase] on code units 0..255: none of them has
    a lower case that depends on its neighbours. *)
Fixpoint toLowerCase (s : string) : string :=
  match s with
  | EmptyString => EmptyString
  | String c r => String (lower_char c) (toLowerCase r)
  end.

Fixpoint trimStart (s : string) : string :=
  match s with
  | EmptyString => EmptyString
  | String c r => if is_ws c then trimStart r else s
  end.

Fixpoint trimEnd (s : string) : string :=
  match s with
  | EmptyString => EmptyString
  | String c r =>
      match trimEnd r with
      | EmptyString => if is_ws c then EmptyString else String c EmptyString
      | r' => String c r'
      end
  end.

(** [String.prototype.trim] *)
Definition trim (s : string) : string := trimEnd (trimStart s).

(** [String.prototype.includes]: [t] occurs in [s] as a contiguous run. *)
Fixpoint includes (s t : string) : bool :=
  prefix t s
  || match s with
     | EmptyString => false
     | String _ r => includes r t
     end.

(** [Array.prototype.join] on strings. *)
Fixpoint join (sep : string) (l : list string) : string :=
  match l with
  | [] => ""
  | [x] => x
  | x :: r => x ++ sep ++ join sep r
  end.

Definition is_empty (s : string) : bool :=
  match s with EmptyString => true | _ => false end.

End JsString.
Import JsString.

(* ================================================================== *)
(** * Strings beyond code unit 255 *)

(** [JsString] holds the texts whose code units lie in 0..255; on those
    [String.prototype.toLowerCase] works unit by unit.  On UTF-16 text at
    large it does not: the capital sigma U+03A3 becomes the final small
    sigma U+03C2 where the condition Final_Sigma of Unicode's
    SpecialCasing holds and the small sigma U+03C3 elsewhere, so the
    lower case of a text is not made of the lower cases of its parts.
    [Wide] gives [toLowerCase] and [includes] on the texts made of the
    code units 0..255 and of the Greek letters U+0391..U+03A9 and
    U+03B1..U+03C9, and the callback of the search handler on them;
    [JsString.toLowerCase] is the restriction of [Wide.toLowerCase]
    (lemma [toLowerCase_narrow]). *)
Module Wide.

Local Open Scope Z_scope.

(** A text as its UTF-16 code units. *)
Definition text : Type := list Z.

Definition latin1 (u : Z) : bool := (0 <=? u) && (u <=? 0xFF).

(** U+0391..U+03A9, without the unassigned U+03A2. *)
Definition greek_capital (u : Z) : bool :=
  (0x391 <=? u) && (u <=? 0x3A9) && negb (u =? 0x3A2).

(** U+03B1..U+03C9; U+03C2 is the final small sigma. *)
Definition greek_small (u : Z) : bool := (0x3B1 <=? u) && (u <=? 0x3C9).

Definition tabulated (u : Z) : bool :=
  latin1 u || greek_capital u || greek_small u.

Definition latin1_capital (u : Z) : bool :=
  (0x41 <=? u) && (u <=? 0x5A)
  || (0xC0 <=? u) && (u <=? 0xDE) && negb (u =? 0xD7).

(** The Unicode property Cased, on the tabulated code units. *)
Definition cased (u : Z) : bool :=
  (0x41 <=? u) && (u <=? 0x5A)
  || (0x61 <=? u) && (u <=? 0x7A)
  || (u =? 0xAA) || (u =? 0xB5) || (u =? 0xBA)
  || (0xC0 <=? u) && (u <=? 0xFF) && negb (u =? 0xD7) && negb (u =? 0xF7)
  || greek_capital u || greek_small u.

(** The Unicode property Case_Ignorable, on the tabulated code units. *)
Definition case_ignorable (u : Z) : bool :=
  existsb (Z.eqb u)
    [0x27; 0x2E; 0x3A; 0x5E; 0x60; 0xA8; 0xAD; 0xAF; 0xB4; 0xB7; 0xB8].

(** Past any case-ignorable units, the next unit is a cased letter. *)
Fixpoint reaches_cased (units : text) : bool :=
  match units with
  | [] => false
  | u :: r => if case_ignorable u then reaches_cased r else cased u
  end.

(** The condition Final_Sigma of Unicode's SpecialCasing: a cased letter
    precedes and none follows, case-ignorable units apart.  [before] is
    the text before the sigma, nearest unit first. *)
Definition Final_Sigma (before after : text) : bool :=
  reaches_cased before && negb (reaches_cased after).

Definition capital_sigma : Z := 0x3A3.
Definition small_sigma : Z := 0x3C3.
Definition final_small_sigma : Z := 0x3C2.

Definition lower_unit (u : Z) : Z :=
  if latin1_capital u || greek_capital u then u + 0x20 else u.

Fixpoint lower_from (before s : text) : text :=
  match s with
  | [] => []
  | u :: r =>
      (if u =? capital_sigma
       then if Final_Sigma before r then final_small_sigma else small_sigma
       else lower_unit u)
      :: lower_from (u :: before) r
  end.

(** [String.prototype.toLowerCase]; [None] when the text has a code unit
    that is not tabulated here. *)
Definition toLowerCase (s : text) : option text :=
  if forallb tabulated s then Some (lower_from [] s) else None.

Fixpoint starts_with (t s : text) : bool :=
  match t, s with
  | [], _ => true
  | a :: t', b :: s' => (a =? b) && starts_with t' s'
  | _ :: _, [] => false
  end.

(** [String.prototype.includes] *)
Fixpoint includes (s t : text) : bool :=
  starts_with t s
  || match s with
     | [] => false
     | _ :: r => includes r t
     end.

(** The callback of [products.filter] in the search handler, on the name
    and the description of a record. *)
Definition search_matches (name description q : text) : option bool :=
  match toLowerCase name, toLowerCase description, toLowerCase q with
  | Some n, Some d, Some k => Some (includes n k || includes d k)
  | _, _, _ => None
  end.

(** A text of [JsString] as code units. *)
Fixpoint embed (s : string) : text :=
  match s with
  | EmptyString => []
  | String c r => Z.of_N (N_of_ascii c) :: embed r
  end.


End Wide.

(* ================================================================== *)
(** * Values *)

(** JSON-shaped JavaScript values, and [undefined]. *)
Inductive value : Type :=
| VUndefined
| VNull
| VBool (b : bool)
| VNum (q : Q)
| VStr (s : string)
| VArr (items : list value)
| VObj (props : list (string * value)).

(** An object: its own properties, in insertion order. *)
Definition obj : Type := list (string * value).

(** [o[k]] for an object literal or a parsed JSON object.  None of the
    property names read by the handlers is inherited from [Object.prototype],
    so own properties decide. *)
Fixpoint get (o : obj) (k : string) : value :=
  match o with
  | [] => VUndefined
  | (k', v) :: r => if String.eqb k k' then v else get r k
  end.

(** [v[k]] on any value that supports property access; [None] is the
    [TypeError] of reading a property of [undefined] or [null].  Arrays,
    strings, numbers and booleans have none of the product fields. *)
Definition get_prop (v : value) (k : string) : option value :=
  match v with
  | VUndefined | VNull => None
  | VObj o => Some (get o k)
  | _ => Some VUndefined
  end.

Inductive js_type : Type :=
| TUndefined | TObject | TBoolean | TNumber | TString.

Definition typeof (v : value) : js_type :=
  match v with
  | VUndefined => TUndefined
  | VNull => TObject
  | VBool _ => TBoolean
  | VNum _ => TNumber
  | VStr _ => TString
  | VArr _ => TObject
  | VObj _ => TObject
  end.

Definition js_type_eqb (a b : js_type) : bool :=
  match a, b with
  | TUndefined, TUndefined | TObject, TObject | TBoolean, TBoolean
  | TNumber, TNumber | TString, TString => true
  | _, _ => false
  end.

(** ToBoolean *)
Definition truthy (v : value) : bool :=
  match v with
  | VUndefined | VNull => false
  | VBool b => b
  | VNum q => negb (Qeq_bool q 0)
  | VStr s => negb (is_empty s)
  | VArr _ | VObj _ => true
  end.

Definition is_undefined (v : value) : bool :=
  match v with VUndefined => true | _ => false end.

(** [v === s] for a string [s]. *)
Definition strict_eq_str (v : value) (s : string) : bool :=
  match v with VStr t => String.eqb t s | _ => false end.

(** [v === b] for a boolean [b]. *)
Definition strict_eq_bool (v : value) (b : bool) : bool :=
  match v with VBool c => Bool.eqb c b | _ => false end.

(* ================================================================== *)
(** * The store and its seed: [let products = [...]] *)

Definition product_keys : list string :=
  ["id"; "name"; "description"; "price"; "category"; "inStock"].

(** The object literal shared by the seed, [newProduct] and
    [updatedProduct]. *)
Definition product_literal
  (id name description : string) (price : value) (category : string)
  (inStock : value) : obj :=
  [ ("id", VStr id);
    ("name", VStr name);
    ("description", VStr description);
    ("price", price);
    ("category", VStr category);
    ("inStock", inStock) ].

Definition seed_laptop : obj :=
  product_literal "1" "Laptop" "High-performance laptop with 16GB RAM"
    (VNum 1200) "electronics" (VBool true).

Definition seed_smartphone : obj :=
  product_literal "2" "Smartphone" "Latest model with 128GB storage"
    (VNum 800) "electronics" (VBool true).

Definition seed_coffee_maker : obj :=
  product_literal "3" "Coffee Maker" "Programmable coffee maker with timer"
    (VNum 50) "kitchen" (VBool false).

Definition seed : list obj :=
  [seed_laptop; seed_smartphone; seed_coffee_maker].

(* ================================================================== *)
(** * Error classes and the result of running a piece of code *)

(** The three custom classes, the [SyntaxError] that [bodyParser.json()]
    passes on for a malformed body, and the [TypeError] the engine throws
    when a method is called on a value that lacks it. *)
Inductive error : Type :=
| NotFoundError (message : string)
| ValidationError (message : string)
| AuthenticationError (message : string)
| BodySyntaxError
| TypeError.

(** [Stuck] marks the places where the source relies on an implicit
    coercion this development does not embed: in the statistics, adding or
    comparing prices that are not numbers, and using as a key a category
    that is not a string.  [stats_never_stuck] and [app_always_answers]
    show that no reachable store leads there. *)
Inductive result (A : Type) : Type :=
| Ok (a : A)
| Throw (e : error)
| Stuck.
Arguments Ok {A} a.
Arguments Throw {A} e.
Arguments Stuck {A}.

Definition bind {A B : Type} (m : result A) (k : A -> result B) : result B :=
  match m with
  | Ok a => k a
  | Throw e => Throw e
  | Stuck => Stuck
  end.

Notation "x <- m ;; k" := (bind m (fun x => k))
  (at level 61, m at next level, right associativity).
Notation "m ;;; k" := (bind m (fun _ => k))
  (at level 61, right associativity).

Fixpoint filterM {A : Type} (f : A -> result bool) (l : list A)
  : result (list A) :=
  match l with
  | [] => Ok []
  | x :: r =>
      keep <- f x ;;
      r' <- filterM f r ;;
      Ok (if keep then x :: r' else r')
  end.

Fixpoint mapM {A B : Type} (f : A -> result B) (l : list A)
  : result (list B) :=
  match l with
  | [] => Ok []
  | x :: r =>
      y <- f x ;;
      r' <- mapM f r ;;
      Ok (y :: r')
  end.

Fixpoint foldM {A B : Type} (f : B -> A -> result B) (l : list A) (acc : B)
  : result B :=
  match l with
  | [] => Ok acc
  | x :: r =>
      acc' <- f acc x ;;
      foldM f r acc'
  end.

(** [v.trim()] and [v.toLowerCase()]: only strings have these methods. *)
Definition method_trim (v : value) : result string :=
  match v with VStr s => Ok (trim s) | _ => Throw TypeError end.

Definition method_toLowerCase (v : value) : result string :=
  match v with VStr s => Ok (toLowerCase s) | _ => Throw TypeError end.

(* ================================================================== *)
(** * Requests and responses *)

(** The methods the file registers routes for, and PATCH for a method it
    has no route for.  HEAD and OPTIONS, which the framework answers by
    itself, are left out. *)
Inductive method : Type := GET | POST | PUT | DELETE | PATCH.

Definition method_name (m : method) : string :=
  match m with
  | GET => "GET" | POST => "POST" | PUT => "PUT"
  | DELETE => "DELETE" | PATCH => "PATCH"
  end.

Definition method_eqb (a b : method) : bool :=
  String.eqb (method_name a) (method_name b).

(** A value of [req.query]: the query parser gives strings, arrays
    ([?q=a&q=b]) and nested objects ([?q[k]=a]). *)
Inductive qval : Type :=
| QStr (s : string)
| QArr (items : list qval)
| QObj (props : list (string * qval)).

(** ToString of a query value. *)
Fixpoint qToString (v : qval) : string :=
  match v with
  | QStr s => s
  | QArr items => join "," (map qToString items)
  | QObj _ => "[object Object]"
  end.

Definition q_truthy (v : qval) : bool :=
  match v with
  | QStr s => negb (is_empty s)
  | _ => true
  end.

Definition q_toLowerCase (v : qval) : result string :=
  match v with QStr s => Ok (toLowerCase s) | _ => Throw TypeError end.

(** What [bodyParser.json()] leaves in [req.body], or the fact that the
    body was not valid JSON. *)
Inductive parsed_body : Type :=
| Malformed
| Parsed (v : value).

(** [req_path] is the list of the non-empty segments of the request path;
    [req_api_key] is [req.headers['x-api-key']]. *)
Record request : Type := {
  req_method : method;
  req_originalUrl : string;
  req_path : list string;
  req_query : list (string * qval);
  req_api_key : option string;
  req_body : parsed_body
}.

Fixpoint query_get (q : list (string * qval)) (k : string) : option qval :=
  match q with
  | [] => None
  | (k', v) :: r => if String.eqb k k' then Some v else query_get r k
  end.

Definition body_value (req : request) : value :=
  match req_body req with
  | Parsed v => v
  | Malformed => VUndefined
  end.

Record response : Type := {
  statusCode : Z;
  payload : value
}.

Definition json (status : Z) (v : value) : response :=
  {| statusCode := status; payload := v |}.

Definition VInt (z : Z) : value := VNum (inject_Z z).
Definition VLen {A : Type} (l : list A) : value :=
  VInt (Z.of_nat (List.length l)).
Definition VProducts (l : list obj) : value := VArr (map VObj l).

(* ================================================================== *)
(** * Middleware *)

Definition secret_api_key : string := "your-secret-api-key".

(** [authMiddleware]: [Ok tt] is [next()], [Throw e] is [next(e)]. *)
Definition authMiddleware (req : request) : result unit :=
  let apiKey := req_api_key req in
  if method_eqb (req_method req) GET then Ok tt
  else
    match apiKey with
    | None => Throw (AuthenticationError "Invalid or missing API key")
    | Some k =>
        if is_empty k || negb (String.eqb k secret_api_key)
        then Throw (AuthenticationError "Invalid or missing API key")
        else Ok tt
    end.

(** [!v || typeof v !== 'string' || v.trim().length === 0] *)
Definition text_rule_violated (v : value) : bool :=
  if negb (truthy v) then true
  else if negb (js_type_eqb (typeof v) TString) then true
  else
    match v with
    | VStr s => Nat.eqb (String.length (trim s)) 0
    | _ => false (* not reached: typeof v is 'string' on this branch *)
    end.

Definition Qlt_bool (x y : Q) : bool := negb (Qle_bool y x).

(** [price === undefined || typeof price !== 'number' || price < 0] *)
Definition price_rule_violated (v : value) : bool :=
  if is_undefined v then true
  else if negb (js_type_eqb (typeof v) TNumber) then true
  else
    match v with
    | VNum q => Qlt_bool q 0
    | _ => false (* not reached: typeof v is 'number' on this branch *)
    end.

(** [inStock === undefined || typeof inStock !== 'boolean'] *)
Definition inStock_rule_violated (v : value) : bool :=
  is_undefined v || negb (js_type_eqb (typeof v) TBoolean).

Definition name_message : string :=
  "Name is required and must be a non-empty string".
Definition description_message : string :=
  "Description is required and must be a non-empty string".
Definition price_message : string :=
  "Price is required and must be a non-negative number".
Definition category_message : string :=
  "Category is required and must be a non-empty string".
Definition inStock_message : string :=
  "inStock is required and must be a boolean".

(** One [if (...) errors.push(...)] statement. *)
Definition push_if (violated : bool) (message : string)
  (errors : list string) : list string :=
  if violated then errors ++ [message] else errors.

(** The [errors] array once the five [if] statements have run. *)
Definition validation_errors
  (name description price category inStock : value) : list string :=
  let errors := [] in
  let errors := push_if (text_rule_violated name) name_message errors in
  let errors :=
    push_if (text_rule_violated description) description_message errors in
  let errors := push_if (price_rule_violated price) price_message errors in
  let errors :=
    push_if (text_rule_violated category) category_message errors in
  let errors :=
    push_if (inStock_rule_violated inStock) inStock_message errors in
  errors.

(** [validateProduct].  Destructuring [req.body] throws when it is
    [undefined] or [null]. *)
Definition validateProduct (req : request) : result unit :=
  let body := body_value req in
  match get_prop body "name", get_prop body "description",
        get_prop body "price", get_prop body "category",
        get_prop body "inStock" with
  | Some name, Some description, Some price, Some category, Some inStock =>
      let errors :=
        validation_errors name description price category inStock in
      if (0 <? List.length errors)%nat
      then Throw (ValidationError (join ", " errors))
      else Ok tt
  | _, _, _, _, _ => Throw TypeError
  end.

(* ================================================================== *)
(** * Pagination helpers: [parseInt], [||], [slice], [Math.ceil] *)

Definition digit_value (c : ascii) : option Z :=
  let n := Z.of_N (N_of_ascii c) in
  if ((48 <=? n) && (n <=? 57))%Z then Some (n - 48)%Z
  else if ((97 <=? n) && (n <=? 122))%Z then Some (n - 87)%Z
  else if ((65 <=? n) && (n <=? 90))%Z then Some (n - 55)%Z
  else None.

(** The longest run of radix digits at the head of [s], as a number;
    [acc] is [None] until a digit has been read. *)
Fixpoint parse_digits (radix : Z) (s : string) (acc : option Z) : option Z :=
  match s with
  | EmptyString => acc
  | String c r =>
      match digit_value c with
      | Some d =>
          if (d <? radix)%Z
          then parse_digits radix r
                 (Some (radix * match acc with Some a => a | None => 0 end
                        + d)%Z)
          else acc
      | None => acc
      end
  end.

(** The integer [parseInt(s)] reads, with no radix argument, before it
    is made a number; [None] when there is no digit to read. *)
Definition parse_integer (s : string) : option Z :=
  let s := trimStart s in
  let '(sign, s) :=
    match s with
    | String "-" r => ((-1)%Z, r)
    | String "+" r => (1%Z, r)
    | _ => (1%Z, s)
    end in
  let '(radix, s) :=
    match s with
    | String "0" (String "x" r) => (16%Z, r)
    | String "0" (String "X" r) => (16%Z, r)
    | _ => (10%Z, s)
    end in
  option_map (Z.mul sign) (parse_digits radix s None).

(** ** Binary64 numbers *)

(** A number: the exact value of a finite double, an infinity with its
    sign, or NaN. *)
Inductive number : Type :=
| Fin (q : Q)
| Inf (negative : bool)
| NaN.

(** [Number.MAX_SAFE_INTEGER]: up to it in size, every integer is a
    double. *)
Definition MAX_SAFE_INTEGER : Z := 2 ^ 53 - 1.

(** For positive [n] and [d], the exponent [L] with
    [2^L <= n/d < 2^(L+1)]. *)
Definition floor_log2 (n d : Z) : Z :=
  let k := (Z.log2 n - Z.log2 d)%Z in
  if (if (0 <=? k)%Z then (d * 2 ^ k <=? n)%Z else (d <=? n * 2 ^ (- k))%Z)
  then k
  else (k - 1)%Z.

(** The integer nearest to [num/den], a tie going to the even one. *)
Definition round_half_even (num den : Z) : Z :=
  let m := (num / den)%Z in
  let r := (num mod den)%Z in
  if (2 * r <? den)%Z then m
  else if (den <? 2 * r)%Z then (m + 1)%Z
  else if Z.even m then m else (m + 1)%Z.

(** The double nearest to [n/d], for positive [n] and [d]: 53 significant
    bits, exponents down to that of the subnormal doubles, and infinity
    from 2^1024 on.  The value is kept in lowest terms. *)
Definition round_magnitude (n d : Z) : number :=
  let e := Z.max (floor_log2 n d - 52) (-1074) in
  if (0 <? e)%Z then
    let m := round_half_even n (d * 2 ^ e) in
    if (2 ^ 1024 <=? m * 2 ^ e)%Z then Inf false
    else Fin (inject_Z (m * 2 ^ e))
  else
    let m := round_half_even (n * 2 ^ (- e)) d in
    Fin (Qred (m # Z.to_pos (2 ^ (- e)))).

Definition num_neg (x : number) : number :=
  match x with
  | Fin q => Fin (- q)
  | Inf negative => Inf (negb negative)
  | NaN => NaN
  end.

(** The number value of an exact result: the nearest double. *)
Definition round64 (q : Q) : number :=
  match Qnum q with
  | Z0 => Fin 0
  | Zpos n => round_magnitude (Zpos n) (Zpos (Qden q))
  | Zneg n => num_neg (round_magnitude (Zpos n) (Zpos (Qden q)))
  end.

Definition Qnegative (q : Q) : bool := negb (Qle_bool 0 q).

(** [x + y] *)
Definition num_add (x y : number) : number :=
  match x, y with
  | NaN, _ | _, NaN => NaN
  | Inf s, Inf t => if Bool.eqb s t then Inf s else NaN
  | Inf s, Fin _ | Fin _, Inf s => Inf s
  | Fin a, Fin b => round64 (a + b)
  end.

(** [x - y] *)
Definition num_sub (x y : number) : number := num_add x (num_neg y).

(** [x * y] *)
Definition num_mul (x y : number) : number :=
  match x, y with
  | NaN, _ | _, NaN => NaN
  | Inf s, Inf t => Inf (xorb s t)
  | Inf s, Fin b | Fin b, Inf s =>
      if Qeq_bool b 0 then NaN else Inf (xorb s (Qnegative b))
  | Fin a, Fin b => round64 (a * b)
  end.

(** [x / y]; a zero divisor is taken as +0. *)
Definition num_div (x y : number) : number :=
  match x, y with
  | NaN, _ | _, NaN => NaN
  | Inf _, Inf _ => NaN
  | Inf s, Fin b => Inf (xorb s (Qnegative b))
  | Fin _, Inf _ => Fin 0
  | Fin a, Fin b =>
      if Qeq_bool b 0
      then if Qeq_bool a 0 then NaN else Inf (Qnegative a)
      else round64 (a / b)
  end.

(** [Math.ceil(x)] *)
Definition Math_ceil (x : number) : number :=
  match x with
  | Fin q => Fin (inject_Z (Qceiling q))
  | _ => x
  end.

(** What [res.json] writes for a number: [null] when it is not finite. *)
Definition num_json (x : number) : value :=
  match x with
  | Fin q => VNum q
  | _ => VNull
  end.

(** [parseInt(s)]: the number value of the integer read; NaN without a
    digit. *)
Definition parseInt_string (s : string) : number :=
  match parse_integer s with
  | Some z => round64 (inject_Z z)
  | None => NaN
  end.

(** [parseInt(req.query.k)]: the argument goes through ToString, and
    [undefined] becomes the text 'undefined'. *)
Definition parseInt (v : option qval) : number :=
  match v with
  | None => parseInt_string "undefined"
  | Some q => parseInt_string (qToString q)
  end.

(** [n || d] for a number [n]: NaN and 0 are falsy. *)
Definition or_default (n : number) (d : Z) : number :=
  match n with
  | Fin q => if Qeq_bool q 0 then Fin (inject_Z d) else n
  | Inf _ => n
  | NaN => Fin (inject_Z d)
  end.

(** ToIntegerOrInfinity *)
Inductive index : Type :=
| Minus_infinity
| Index (z : Z)
| Plus_infinity.

Definition Qtruncate (q : Q) : Z :=
  if Qle_bool 0 q then Qfloor q else Qceiling q.

Definition ToIntegerOrInfinity (x : number) : index :=
  match x with
  | NaN => Index 0
  | Inf true => Minus_infinity
  | Inf false => Plus_infinity
  | Fin q => Index (Qtruncate q)
  end.

(** How [Array.prototype.slice] reads one bound: a negative bound counts
    from the end, and both are clamped to [0, len]. *)
Definition relative_index (len i : Z) : Z :=
  if (i <? 0)%Z then Z.max (len + i) 0 else Z.min i len.

(** [l.slice(start, stop)] for integer bounds. *)
Definition slice {A : Type} (l : list A) (start stop : Z) : list A :=
  let len := Z.of_nat (List.length l) in
  let k := relative_index len start in
  let final := relative_index len stop in
  firstn (Z.to_nat (final - k)) (skipn (Z.to_nat k) l).

(** One bound of [slice] given as a number: minus infinity is the start
    of the array and plus infinity its end. *)
Definition relative_bound (len : Z) (x : number) : Z :=
  match ToIntegerOrInfinity x with
  | Minus_infinity => 0%Z
  | Plus_infinity => len
  | Index z => relative_index len z
  end.

(** [l.slice(start, stop)] *)
Definition slice_numbers {A : Type} (l : list A) (start stop : number)
  : list A :=
  let len := Z.of_nat (List.length l) in
  let k := relative_bound len start in
  let final := relative_bound len stop in
  firstn (Z.to_nat (final - k)) (skipn (Z.to_nat k) l).

(** The least integer that is at least [n / d], for integers [n] and
    [d], [d] not 0. *)
Definition ceil_div (n d : Z) : Z :=
  Qceiling (inject_Z n / inject_Z d).

(** [Math.round(x)]: the nearest integer, a tie going up.  The result is
    exact: a double that has a fraction is below 2^52. *)
Definition Math_round (x : number) : number :=
  match x with
  | Fin q => Fin (inject_Z (Qfloor (q + (1 # 2))))
  | _ => x
  end.

(* ================================================================== *)
(** * Handlers *)

(** A handler gets the store, and gives the response it sends together
    with the store it leaves, or throws. *)
Definition handled : Type := result (response * list obj).

(** [GET /] *)
Definition rootHandler (products : list obj) : handled :=
  Ok (json 200
        (VObj
           [ ("message", VStr "Welcome to the Product API!");
             ("endpoints",
              VObj
                [ ("GET /api/products", VStr "Get all products");
                  ("GET /api/products/:id", VStr "Get a specific product");
                  ("POST /api/products", VStr "Create a new product");
                  ("PUT /api/products/:id", VStr "Update a product");
                  ("DELETE /api/products/:id", VStr "Delete a product");
                  ("GET /api/products/search",
                   VStr "Search products by name");
                  ("GET /api/products/stats",
                   VStr "Get product statistics") ]) ]),
      products).

(** The category filter of the list handler. *)
Definition filter_by_category (query : list (string * qval))
  (filteredProducts : list obj) : result (list obj) :=
  match query_get query "category" with
  | Some c =>
      if q_truthy c then
        filterM
          (fun product =>
             mine <- method_toLowerCase (get product "category") ;;
             wanted <- q_toLowerCase c ;;
             Ok (String.eqb mine wanted))
          filteredProducts
      else Ok filteredProducts
  | None => Ok filteredProducts
  end.

(** The [inStock] filter of the list handler. *)
Definition filter_by_inStock (query : list (string * qval))
  (filteredProducts : list obj) : list obj :=
  match query_get query "inStock" with
  | Some v =>
      let inStockFilter :=
        match v with QStr s => String.eqb s "true" | _ => false end in
      filter (fun product => strict_eq_bool (get product "inStock")
                               inStockFilter)
        filteredProducts
  | None => filteredProducts
  end.

Definition page_of (query : list (string * qval)) : number :=
  or_default (parseInt (query_get query "page")) 1.

Definition limit_of (query : list (string * qval)) : number :=
  or_default (parseInt (query_get query "limit")) 10.

(** [(page - 1) * limit] and [page * limit] *)
Definition start_index (page limit : number) : number :=
  num_mul (num_sub page (Fin 1)) limit.

Definition end_index (page limit : number) : number := num_mul page limit.

(** [Math.ceil(filteredProducts.length / limit)] *)
Definition total_pages (length : Z) (limit : number) : number :=
  Math_ceil (num_div (Fin (inject_Z length)) limit).

(** The pagination block and the response of the list handler. *)
Definition paginate (query : list (string * qval))
  (filteredProducts : list obj) : response :=
  let page := page_of query in
  let limit := limit_of query in
  let startIndex := start_index page limit in
  let endIndex := end_index page limit in
  let paginatedProducts :=
    slice_numbers filteredProducts startIndex endIndex in
  json 200
    (VObj
       [ ("products", VProducts paginatedProducts);
         ("pagination",
          VObj
            [ ("currentPage", num_json page);
              ("totalPages",
               num_json
                 (total_pages (Z.of_nat (List.length filteredProducts))
                    limit));
              ("totalProducts", VLen filteredProducts);
              ("productsPerPage", num_json limit) ]) ]).

(** [GET /api/products] *)
Definition listHandler (products : list obj) (req : request) : handled :=
  let filteredProducts := products in
  filteredProducts <- filter_by_category (req_query req) filteredProducts ;;
  let filteredProducts := filter_by_inStock (req_query req) filteredProducts in
  Ok (paginate (req_query req) filteredProducts, products).

(** The quoted letter q of the search error message. *)
Definition quoted_q : string :=
  String (ascii_of_nat 34) ("q" ++ String (ascii_of_nat 34) EmptyString).

Definition search_required_message : string :=
  "Search query parameter " ++ quoted_q ++ " is required".

(** A query value as it is written into a JSON response. *)
Fixpoint q_value (v : qval) : value :=
  match v with
  | QStr s => VStr s
  | QArr items => VArr (map q_value items)
  | QObj props =>
      VObj (map (fun kv => match kv with (k, x) => (k, q_value x) end) props)
  end.

(** The callback of the search filter. *)
Definition search_matches (q : qval) (product : obj) : result bool :=
  name <- method_toLowerCase (get product "name") ;;
  needle <- q_toLowerCase q ;;
  if includes name needle then Ok true
  else
    description <- method_toLowerCase (get product "description") ;;
    needle <- q_toLowerCase q ;;
    Ok (includes description needle).

(** [GET /api/products/search] *)
Definition searchHandler (products : list obj) (req : request) : handled :=
  match query_get (req_query req) "q" with
  | None => Throw (ValidationError search_required_message)
  | Some q =>
      if negb (q_truthy q)
      then Throw (ValidationError search_required_message)
      else
        searchResults <- filterM (search_matches q) products ;;
        Ok (json 200
              (VObj
                 [ ("query", q_value q);
                   ("results", VProducts searchResults);
                   ("count", VLen searchResults) ]),
            products)
  end.

(** ** Statistics *)

(** The properties every plain object inherits from [Object.prototype],
    each with the text ToString gives for its value: the accessor
    [__proto__] reads as the prototype object itself, the others are
    built-in functions. *)
Definition object_prototype_text (k : string) : option string :=
  if String.eqb k "constructor"
  then Some "function Object() { [native code] }"
  else if String.eqb k "__proto__" then Some "[object Object]"
  else if existsb (String.eqb k)
            [ "__defineGetter__"; "__defineSetter__"; "hasOwnProperty";
              "__lookupGetter__"; "__lookupSetter__"; "isPrototypeOf";
              "propertyIsEnumerable"; "toString"; "valueOf";
              "toLocaleString" ]
  then Some ("function " ++ k ++ "() { [native code] }")%string
  else None.

Fixpoint own (o : obj) (k : string) : option value :=
  match o with
  | [] => None
  | (k', v) :: r => if String.eqb k k' then Some v else own r k
  end.

(** [o[k] = v] on a plain object: an own property is overwritten where it
    stands, a new one is added last; assigning a primitive to [__proto__]
    goes to the inherited setter, which ignores it. *)
Fixpoint set_own (o : obj) (k : string) (v : value) : obj :=
  match o with
  | [] => [(k, v)]
  | (k', v') :: r =>
      if String.eqb k k' then (k', v) :: r else (k', v') :: set_own r k v
  end.

Definition assign (o : obj) (k : string) (v : value) : obj :=
  if String.eqb k "__proto__" then o else set_own o k v.

(** [(counts[k] || 0) + 1].  An own entry is a number, or a text once a
    text has been stored (nothing else is ever assigned); an inherited
    value is an object, which is truthy and which [+] turns into its
    text. *)
Definition incremented (counts : obj) (k : string) : result value :=
  match own counts k with
  | Some (VNum n) => Ok (VNum (n + 1))
  | Some (VStr s) => Ok (if is_empty s then VNum (0 + 1) else VStr (s ++ "1")%string)
  | Some _ => Stuck
  | None =>
      match object_prototype_text k with
      | Some text => Ok (VStr (text ++ "1")%string)
      | None => Ok (VNum (0 + 1))
      end
  end.

(** One turn of the [forEach] that fills [stats.categoryCounts]. *)
Definition count_category (counts : obj) (product : obj) : result obj :=
  match get product "category" with
  | VStr category =>
      v <- incremented counts category ;;
      Ok (assign counts category v)
  | _ => Stuck
  end.

Definition price_number (product : obj) : result Q :=
  match get product "price" with
  | VNum q => Ok q
  | _ => Stuck
  end.

(** [Math.min(...prices)] and [Math.max(...prices)] for a list that is not
    empty, given as its head and tail. *)
Definition Math_min (x : Q) (xs : list Q) : Q := fold_left Qmin xs x.
Definition Math_max (x : Q) (xs : list Q) : Q := fold_left Qmax xs x.

(** [products.reduce((sum, product) => sum + product.price, 0)]; the
    engine holds a price as the double nearest to it. *)
Definition total_price (prices : list Q) : number :=
  fold_left (fun sum price => num_add sum (round64 price)) prices (Fin 0).

(** [Math.round((totalPrice / products.length) * 100) / 100] *)
Definition average_price (prices : list Q) : number :=
  let totalPrice := total_price prices in
  num_div
    (Math_round
       (num_mul
          (num_div totalPrice (Fin (inject_Z (Z.of_nat (List.length prices)))))
          (Fin 100)))
    (Fin 100).

(** [averagePrice] and [priceRange] as the handler leaves them. *)
Definition price_stats (prices : list Q) : number * Q * Q :=
  match prices with
  | [] => (Fin 0, 0, 0)
  | p :: ps => (average_price prices, Math_min p ps, Math_max p ps)
  end.

(** [GET /api/products/stats] *)
Definition statsHandler (products : list obj) : handled :=
  let totalProducts := VLen products in
  let inStockCount :=
    VLen (filter (fun p => truthy (get p "inStock")) products) in
  let outOfStockCount :=
    VLen (filter (fun p => negb (truthy (get p "inStock"))) products) in
  categoryCounts <- foldM count_category products [] ;;
  prices <- mapM price_number products ;;
  let '(averagePrice, min, max) := price_stats prices in
  Ok (json 200
        (VObj
           [ ("totalProducts", totalProducts);
             ("inStockCount", inStockCount);
             ("outOfStockCount", outOfStockCount);
             ("categoryCounts", VObj categoryCounts);
             ("averagePrice", num_json averagePrice);
             ("priceRange", VObj [("min", VNum min); ("max", VNum max)]) ]),
      products).

(** ** Single-record handlers *)

Definition not_found_message (id : string) : string :=
  "Product with ID " ++ id ++ " not found".

Definition has_id (id : string) (p : obj) : bool :=
  strict_eq_str (get p "id") id.

(** [Array.prototype.findIndex]; [None] is -1. *)
Fixpoint findIndex {A : Type} (f : A -> bool) (l : list A) : option nat :=
  match l with
  | [] => None
  | x :: r => if f x then Some 0%nat else option_map S (findIndex f r)
  end.

(** [l[i] = x] for an index inside the array. *)
Fixpoint set_nth {A : Type} (l : list A) (i : nat) (x : A) : list A :=
  match l, i with
  | [], _ => []
  | _ :: r, O => x :: r
  | y :: r, S j => y :: set_nth r j x
  end.

(** [l.splice(i, 1)] seen from the array: the element at [i] is gone. *)
Fixpoint remove_nth {A : Type} (l : list A) (i : nat) : list A :=
  match l, i with
  | [], _ => []
  | _ :: r, O => r
  | y :: r, S j => y :: remove_nth r j
  end.

(** [GET /api/products/:id] *)
Definition getHandler (products : list obj) (id : string) : handled :=
  match find (has_id id) products with
  | Some product => Ok (json 200 (VObj product), products)
  | None => Throw (NotFoundError (not_found_message id))
  end.

(** The object literal both writers build from the body; the engine
    throws when [trim] is called on something that is not a string. *)
Definition build_product (id : string) (body : value) : result obj :=
  match get_prop body "name", get_prop body "description",
        get_prop body "price", get_prop body "category",
        get_prop body "inStock" with
  | Some name, Some description, Some price, Some category, Some inStock =>
      name <- method_trim name ;;
      description <- method_trim description ;;
      category <- method_trim category ;;
      Ok (product_literal id name description price
            (toLowerCase category) inStock)
  | _, _, _, _, _ => Throw TypeError
  end.

(** [POST /api/products], after the two middlewares. *)
Definition createHandler (uuid : string) (products : list obj)
  (req : request) : handled :=
  newProduct <- build_product uuid (body_value req) ;;
  let products := products ++ [newProduct] in
  Ok (json 201
        (VObj
           [ ("message", VStr "Product created successfully");
             ("product", VObj newProduct) ]),
      products).

(** [PUT /api/products/:id], after the two middlewares. *)
Definition updateHandler (products : list obj) (id : string)
  (req : request) : handled :=
  match findIndex (has_id id) products with
  | None => Throw (NotFoundError (not_found_message id))
  | Some productIndex =>
      updatedProduct <- build_product id (body_value req) ;;
      let products := set_nth products productIndex updatedProduct in
      Ok (json 200
            (VObj
               [ ("message", VStr "Product updated successfully");
                 ("product", VObj updatedProduct) ]),
          products)
  end.

(** [DELETE /api/products/:id], after the middleware. *)
Definition deleteHandler (products : list obj) (id : string) : handled :=
  match findIndex (has_id id) products with
  | None => Throw (NotFoundError (not_found_message id))
  | Some productIndex =>
      let deletedProduct :=
        match nth_error products productIndex with
        | Some p => VObj p
        | None => VUndefined
        end in
      let products := remove_nth products productIndex in
      Ok (json 200
            (VObj
               [ ("message", VStr "Product deleted successfully");
                 ("product", deletedProduct) ]),
          products)
  end.

(* ================================================================== *)
(** * The terminal stages *)

Definition error_name (e : error) : string :=
  match e with
  | NotFoundError _ => "NotFoundError"
  | ValidationError _ => "ValidationError"
  | AuthenticationError _ => "AuthenticationError"
  | BodySyntaxError => "SyntaxError"
  | TypeError => "TypeError"
  end.

(** The [statusCode] field the three custom classes set. *)
Definition error_statusCode (e : error) : option Z :=
  match e with
  | NotFoundError _ => Some 404%Z
  | ValidationError _ => Some 400%Z
  | AuthenticationError _ => Some 401%Z
  | BodySyntaxError | TypeError => None
  end.

Definition error_body (name message : string) (status : Z) : value :=
  VObj [ ("error", VStr name);
         ("message", VStr message);
         ("statusCode", VInt status) ].

(** The global error-handling middleware. *)
Definition errorHandler (err : error) : response :=
  match err with
  | NotFoundError m | ValidationError m | AuthenticationError m =>
      let status :=
        match error_statusCode err with Some c => c | None => 500%Z end in
      json status (error_body (error_name err) m status)
  | BodySyntaxError =>
      json 400
        (error_body "Invalid JSON" "Request body contains invalid JSON" 400)
  | TypeError =>
      json 500
        (error_body "Internal Server Error"
           "Something went wrong on the server" 500)
  end.

(** [app.use('*', ...)]: no route took the request. *)
Definition notFoundHandler (req : request) : response :=
  json 404
    (error_body "Not Found"
       ("Route " ++ method_name (req_method req) ++ " "
        ++ req_originalUrl req ++ " not found")
       404).

(* ================================================================== *)
(** * Routing *)

(** One segment of a route path: literal text, or a named parameter. *)
Inductive segment : Type :=
| Lit (text : string)
| Param (name : string).

(** The handlers, named after the routes that mount them. *)
Inductive handler : Type :=
| Root
| ListProducts
| SearchProducts
| ProductStats
| GetProduct
| CreateProduct
| UpdateProduct
| DeleteProduct.

Record route : Type := {
  route_method : method;
  route_path : list segment;
  route_handler : handler
}.

Definition api_products : list segment := [Lit "api"; Lit "products"].

(** The [app.get], [app.post], [app.put] and [app.delete] calls, in the
    order in which the file makes them. *)
Definition routes : list route :=
  [ {| route_method := GET; route_path := []; route_handler := Root |};
    {| route_method := GET; route_path := api_products;
       route_handler := ListProducts |};
    {| route_method := GET; route_path := api_products ++ [Lit "search"];
       route_handler := SearchProducts |};
    {| route_method := GET; route_path := api_products ++ [Lit "stats"];
       route_handler := ProductStats |};
    {| route_method := GET; route_path := api_products ++ [Param "id"];
       route_handler := GetProduct |};
    {| route_method := POST; route_path := api_products;
       route_handler := CreateProduct |};
    {| route_method := PUT; route_path := api_products ++ [Param "id"];
       route_handler := UpdateProduct |};
    {| route_method := DELETE; route_path := api_products ++ [Param "id"];
       route_handler := DeleteProduct |} ].

(** A route path against a request path; the result binds the parameters.
    Literal text is compared without regard to letter case, as the router
    does by default. *)
Fixpoint match_path (pattern : list segment) (path : list string)
  : option (list (string * string)) :=
  match pattern, path with
  | [], [] => Some []
  | Lit text :: pattern', s :: path' =>
      if String.eqb (toLowerCase s) (toLowerCase text)
      then match_path pattern' path'
      else None
  | Param name :: pattern', s :: path' =>
      option_map (cons (name, s)) (match_path pattern' path')
  | _, _ => None
  end.

(** The first route, in registration order, that takes the request. *)
Fixpoint find_route (table : list route) (m : method) (path : list string)
  : option (handler * list (string * string)) :=
  match table with
  | [] => None
  | r :: table' =>
      if method_eqb (route_method r) m then
        match match_path (route_path r) path with
        | Some params => Some (route_handler r, params)
        | None => find_route table' m path
        end
      else find_route table' m path
  end.

(** [req.params.id] *)
Fixpoint param (params : list (string * string)) (k : string) : string :=
  match params with
  | [] => EmptyString
  | (k', v) :: r => if String.eqb k k' then v else param r k
  end.

(** What each route runs: its middleware in the order given at
    registration, then its handler. *)
Definition run (h : handler) (uuid : string) (products : list obj)
  (req : request) (params : list (string * string)) : handled :=
  match h with
  | Root => rootHandler products
  | ListProducts => listHandler products req
  | SearchProducts => searchHandler products req
  | ProductStats => statsHandler products
  | GetProduct => getHandler products (param params "id")
  | CreateProduct =>
      authMiddleware req ;;;
      validateProduct req ;;;
      createHandler uuid products req
  | UpdateProduct =>
      authMiddleware req ;;;
      validateProduct req ;;;
      updateHandler products (param params "id") req
  | DeleteProduct =>
      authMiddleware req ;;;
      deleteHandler products (param params "id")
  end.

(** One request through the application: body parsing, routing, the
    route, and the error handler or the 404 stage.  [None] when the route
    got stuck. *)
Definition app (uuid : string) (products : list obj) (req : request)
  : option (response * list obj) :=
  match req_body req with
  | Malformed => Some (errorHandler BodySyntaxError, products)
  | Parsed _ =>
      match find_route routes (req_method req) (req_path req) with
      | None => Some (notFoundHandler req, products)
      | Some (h, params) =>
          match run h uuid products req params with
          | Ok (res, products') => Some (res, products')
          | Throw e => Some (errorHandler e, products)
          | Stuck => None
          end
      end
  end.

(** The stores the application can be in: the seed, and what any request
    leaves behind. *)
Inductive reachable : list obj -> Prop :=
| reachable_seed : reachable seed
| reachable_step :
    forall products uuid req res products',
      reachable products ->
      app uuid products req = Some (res, products') ->
      reachable products'.

(* ================================================================== *)
(** * Vocabulary of the specification *)

(** ** The data model's field rules *)

Definition is_nonempty_string (v : value) : Prop :=
  exists s, v = VStr s /\ s <> EmptyString.

Definition is_nonnegative_number (v : value) : Prop :=
  exists q, v = VNum q /\ (0 <= q)%Q.

Definition is_boolean (v : value) : Prop :=
  exists b, v = VBool b.

Definition satisfies_field_rules (o : obj) : Prop :=
  is_nonempty_string (get o "name")
  /\ is_nonempty_string (get o "description")
  /\ is_nonnegative_number (get o "price")
  /\ is_nonempty_string (get o "category")
  /\ is_boolean (get o "inStock").

(** The record, sent back as a request body, would pass [validateProduct]. *)
Definition passes_validation (o : obj) : Prop :=
  validation_errors (get o "name") (get o "description") (get o "price")
    (get o "category") (get o "inStock") = [].

(** The shape every stored record has: the six-field literal, with typed
    and validated contents. *)
Definition well_formed (o : obj) : Prop :=
  exists id name description price category inStock,
    o = product_literal id name description (VNum price) category
          (VBool inStock)
    /\ trim name <> EmptyString
    /\ trim description <> EmptyString
    /\ (0 <= price)%Q
    /\ trim category <> EmptyString.

(** ** The validation rules, as the specification words them *)

(** Present, a string, and with content once trimmed. *)
Definition text_ok (v : value) : bool :=
  match v with
  | VStr s => negb (is_empty (trim s))
  | _ => false
  end.

(** Present, a number, and at least 0. *)
Definition price_ok (v : value) : bool :=
  match v with
  | VNum q => Qle_bool 0 q
  | _ => false
  end.

(** Present and a boolean. *)
Definition inStock_ok (v : value) : bool :=
  match v with
  | VBool _ => true
  | _ => false
  end.

(** The five rules applied to a candidate record, each with its message. *)
Definition rules (o : obj) : list (bool * string) :=
  [ (text_ok (get o "name"), name_message);
    (text_ok (get o "description"), description_message);
    (price_ok (get o "price"), price_message);
    (text_ok (get o "category"), category_message);
    (inStock_ok (get o "inStock"), inStock_message) ].

(** The messages of the rules that are violated, in rule order. *)
Definition violations (o : obj) : list string :=
  map snd (filter (fun r => negb (fst r)) (rules o)).

(** ** Pagination *)

(** The elements of [l] whose position, counted from [i], lies in
    [lo, hi). *)
Fixpoint window_from {A : Type} (i : Z) (l : list A) (lo hi : Z) : list A :=
  match l with
  | [] => []
  | x :: r =>
      if ((lo <=? i) && (i <? hi))%Z
      then x :: window_from (i + 1) r lo hi
      else window_from (i + 1) r lo hi
  end.

Definition window {A : Type} (l : list A) (lo hi : Z) : list A :=
  window_from 0 l lo hi.

(** The [products] array of a list response. *)
Definition listed (res : response) : value :=
  match payload res with
  | VObj o => get o "products"
  | _ => VUndefined
  end.

(** A field of the [pagination] object of a list response. *)
Definition pagination_field (res : response) (k : string) : value :=
  match payload res with
  | VObj o =>
      match get o "pagination" with
      | VObj p => get p k
      | _ => VUndefined
      end
  | _ => VUndefined
  end.

(** ** Search *)

Definition text_of (v : value) : string :=
  match v with VStr s => s | _ => EmptyString end.


(** ** Statistics *)

(** How many records carry the category [c]. *)
Definition category_count (c : string) (products : list obj) : nat :=
  List.length (filter (fun p => strict_eq_str (get p "category") c) products).

(** A field of the statistics response. *)
Definition stats_field (res : response) (k : string) : value :=
  match payload res with
  | VObj o => get o k
  | _ => VUndefined
  end.

Definition stats_category (res : response) (c : string) : value :=
  match stats_field res "categoryCounts" with
  | VObj counts => get counts c
  | _ => VUndefined
  end.

(** ** Access control *)

(** The credential equals the shared secret. *)
Definition credential_ok (key : option string) : bool :=
  match key with
  | Some k => String.eqb k secret_api_key
  | None => false
  end.

Definition authentication_message : string := "Invalid or missing API key".

(** ** Requests used in the examples *)

Definition request_of (m : method) (url : string) (path : list string)
  (query : list (string * qval)) (key : option string) (body : value)
  : request :=
  {| req_method := m; req_originalUrl := url; req_path := path;
     req_query := query; req_api_key := key; req_body := Parsed body |}.

Definition products_path : list string := ["api"; "products"].
Definition search_path : list string := products_path ++ ["search"].
Definition stats_path : list string := products_path ++ ["stats"].

(** A create request whose body carries padding, capitals, and two fields
    the API does not know. *)
Definition lamp_body : value :=
  VObj [ ("id", VStr "chosen-by-client");
         ("name", VStr "  Desk Lamp ");
         ("description", VStr "LED lamp");
         ("price", VNum 25);
         ("category", VStr " Home ");
         ("inStock", VBool true);
         ("colour", VStr "red") ].

Definition create_lamp : request :=
  request_of POST "/api/products" products_path [] (Some secret_api_key)
    lamp_body.

Definition lamp : obj :=
  product_literal "uuid-1" "Desk Lamp" "LED lamp" (VNum 25) "home"
    (VBool true).

(** An update of the second seed record: a new price, the rest retyped. *)
Definition smartphone_body : value :=
  VObj [ ("name", VStr "Smartphone");
         ("description", VStr "Latest model with 128GB storage");
         ("price", VNum 750);
         ("category", VStr "Electronics");
         ("inStock", VBool true) ].

Definition update_smartphone : request :=
  request_of PUT "/api/products/2" (products_path ++ ["2"]) []
    (Some secret_api_key) smartphone_body.

Definition cheaper_smartphone : obj :=
  product_literal "2" "Smartphone" "Latest model with 128GB storage"
    (VNum 750) "electronics" (VBool true).

Definition created_response (newProduct : obj) : response :=
  json 201
    (VObj [ ("message", VStr "Product created successfully");
            ("product", VObj newProduct) ]).

Definition updated_response (updatedProduct : obj) : response :=
  json 200
    (VObj [ ("message", VStr "Product updated successfully");
            ("product", VObj updatedProduct) ]).

(** A valid create request whose category is the name of a property
    that every object inherits. *)
Definition kit_body : value :=
  VObj [ ("name", VStr "Starter Kit");
         ("description", VStr "Building blocks");
         ("price", VNum 30);
         ("category", VStr "Constructor");
         ("inStock", VBool true) ].

Definition create_kit : request :=
  request_of POST "/api/products" products_path [] (Some secret_api_key)
    kit_body.

Definition kit : obj :=
  product_literal "uuid-2" "Starter Kit" "Building blocks" (VNum 30)
    "constructor" (VBool true).

Definition get_stats : request :=
  request_of GET "/api/products/stats" stats_path [] None (VObj []).

Definition get_list (url : string) (query : list (string * qval))
  : request :=
  request_of GET url products_path query None (VObj []).

(** A field of the response to a request, when there is one. *)
Definition answer (field : response -> value)
  (r : option (response * list obj)) : option value :=
  option_map (fun x => field (fst x)) r.

(** The entries of [categoryCounts] are numbers or texts. *)
Definition count_entry (kv : string * value) : Prop :=
  match snd kv with
  | VNum _ | VStr _ => True
  | _ => False
  end.

(** [counts] holds, for every category that is not an inherited property
    name, the number of records of [seen] that carry it. *)
Definition counts_agree (counts : obj) (seen : list obj) : Prop :=
  forall c,
    object_prototype_text c = None ->
    match own counts c with
    | None => category_count c seen = 0%nat
    | Some (VNum n) =>
        (n == inject_Z (Z.of_nat (category_count c seen)))%Q
        /\ (0 < category_count c seen)%nat
    | Some _ => False
    end.

(** Page -1 with one record a page, and the second page of two. *)
Definition query_page_minus_one : list (string * qval) :=
  [("page", QStr "-1"); ("limit", QStr "1")].

Definition query_second_page : list (string * qval) :=
  [("page", QStr "2"); ("limit", QStr "2")].

(** A page just above [Number.MAX_SAFE_INTEGER], and a limit of 310
    digits: 1 followed by 309 zeros. *)
Definition query_unsafe_page : list (string * qval) :=
  [("page", QStr "9007199254740993")].

Fixpoint zeros (n : nat) : string :=
  match n with
  | O => EmptyString
  | S n => String "0" (zeros n)
  end.

Definition query_huge_limit : list (string * qval) :=
  [("limit", QStr (String "1" (zeros 309)))].


(** What the application makes of a handler's outcome. *)
Definition settle (products : list obj) (h : handled)
  : option (response * list obj) :=
  match h with
  | Ok (res, products') => Some (res, products')
  | Throw e => Some (errorHandler e, products)
  | Stuck => None
  end.

(** The route table with the parametric GET route moved in front of the
    two literal ones. *)
Definition routes_id_first : list route :=
  [ {| route_method := GET; route_path := api_products ++ [Param "id"];
       route_handler := GetProduct |};
    {| route_method := GET; route_path := api_products ++ [Lit "search"];
       route_handler := SearchProducts |};
    {| route_method := GET; route_path := api_products ++ [Lit "stats"];
       route_handler := ProductStats |} ].

(** ** Vocabulary of the further properties *)

(** The record carries the id. *)
Definition carries_id (id : string) (p : obj) : Prop := get p "id" = VStr id.

(** No two records of the store carry the same id. *)
Definition ids_unique (products : list obj) : Prop :=
  NoDup (map (fun p => get p "id") products).

(** The text fields of the record are as the writers leave them: name,
    description and category without white space at either end, the
    category in lower case. *)
Definition normalized (p : obj) : Prop :=
  exists id name description price category inStock,
    p = product_literal id name description price category inStock
    /\ trim name = name
    /\ trim description = description
    /\ trim category = category
    /\ toLowerCase category = category.

(** The path of one record, and the two last segments that the router
    gives to the search and statistics routes instead. *)
Definition item_path (id : string) : list string := products_path ++ [id].

Definition is_literal_segment (id : string) : bool :=
  String.eqb (toLowerCase id) "search" || String.eqb (toLowerCase id) "stats".

Definition deleted_response (deletedProduct : obj) : response :=
  json 200
    (VObj [ ("message", VStr "Product deleted successfully");
            ("product", VObj deletedProduct) ]).

Definition not_found_response (id : string) : response :=
  json 404 (error_body "NotFoundError" (not_found_message id) 404).

Definition validation_response (message : string) : response :=
  json 400 (error_body "ValidationError" message 400).

(** The statuses the application sends. *)
Definition known_statuses : list Z := [200; 201; 400; 401; 404; 500]%Z.

(** The record's category is [c] in lower case. *)
Definition has_category (c : string) (p : obj) : bool :=
  String.eqb (text_of (get p "category")) (toLowerCase c).

(** The record's inStock field is the boolean [b]. *)
Definition has_stock (b : bool) (p : obj) : bool :=
  strict_eq_bool (get p "inStock") b.

(** The query value is the text 'true'. *)
Definition asks_in_stock (v : qval) : bool :=
  match v with QStr s => String.eqb s "true" | _ => false end.

Definition price_of (p : obj) : Q :=
  match get p "price" with VNum q => q | _ => 0 end.

(** A field of the [priceRange] object of the statistics response. *)
Definition range_field (res : response) (k : string) : value :=
  match stats_field res "priceRange" with
  | VObj range => get range k
  | _ => VUndefined
  end.

(** The requests of the three writers, with the secret key. *)
Definition post_request (url : string) (query : list (string * qval))
  (body : value) : request :=
  request_of POST url products_path query (Some secret_api_key) body.

Definition put_request (url id : string) (query : list (string * qval))
  (body : value) : request :=
  request_of PUT url (item_path id) query (Some secret_api_key) body.

Definition delete_request (url id : string) (query : list (string * qval))
  (body : value) : request :=
  request_of DELETE url (item_path id) query (Some secret_api_key) body.

(** Requests on one record of the seed. *)
Definition delete_smartphone : request :=
  request_of DELETE "/api/products/2" (item_path "2") []
    (Some secret_api_key) (VObj []).

Definition get_smartphone : request :=
  request_of GET "/api/products/2" (item_path "2") [] None (VObj []).

Definition get_lamp : request :=
  request_of GET "/api/products/uuid-1" (item_path "uuid-1") [] None
    (VObj []).

(** An update whose body lacks a price and has a blank name. *)
Definition blank_body : obj :=
  [ ("name", VStr "   ");
    ("description", VStr "LED lamp");
    ("category", VStr "home");
    ("inStock", VBool true) ].

(* ================================================================== *)
(** * Facts about strings *)

Module JsStringFacts.

Lemma is_empty_true (s : string) : is_empty s = true <-> s = EmptyString.
Proof. destruct s; simpl; split; congruence. Qed.

Lemma is_empty_false (s : string) : is_empty s = false <-> s <> EmptyString.
Proof. destruct s; simpl; split; congruence. Qed.

Lemma length_zero_is_empty (s : string) :
  Nat.eqb (String.length s) 0 = is_empty s.
Proof. destruct s; reflexivity. Qed.

(** Lower-casing never makes or unmakes white space. *)
Lemma is_ws_lower_char (c : ascii) : is_ws (lower_char c) = is_ws c.
Proof.
  destruct c as [b0 b1 b2 b3 b4 b5 b6 b7];
    destruct b0, b1, b2, b3, b4, b5, b6, b7; reflexivity.
Qed.

Lemma lower_char_idempotent (c : ascii) :
  lower_char (lower_char c) = lower_char c.
Proof.
  destruct c as [b0 b1 b2 b3 b4 b5 b6 b7];
    destruct b0, b1, b2, b3, b4, b5, b6, b7; reflexivity.
Qed.

Lemma toLowerCase_empty (s : string) :
  toLowerCase s = EmptyString <-> s = EmptyString.
Proof. destruct s; simpl; split; congruence. Qed.

Lemma toLowerCase_idempotent (s : string) :
  toLowerCase (toLowerCase s) = toLowerCase s.
Proof.
  induction s; simpl; [reflexivity|].
  now rewrite lower_char_idempotent, IHs.
Qed.

Lemma trimStart_lower (s : string) :
  trimStart (toLowerCase s) = toLowerCase (trimStart s).
Proof.
  induction s as [|c r IH]; simpl; [reflexivity|].
  rewrite is_ws_lower_char. destruct (is_ws c); [exact IH | reflexivity].
Qed.

Lemma trimEnd_lower (s : string) :
  trimEnd (toLowerCase s) = toLowerCase (trimEnd s).
Proof.
  induction s as [|c r IH]; simpl; [reflexivity|].
  rewrite IH, is_ws_lower_char.
  destruct (trimEnd r); simpl; [destruct (is_ws c)|]; reflexivity.
Qed.

Lemma trim_lower (s : string) : trim (toLowerCase s) = toLowerCase (trim s).
Proof. unfold trim. now rewrite trimStart_lower, trimEnd_lower. Qed.

(** What [trimStart] leaves is empty or starts with a visible character. *)
Lemma trimStart_head (s : string) :
  trimStart s = EmptyString
  \/ exists c r, trimStart s = String c r /\ is_ws c = false.
Proof.
  induction s as [|c r IH]; simpl; [now left|].
  destruct (is_ws c) eqn:E; [exact IH|]. right. now exists c, r.
Qed.

Lemma trimEnd_visible_head (c : ascii) (r : string) :
  is_ws c = false -> exists r', trimEnd (String c r) = String c r'.
Proof.
  intros E. simpl. destruct (trimEnd r); [rewrite E|]; eauto.
Qed.

Lemma trimEnd_idempotent (s : string) : trimEnd (trimEnd s) = trimEnd s.
Proof.
  induction s as [|c r IH]; simpl; [reflexivity|].
  destruct (trimEnd r) as [|c' r'] eqn:E.
  - destruct (is_ws c) eqn:W; simpl; [reflexivity | now rewrite W].
  - simpl in *. now rewrite IH.
Qed.

Lemma trim_idempotent (s : string) : trim (trim s) = trim s.
Proof.
  unfold trim.
  destruct (trimStart_head s) as [E | (c & r & E & W)]; rewrite E.
  - reflexivity.
  - destruct (trimEnd_visible_head c r W) as [r' E'].
    rewrite E'. simpl trimStart. rewrite W, <- E'.
    apply trimEnd_idempotent.
Qed.

Lemma prefix_spec (t s : string) :
  prefix t s = true <-> exists post, s = (t ++ post)%string.
Proof.
  revert s; induction t as [|c t IH]; intros s.
  - split; [intros _; now exists s | destruct s; reflexivity].
  - destruct s as [|d s]; simpl;
      [split; [discriminate | intros [p H]; discriminate]|].
    destruct (ascii_dec c d) as [->|N].
    + rewrite IH. split; intros [p H]; exists p; simpl; congruence.
    + split; [discriminate | intros [p H]; simpl in H; congruence].
Qed.

(** [includes] finds exactly the contiguous occurrences. *)
Lemma includes_spec (s t : string) :
  includes s t = true
  <-> exists pre post, s = (pre ++ t ++ post)%string.
Proof.
  induction s as [|c s IH].
  - cbn [includes]. rewrite orb_false_r, prefix_spec. split.
    + intros [p H]. now exists EmptyString, p.
    + intros (pre & post & H). destruct pre; [simpl in H; eauto|discriminate].
  - cbn [includes]. rewrite orb_true_iff, prefix_spec, IH. split.
    + intros [[p H] | (pre & post & H)].
      * now exists EmptyString, p.
      * exists (String c pre), post. simpl. now rewrite H.
    + intros (pre & post & H). destruct pre as [|d pre].
      * left. now exists post.
      * right. simpl in H. injection H as _ H. now exists pre, post.
Qed.

End JsStringFacts.

(* ================================================================== *)
(** * Facts about validation *)

(** Case analysis on the five fields a middleware or handler reads from
    the body; the branches where a read throws are closed at once. *)
Ltac read_fields body :=
  destruct (get_prop body "name") as [?name|]; [|discriminate];
  destruct (get_prop body "description") as [?description|]; [|discriminate];
  destruct (get_prop body "price") as [?price|]; [|discriminate];
  destruct (get_prop body "category") as [?category|]; [|discriminate];
  destruct (get_prop body "inStock") as [?inStock|]; [|discriminate].

Section Validation.

Import JsStringFacts.

Lemma text_rule_violated_spec (v : value) :
  text_rule_violated v = negb (text_ok v).
Proof.
  destruct v as [| | b | q | s | l | o]; try reflexivity.
  - destruct b; reflexivity.
  - unfold text_rule_violated; simpl. destruct (Qeq_bool q 0); reflexivity.
  - unfold text_rule_violated; simpl.
    destruct s as [|c r]; [reflexivity|]. simpl negb at 1.
    cbv iota. rewrite length_zero_is_empty. now rewrite negb_involutive.
Qed.

Lemma price_rule_violated_spec (v : value) :
  price_rule_violated v = negb (price_ok v).
Proof. destruct v; reflexivity. Qed.

Lemma inStock_rule_violated_spec (v : value) :
  inStock_rule_violated v = negb (inStock_ok v).
Proof. destruct v; reflexivity. Qed.

(** The [errors] array holds the messages of the violated rules, in
    rule order. *)
Lemma validation_errors_spec (o : obj) :
  validation_errors (get o "name") (get o "description") (get o "price")
    (get o "category") (get o "inStock")
  = violations o.
Proof.
  unfold validation_errors, violations, rules.
  rewrite !text_rule_violated_spec, price_rule_violated_spec,
    inStock_rule_violated_spec.
  destruct (text_ok (get o "name")), (text_ok (get o "description")),
    (price_ok (get o "price")), (text_ok (get o "category")),
    (inStock_ok (get o "inStock")); reflexivity.
Qed.

Lemma validation_errors_nil (n d p c i : value) :
  validation_errors n d p c i = []
  <-> text_ok n = true /\ text_ok d = true /\ price_ok p = true
      /\ text_ok c = true /\ inStock_ok i = true.
Proof.
  unfold validation_errors.
  rewrite !text_rule_violated_spec, price_rule_violated_spec,
    inStock_rule_violated_spec.
  destruct (text_ok n), (text_ok d), (price_ok p), (text_ok c),
    (inStock_ok i); simpl; split; intros H;
    try discriminate; try reflexivity;
    try (repeat split; reflexivity);
    decompose [and] H; discriminate.
Qed.

Lemma text_ok_inv (v : value) :
  text_ok v = true -> exists s, v = VStr s /\ trim s <> EmptyString.
Proof.
  destruct v; try discriminate. simpl. intros H. eexists; split; eauto.
  apply is_empty_false. now destruct (is_empty (trim s)).
Qed.

Lemma price_ok_inv (v : value) :
  price_ok v = true -> exists q, v = VNum q /\ (0 <= q)%Q.
Proof.
  destruct v; try discriminate. simpl. intros H. eexists; split; eauto.
  now apply Qle_bool_iff.
Qed.

Lemma inStock_ok_inv (v : value) :
  inStock_ok v = true -> exists b, v = VBool b.
Proof. destruct v; try discriminate; eauto. Qed.

(** What a body that got through [validateProduct] looks like. *)
Lemma validateProduct_ok (req : request) :
  validateProduct req = Ok tt ->
  exists n d p c b,
    get_prop (body_value req) "name" = Some (VStr n)
    /\ get_prop (body_value req) "description" = Some (VStr d)
    /\ get_prop (body_value req) "price" = Some (VNum p)
    /\ get_prop (body_value req) "category" = Some (VStr c)
    /\ get_prop (body_value req) "inStock" = Some (VBool b)
    /\ trim n <> EmptyString /\ trim d <> EmptyString
    /\ (0 <= p)%Q /\ trim c <> EmptyString.
Proof.
  unfold validateProduct. read_fields (body_value req).
  destruct (validation_errors name description price category inStock) eqn:E;
    [|discriminate].
  intros _. apply validation_errors_nil in E.
  destruct E as (Hn & Hd & Hp & Hc & Hi).
  apply text_ok_inv in Hn, Hd, Hc.
  apply price_ok_inv in Hp. apply inStock_ok_inv in Hi.
  destruct Hn as (n & -> & ?), Hd as (d & -> & ?), Hc as (c & -> & ?),
    Hp as (p & -> & ?), Hi as (b & ->).
  exists n, d, p, c, b. tauto.
Qed.

Lemma build_product_validated (id : string) (body : value) n d p c b :
  get_prop body "name" = Some (VStr n) ->
  get_prop body "description" = Some (VStr d) ->
  get_prop body "price" = Some p ->
  get_prop body "category" = Some (VStr c) ->
  get_prop body "inStock" = Some b ->
  build_product id body
  = Ok (product_literal id (trim n) (trim d) p (toLowerCase (trim c)) b).
Proof.
  intros Hn Hd Hp Hc Hb. unfold build_product.
  now rewrite Hn, Hd, Hp, Hc, Hb.
Qed.

(** Whatever [build_product] returns is the six-field literal. *)
Lemma build_product_shape (id : string) (body : value) (o : obj) :
  build_product id body = Ok o ->
  exists n d p c b,
    get_prop body "name" = Some (VStr n)
    /\ get_prop body "description" = Some (VStr d)
    /\ get_prop body "price" = Some p
    /\ get_prop body "category" = Some (VStr c)
    /\ get_prop body "inStock" = Some b
    /\ o = product_literal id (trim n) (trim d) p (toLowerCase (trim c)) b.
Proof.
  unfold build_product. read_fields body.
  destruct name; try discriminate. destruct description; try discriminate.
  destruct category; try discriminate. simpl. intros [= <-].
  repeat eexists.
Qed.

Lemma well_formed_built id n d p c b :
  trim n <> EmptyString -> trim d <> EmptyString -> (0 <= p)%Q ->
  trim c <> EmptyString ->
  well_formed
    (product_literal id (trim n) (trim d) (VNum p) (toLowerCase (trim c))
       (VBool b)).
Proof.
  intros Hn Hd Hp Hc.
  exists id, (trim n), (trim d), p, (toLowerCase (trim c)), b.
  rewrite !trim_idempotent, trim_lower, trim_idempotent, toLowerCase_empty.
  tauto.
Qed.

Lemma trim_nonempty (s : string) :
  trim s <> EmptyString -> s <> EmptyString.
Proof. intros H ->. now apply H. Qed.

Lemma well_formed_rules (o : obj) :
  well_formed o -> satisfies_field_rules o /\ passes_validation o.
Proof.
  intros (id & n & d & p & c & b & -> & Hn & Hd & Hp & Hc). split.
  - repeat split; simpl; eexists; split;
      eauto using trim_nonempty.
  - unfold passes_validation. apply validation_errors_nil. simpl.
    apply is_empty_false in Hn, Hd, Hc. rewrite Hn, Hd, Hc.
    repeat split. now apply Qle_bool_iff.
Qed.

Lemma well_formed_keys (o : obj) :
  well_formed o -> map fst o = product_keys.
Proof. now intros (id & n & d & p & c & b & -> & _). Qed.

End Validation.

(* ================================================================== *)
(** * Facts about the handlers and the store *)

Section Store.

Lemma bind_Ok {A B : Type} (m : result A) (k : A -> result B) (b : B) :
  bind m k = Ok b -> exists a, m = Ok a /\ k a = Ok b.
Proof. destruct m; simpl; try discriminate; eauto. Qed.

Lemma Forall_set_nth {A : Type} (P : A -> Prop) (l : list A) i x :
  Forall P l -> P x -> Forall P (set_nth l i x).
Proof.
  intros H Hx; revert i; induction H; intros [|i]; simpl; auto.
Qed.

Lemma Forall_remove_nth {A : Type} (P : A -> Prop) (l : list A) i :
  Forall P l -> Forall P (remove_nth l i).
Proof.
  intros H; revert i; induction H; intros [|i]; simpl; auto.
Qed.

Lemma length_set_nth {A : Type} (l : list A) i x :
  List.length (set_nth l i x) = List.length l.
Proof. revert i; induction l; intros [|i]; simpl; auto. Qed.

(** The read-only handlers hand the store back as they got it. *)
Lemma listHandler_store products req res products' :
  listHandler products req = Ok (res, products') -> products' = products.
Proof.
  unfold listHandler. intros H.
  apply bind_Ok in H as (f & _ & H). now injection H.
Qed.

Lemma searchHandler_store products req res products' :
  searchHandler products req = Ok (res, products') -> products' = products.
Proof.
  unfold searchHandler. intros H.
  destruct (query_get (req_query req) "q"); [|discriminate].
  destruct (negb (q_truthy q)); [discriminate|].
  apply bind_Ok in H as (f & _ & H). now injection H.
Qed.

Lemma statsHandler_store products res products' :
  statsHandler products = Ok (res, products') -> products' = products.
Proof.
  unfold statsHandler. intros H.
  apply bind_Ok in H as (counts & _ & H).
  apply bind_Ok in H as (prices & _ & H).
  destruct (price_stats prices) as [[a mn] mx]. now injection H.
Qed.

Lemma getHandler_store products id res products' :
  getHandler products id = Ok (res, products') -> products' = products.
Proof.
  unfold getHandler. destruct (find (has_id id) products); [|discriminate].
  now intros [= _ <-].
Qed.

(** Every route keeps the records well formed. *)
Lemma run_preserves h uuid products req params res products' :
  Forall well_formed products ->
  run h uuid products req params = Ok (res, products') ->
  Forall well_formed products'.
Proof.
  intros WF H. destruct h; simpl in H.
  - injection H as _ <-. exact WF.
  - apply listHandler_store in H. now subst.
  - apply searchHandler_store in H. now subst.
  - apply statsHandler_store in H. now subst.
  - apply getHandler_store in H. now subst.
  - apply bind_Ok in H as (_ & _ & H).
    apply bind_Ok in H as ([] & V & H).
    apply validateProduct_ok in V
      as (n & d & p & c & b & Hn & Hd & Hp & Hc & Hb & ? & ? & ? & ?).
    unfold createHandler in H.
    rewrite (build_product_validated _ _ _ _ _ _ _ Hn Hd Hp Hc Hb) in H.
    simpl in H. injection H as _ <-.
    apply Forall_app; split; [exact WF|].
    constructor; [|constructor]. now apply well_formed_built.
  - apply bind_Ok in H as (_ & _ & H).
    apply bind_Ok in H as ([] & V & H).
    apply validateProduct_ok in V
      as (n & d & p & c & b & Hn & Hd & Hp & Hc & Hb & ? & ? & ? & ?).
    unfold updateHandler in H.
    destruct (findIndex (has_id (param params "id")) products);
      [|discriminate].
    rewrite (build_product_validated _ _ _ _ _ _ _ Hn Hd Hp Hc Hb) in H.
    simpl in H. injection H as _ <-.
    apply Forall_set_nth; [exact WF|]. now apply well_formed_built.
  - apply bind_Ok in H as (_ & _ & H).
    unfold deleteHandler in H.
    destruct (findIndex (has_id (param params "id")) products);
      [|discriminate].
    injection H as _ <-. now apply Forall_remove_nth.
Qed.

Lemma app_preserves uuid products req res products' :
  Forall well_formed products ->
  app uuid products req = Some (res, products') ->
  Forall well_formed products'.
Proof.
  intros WF. unfold app.
  destruct (req_body req); [now intros [= _ <-]|].
  destruct (find_route routes (req_method req) (req_path req))
    as [[h params]|]; [|now intros [= _ <-]].
  destruct (run h uuid products req params) as [[r s]| |] eqn:R;
    [|now intros [= _ <-]|discriminate].
  intros [= _ <-]. eapply run_preserves; eauto.
Qed.

Lemma seed_well_formed : Forall well_formed seed.
Proof.
  repeat constructor;
    (eexists _, _, _, _, _, _; split; [reflexivity|]);
    repeat split; try discriminate; vm_compute; discriminate.
Qed.

(** The invariant behind the claims about stored records. *)
Lemma reachable_well_formed products :
  reachable products -> Forall well_formed products.
Proof.
  induction 1 as [|products uuid req res products' _ IH H].
  - exact seed_well_formed.
  - eapply app_preserves; eauto.
Qed.

End Store.

(* ================================================================== *)
(** * The store invariant *)

(** C1.  Every record of every reachable store (the seed, and whatever
    any sequence of create, update, delete and other requests leaves)
    satisfies the field rules: name, description and category are
    non-empty strings, price is a number that is at least 0, inStock is a
    boolean; and the record would itself pass [validateProduct]. *)
Theorem store_satisfies_field_rules (products : list obj) :
  reachable products ->
  Forall (fun o => satisfies_field_rules o /\ passes_validation o) products.
Proof.
  intros R. apply reachable_well_formed in R.
  eapply Forall_impl; [|exact R]. apply well_formed_rules.
Qed.

Lemma lamp_store_reachable : reachable (seed ++ [lamp]).
Proof.
  apply (reachable_step seed "uuid-1" create_lamp (created_response lamp)).
  - apply reachable_seed.
  - reflexivity.
Defined.

Lemma store_satisfies_field_rules_witness :
  Forall (fun o => satisfies_field_rules o /\ passes_validation o)
    (seed ++ [lamp]).
Proof.
  apply (store_satisfies_field_rules (seed ++ [lamp])).
  exact lamp_store_reachable.
Defined.

(** C10.  Every stored record has exactly the six fields id, name,
    description, price, category and inStock, in that order; the object
    both writers build has them whatever the body holds, and a body field
    under any other name changes nothing. *)
Theorem stored_records_have_six_fields (products : list obj) :
  reachable products ->
  Forall (fun o => map fst o = product_keys) products
  /\ (forall id body o,
         build_product id body = Ok o -> map fst o = product_keys)
  /\ (forall id k v body,
         existsb (String.eqb k)
           ["name"; "description"; "price"; "category"; "inStock"] = false ->
         build_product id (VObj ((k, v) :: body))
         = build_product id (VObj body)).
Proof.
  intros R. split; [|split].
  - apply reachable_well_formed in R.
    eapply Forall_impl; [|exact R]. apply well_formed_keys.
  - intros id body o H.
    apply build_product_shape in H as (n & d & p & c & b & _ & _ & _ & _ & _ & ->).
    reflexivity.
  - intros id k v body H. simpl in H.
    repeat (apply orb_false_elim in H as [? H]).
    unfold build_product, get_prop; cbn [get].
    rewrite !(String.eqb_sym _ k).
    repeat match goal with E : String.eqb k _ = false |- _ =>
      rewrite E; clear E end.
    reflexivity.
Qed.

Lemma stored_records_have_six_fields_witness :
  Forall (fun o => map fst o = product_keys) (seed ++ [lamp]).
Proof.
  exact (proj1 (stored_records_have_six_fields (seed ++ [lamp])
                  lamp_store_reachable)).
Defined.

(* ================================================================== *)
(** * Validation *)

(** C2.  For every candidate record, [validateProduct] passes when no rule
    is violated, and otherwise raises a ValidationError whose message is
    the messages of all violated rules joined by a comma and a space;
    each of the five rules contributes its message exactly when its own
    field violates it, whatever the other fields hold; the error responder
    turns the error into status 400 with that message. *)
Theorem validateProduct_reports_every_violation
  (m : method) (url : string) (path : list string)
  (query : list (string * qval)) (key : option string) (o : obj) :
  validateProduct (request_of m url path query key (VObj o))
  = match violations o with
    | [] => Ok tt
    | _ :: _ => Throw (ValidationError (join ", " (violations o)))
    end
  /\ (In name_message (violations o) <-> text_ok (get o "name") = false)
  /\ (In description_message (violations o)
      <-> text_ok (get o "description") = false)
  /\ (In price_message (violations o) <-> price_ok (get o "price") = false)
  /\ (In category_message (violations o)
      <-> text_ok (get o "category") = false)
  /\ (In inStock_message (violations o)
      <-> inStock_ok (get o "inStock") = false)
  /\ (forall message,
         errorHandler (ValidationError message)
         = json 400 (error_body "ValidationError" message 400)).
Proof.
  split.
  - unfold validateProduct, request_of, body_value; simpl.
    rewrite validation_errors_spec.
    destruct (violations o); reflexivity.
  - unfold violations, rules.
    destruct (text_ok (get o "name")), (text_ok (get o "description")),
      (price_ok (get o "price")), (text_ok (get o "category")),
      (inStock_ok (get o "inStock"));
      repeat split; intros H; try reflexivity; try discriminate;
      vm_compute in H |- *; intuition discriminate.
Qed.

(* ================================================================== *)
(** * Access control *)

Lemma authMiddleware_spec (req : request) :
  authMiddleware req
  = match req_method req with
    | GET => Ok tt
    | _ => if credential_ok (req_api_key req) then Ok tt
           else Throw (AuthenticationError authentication_message)
    end.
Proof.
  unfold authMiddleware, credential_ok.
  destruct (req_method req); try reflexivity;
    (destruct (req_api_key req) as [k|]; [|reflexivity];
     destruct (String.eqb_spec k secret_api_key) as [->|N];
     [reflexivity | destruct k; reflexivity]).
Qed.

(** Every route of a method other than GET starts with [authMiddleware]. *)
Lemma run_unauthenticated h uuid products req params :
  req_method req <> GET ->
  find_route routes (req_method req) (req_path req) = Some (h, params) ->
  authMiddleware req = Throw (AuthenticationError authentication_message) ->
  run h uuid products req params
  = Throw (AuthenticationError authentication_message).
Proof.
  intros NG F A.
  assert (h = CreateProduct \/ h = UpdateProduct \/ h = DeleteProduct)
    as [-> | [-> | ->]].
  { destruct (req_method req) eqn:M; try congruence;
      cbn [find_route routes route_method method_eqb method_name String.eqb
             Ascii.eqb Bool.eqb route_path route_handler] in F;
      repeat match type of F with
        | context [match match_path ?p ?l with _ => _ end] =>
            destruct (match_path p l)
        end; try discriminate; injection F as <- _; auto. }
  all: simpl; now rewrite A.
Qed.

(** C4.  [authMiddleware] lets every GET request pass whatever the
    credential; for any other method it passes exactly when the
    [x-api-key] header equals the shared secret, and raises
    AuthenticationError otherwise, which the responder sends as 401.  A
    request of another method with an absent or wrong credential leaves
    the store as it was; if a route takes it, the response is that 401. *)
Theorem access_control (uuid : string) (products : list obj) (req : request) :
  (req_method req = GET -> authMiddleware req = Ok tt)
  /\ (req_method req <> GET ->
      (authMiddleware req = Ok tt
       <-> req_api_key req = Some secret_api_key)
      /\ (req_api_key req <> Some secret_api_key ->
          authMiddleware req
          = Throw (AuthenticationError authentication_message)
          /\ app uuid products req
             = Some
                 (match req_body req with
                  | Malformed => errorHandler BodySyntaxError
                  | Parsed _ =>
                      match find_route routes (req_method req) (req_path req)
                      with
                      | Some _ =>
                          errorHandler
                            (AuthenticationError authentication_message)
                      | None => notFoundHandler req
                      end
                  end,
                  products)))
  /\ errorHandler (AuthenticationError authentication_message)
     = json 401
         (error_body "AuthenticationError" authentication_message 401).
Proof.
  assert (K : credential_ok (req_api_key req) = true
              <-> req_api_key req = Some secret_api_key).
  { unfold credential_ok. destruct (req_api_key req) as [k|].
    - rewrite String.eqb_eq. split; congruence.
    - split; discriminate. }
  split; [|split; [|reflexivity]].
  - intros M. now rewrite authMiddleware_spec, M.
  - intros NG.
    assert (A : authMiddleware req
                = if credential_ok (req_api_key req) then Ok tt
                  else Throw (AuthenticationError authentication_message)).
    { rewrite authMiddleware_spec. now destruct (req_method req). }
    split.
    + rewrite A, <- K. destruct (credential_ok (req_api_key req));
        split; congruence.
    + intros Bad.
      assert (C : credential_ok (req_api_key req) = false).
      { destruct (credential_ok (req_api_key req)); [|reflexivity].
        exfalso. now apply Bad, K. }
      rewrite C in A. split; [exact A|].
      unfold app. destruct (req_body req); [reflexivity|].
      destruct (find_route routes (req_method req) (req_path req))
        as [[h params]|] eqn:F; [|reflexivity].
      now rewrite (run_unauthenticated h uuid products req params NG F A).
Qed.

(* ================================================================== *)
(** * Create and update *)

(** C7.  A create request that passes access control and validation is
    answered with status 201 and the new record, whose id is the generated
    one (whatever the body holds under id), whose name and description are
    the trimmed input, whose category is the trimmed and lower-cased input
    and whose price and inStock are the input values themselves; the record
    is added at the end of the store, which grows by exactly one. *)
Theorem create_appends_sanitized_record
  (uuid : string) (products : list obj) (url : string)
  (query : list (string * qval)) (body : value) :
  let req :=
    request_of POST url products_path query (Some secret_api_key) body in
  validateProduct req = Ok tt ->
  exists name description price category inStock,
    get_prop body "name" = Some (VStr name)
    /\ get_prop body "description" = Some (VStr description)
    /\ get_prop body "price" = Some price
    /\ get_prop body "category" = Some (VStr category)
    /\ get_prop body "inStock" = Some inStock
    /\ let newProduct :=
         product_literal uuid (trim name) (trim description) price
           (toLowerCase (trim category)) inStock in
       app uuid products req
       = Some (created_response newProduct, products ++ [newProduct])
       /\ get newProduct "id" = VStr uuid
       /\ List.length (products ++ [newProduct])
          = S (List.length products).
Proof.
  intros req V.
  destruct (validateProduct_ok req V)
    as (n & d & p & c & b & Hn & Hd & Hp & Hc & Hb & _).
  change (body_value req) with body in *.
  exists n, d, (VNum p), c, (VBool b). repeat (split; [assumption|]).
  cbv zeta. split; [|split; [reflexivity|]].
  - unfold app. change (req_body req) with (Parsed body). cbv iota.
    change (find_route routes (req_method req) (req_path req))
      with (Some (CreateProduct, @nil (string * string))).
    cbv iota. unfold run. rewrite V.
    change (authMiddleware req) with (Ok tt). cbn [bind].
    unfold createHandler. change (body_value req) with body.
    now rewrite (build_product_validated _ _ _ _ _ _ _ Hn Hd Hp Hc Hb).
  - rewrite length_app. simpl. lia.
Qed.

Lemma create_appends_sanitized_record_witness :
  app "uuid-1" seed create_lamp
  = Some (created_response lamp, seed ++ [lamp]).
Proof.
  destruct (create_appends_sanitized_record "uuid-1" seed "/api/products"
              [] lamp_body eq_refl)
    as (n & d & p & c & b & Hn & Hd & Hp & Hc & Hb & H & _).
  injection Hn as <-. injection Hd as <-. injection Hp as <-.
  injection Hc as <-. injection Hb as <-. exact H.
Defined.

Lemma findIndex_Some {A : Type} (f : A -> bool) (l : list A) (i : nat) :
  findIndex f l = Some i ->
  exists x, nth_error l i = Some x /\ f x = true.
Proof.
  revert i; induction l as [|y l IH]; intros i; simpl; [discriminate|].
  destruct (f y) eqn:E.
  - intros [= <-]. now exists y.
  - destruct (findIndex f l) as [j|]; [|discriminate].
    intros [= <-]. exact (IH j eq_refl).
Qed.

Lemma findIndex_None {A : Type} (f : A -> bool) (l : list A) :
  findIndex f l = None <-> forall x, In x l -> f x = false.
Proof.
  induction l as [|y l IH]; simpl.
  - split; [intros _ x [] | reflexivity].
  - destruct (f y) eqn:E.
    + split; [discriminate|]. intros H. specialize (H y (or_introl eq_refl)).
      congruence.
    + destruct (findIndex f l).
      * split; [discriminate|]. intros H.
        assert (Some n = None :> option nat); [|discriminate].
        apply IH. intros x Hx. apply H. now right.
      * split; [|reflexivity]. intros _ x [<-|Hx]; [exact E|].
        now apply (proj1 IH).
Qed.

Lemma nth_error_set_nth_same {A : Type} (l : list A) i x y :
  nth_error l i = Some y -> nth_error (set_nth l i x) i = Some x.
Proof.
  revert i; induction l; intros [|i]; simpl; try discriminate; auto.
Qed.

Lemma nth_error_set_nth_other {A : Type} (l : list A) i j x :
  j <> i -> nth_error (set_nth l i x) j = nth_error l j.
Proof.
  revert i j; induction l; intros [|i] [|j] N; simpl; auto; try congruence.
Qed.

Lemma has_id_true (id : string) (p : obj) :
  has_id id p = true <-> get p "id" = VStr id.
Proof.
  unfold has_id, strict_eq_str. destruct (get p "id"); try (split; congruence).
  rewrite String.eqb_eq. split; congruence.
Qed.

Lemma has_id_false (id : string) (p : obj) :
  has_id id p = false <-> get p "id" <> VStr id.
Proof.
  rewrite <- has_id_true. destruct (has_id id p); split; congruence.
Qed.

(** C8.  A PUT that passes access control and validation, for an id some
    record carries: the first such record is replaced where it stands by
    the record built from the body, which keeps that id; every other
    position keeps its record and the store keeps its length; the response
    is 200 with the new record.  For an id no record carries, the response
    is the 404 NotFoundError and the store is the one before. *)
Theorem update_replaces_in_place
  (uuid : string) (products : list obj) (url id : string)
  (query : list (string * qval)) (body : value) :
  let req :=
    request_of PUT url (products_path ++ [id]) query (Some secret_api_key)
      body in
  validateProduct req = Ok tt ->
  exists name description price category inStock,
    get_prop body "name" = Some (VStr name)
    /\ get_prop body "description" = Some (VStr description)
    /\ get_prop body "price" = Some price
    /\ get_prop body "category" = Some (VStr category)
    /\ get_prop body "inStock" = Some inStock
    /\ let updated :=
         product_literal id (trim name) (trim description) price
           (toLowerCase (trim category)) inStock in
       ((exists p, In p products /\ get p "id" = VStr id) ->
        exists i old,
          nth_error products i = Some old
          /\ get old "id" = VStr id
          /\ get updated "id" = VStr id
          /\ app uuid products req
             = Some (updated_response updated, set_nth products i updated)
          /\ nth_error (set_nth products i updated) i = Some updated
          /\ (forall j, j <> i ->
                nth_error (set_nth products i updated) j
                = nth_error products j)
          /\ List.length (set_nth products i updated)
             = List.length products)
       /\ ((forall p, In p products -> get p "id" <> VStr id) ->
           app uuid products req
           = Some (json 404
                     (error_body "NotFoundError" (not_found_message id) 404),
                   products)).
Proof.
  intros req V.
  destruct (validateProduct_ok req V)
    as (n & d & p & c & b & Hn & Hd & Hp & Hc & Hb & _).
  change (body_value req) with body in *.
  exists n, d, (VNum p), c, (VBool b). repeat (split; [assumption|]).
  cbv zeta.
  assert (R : app uuid products req
              = settle products (updateHandler products id req)).
  { unfold app. change (req_body req) with (Parsed body). cbv iota.
    change (find_route routes (req_method req) (req_path req))
      with (Some (UpdateProduct, [("id", id)])).
    cbv iota. unfold run. rewrite V.
    change (authMiddleware req) with (Ok tt). cbn [bind].
    change (param [("id", id)] "id") with id.
    unfold settle. now destruct (updateHandler products id req) as [[? ?]| |]. }
  rewrite R. unfold updateHandler. change (body_value req) with body.
  rewrite (build_product_validated _ _ _ _ _ _ _ Hn Hd Hp Hc Hb).
  split.
  - intros (q & Hq & Hid).
    destruct (findIndex (has_id id) products) as [i|] eqn:F.
    + destruct (findIndex_Some _ _ _ F) as (old & Hold & Hh).
      exists i, old. split; [exact Hold|].
      split; [now apply has_id_true|].
      split; [|split; [reflexivity|]]; [reflexivity|].
      split; [eapply nth_error_set_nth_same; eauto|].
      split; [intros j N; now apply nth_error_set_nth_other|].
      apply length_set_nth.
    + exfalso. apply has_id_true in Hid.
      rewrite (proj1 (findIndex_None _ _) F q Hq) in Hid. discriminate.
  - intros H.
    assert (F : findIndex (has_id id) products = None).
    { apply findIndex_None. intros x Hx. apply has_id_false. now apply H. }
    now rewrite F.
Qed.

Lemma update_replaces_in_place_witness :
  app "unused" seed update_smartphone
  = Some (updated_response cheaper_smartphone,
          [seed_laptop; cheaper_smartphone; seed_coffee_maker]).
Proof.
  destruct (update_replaces_in_place "unused" seed "/api/products/2" "2" []
              smartphone_body eq_refl)
    as (n & d & p & c & b & Hn & Hd & Hp & Hc & Hb & H & _).
  injection Hn as <-. injection Hd as <-. injection Hp as <-.
  injection Hc as <-. injection Hb as <-.
  destruct H as (i & old & Hi & Hid & _ & H & _).
  - exists seed_smartphone. split; [right; left|]; reflexivity.
  - destruct i as [|[|[|i]]]; simpl in Hi; try discriminate;
      injection Hi as <-; try discriminate Hid.
    exact H.
Defined.

(* ================================================================== *)
(** * Route order *)

(** C9.  In the route table, a GET of /api/products/search is taken by
    the search route and a GET of /api/products/stats by the statistics
    route, so the application answers them with the search and statistics
    handlers; a search without q is the 400 ValidationError, not a 404 for
    the id 'search'.  The parametric pattern matches both paths too: with
    it registered first they would be id lookups. *)
Theorem literal_routes_come_first
  (uuid : string) (products : list obj) (url : string)
  (query : list (string * qval)) (key : option string) (body : value) :
  find_route routes GET search_path = Some (SearchProducts, [])
  /\ find_route routes GET stats_path = Some (ProductStats, [])
  /\ app uuid products (request_of GET url search_path query key body)
     = settle products
         (searchHandler products
            (request_of GET url search_path query key body))
  /\ app uuid products (request_of GET url stats_path query key body)
     = settle products (statsHandler products)
  /\ app uuid products (request_of GET url search_path [] key body)
     = Some (json 400
               (error_body "ValidationError" search_required_message 400),
             products)
  /\ find_route routes_id_first GET search_path
     = Some (GetProduct, [("id", "search")])
  /\ find_route routes_id_first GET stats_path
     = Some (GetProduct, [("id", "stats")]).
Proof.
  repeat split; reflexivity.
Qed.

(* ================================================================== *)
(** * Pagination *)

Lemma window_from_spec {A : Type} (l : list A) (i lo hi : Z) :
  window_from i l lo hi
  = firstn (Z.to_nat (hi - Z.max lo i)) (skipn (Z.to_nat (lo - i)) l).
Proof.
  revert i; induction l as [|x l IH]; intros i; simpl.
  - now rewrite skipn_nil, firstn_nil.
  - rewrite IH. destruct (Z.leb_spec lo i), (Z.ltb_spec i hi); simpl.
    + replace (Z.to_nat (lo - i)) with 0%nat by lia.
      replace (Z.to_nat (lo - (i + 1))) with 0%nat by lia.
      replace (Z.to_nat (hi - Z.max lo i))
        with (S (Z.to_nat (hi - Z.max lo (i + 1)))) by lia.
      reflexivity.
    + replace (Z.to_nat (hi - Z.max lo i)) with 0%nat by lia.
      replace (Z.to_nat (hi - Z.max lo (i + 1))) with 0%nat by lia.
      reflexivity.
    + replace (Z.to_nat (lo - i)) with (S (Z.to_nat (lo - (i + 1)))) by lia.
      replace (Z.max lo (i + 1)) with (Z.max lo i) by lia.
      reflexivity.
    + replace (Z.to_nat (lo - i)) with (S (Z.to_nat (lo - (i + 1)))) by lia.
      replace (Z.max lo (i + 1)) with (Z.max lo i) by lia.
      reflexivity.
Qed.

(** With bounds that are not negative, [slice] takes the positions
    between them. *)
Lemma slice_window {A : Type} (l : list A) (a b : Z) :
  (0 <= a)%Z -> (0 <= b)%Z -> slice l a b = window l a b.
Proof.
  intros Ha Hb. unfold window. rewrite window_from_spec.
  unfold slice, relative_index.
  destruct (Z.ltb_spec a 0), (Z.ltb_spec b 0); try lia.
  set (len := Z.of_nat (List.length l)).
  replace (Z.max a 0) with a by lia. replace (a - 0)%Z with a by lia.
  destruct (Z.le_gt_cases len a) as [Far | Near].
  - rewrite !skipn_all2 by (subst len; lia). now rewrite !firstn_nil.
  - replace (Z.min a len) with a by lia.
    destruct (Z.le_gt_cases b len) as [In | Out].
    + now replace (Z.min b len) with b by lia.
    + replace (Z.min b len) with len by lia.
      rewrite !firstn_all2; try reflexivity;
        rewrite length_skipn; subst len; lia.
Qed.

Lemma window_beyond {A : Type} (l : list A) (a b : Z) :
  (Z.of_nat (List.length l) <= a)%Z -> window l a b = [].
Proof.
  intros H. unfold window. rewrite window_from_spec.
  rewrite skipn_all2 by lia. apply firstn_nil.
Qed.

(** [ceil_div n d] is the least number of pages of [d] that hold [n]. *)
Lemma ceil_div_bounds (n d : Z) :
  (1 <= d)%Z ->
  ((ceil_div n d - 1) * d < n <= ceil_div n d * d)%Z.
Proof.
  intros Hd. unfold ceil_div.
  pose proof (Qle_ceiling (inject_Z n / inject_Z d)) as Up.
  pose proof (Qceiling_lt (inject_Z n / inject_Z d)) as Low.
  set (c := Qceiling (inject_Z n / inject_Z d)) in *. clearbody c.
  destruct d as [|p|p]; try lia.
  unfold Qle, Qlt, Qdiv, Qinv, Qmult, inject_Z in Up, Low.
  simpl in Up, Low. split; lia.
Qed.

(* ================================================================== *)
(** * Facts about binary64 numbers *)

(** [floor_log2 n d] is the binary exponent of [n/d]. *)
Lemma floor_log2_spec (n d : Z) :
  (0 < n)%Z -> (0 < d)%Z ->
  let L := floor_log2 n d in
  ((0 <= L -> d * 2 ^ L <= n < d * 2 ^ (L + 1))
   /\ (L < 0 -> d <= n * 2 ^ (- L) /\ n * 2 ^ (- L - 1) < d))%Z.
Proof.
  intros Hn Hd L.
  pose proof (Z.log2_spec n Hn) as [Ln Un].
  pose proof (Z.log2_spec d Hd) as [Ld Ud].
  pose proof (Z.log2_nonneg n). pose proof (Z.log2_nonneg d).
  set (a := Z.log2 n) in *. set (b := Z.log2 d) in *.
  unfold floor_log2 in L. fold a b in L.
  replace (Z.succ a) with (a + 1)%Z in * by lia.
  replace (Z.succ b) with (b + 1)%Z in * by lia.
  rewrite Z.pow_add_r in Un, Ud by lia. change (2 ^ 1)%Z with 2%Z in *.
  destruct (Z.leb_spec 0 (a - b)) as [K | K].
  - assert (Pa : (2 ^ a = 2 ^ b * 2 ^ (a - b))%Z).
    { rewrite <- Z.pow_add_r by lia. f_equal. lia. }
    assert (0 < 2 ^ b)%Z by (apply Z.pow_pos_nonneg; lia).
    assert (0 < 2 ^ (a - b))%Z by (apply Z.pow_pos_nonneg; lia).
    destruct (Z.leb_spec (d * 2 ^ (a - b)) n) as [T | T]; subst L.
    + split; [|lia]. intros _. split; [exact T|].
      rewrite Z.pow_add_r by lia. change (2 ^ 1)%Z with 2%Z. nia.
    + destruct (Z.eq_dec (a - b) 0) as [Z0 | NZ].
      * split; [lia|]. intros _. replace (- (a - b - 1))%Z with 1%Z by lia.
        replace (- (a - b - 1) - 1)%Z with 0%Z by lia.
        rewrite Z0 in *. change (2 ^ 0)%Z with 1%Z in *.
        change (2 ^ 1)%Z with 2%Z. nia.
      * split; [|lia]. intros _.
        replace (a - b - 1 + 1)%Z with (a - b)%Z by lia.
        split; [|exact T].
        assert (2 ^ (a - b) = 2 * 2 ^ (a - b - 1))%Z as P.
        { rewrite <- Z.pow_succ_r by lia. f_equal. lia. }
        assert (0 < 2 ^ (a - b - 1))%Z by (apply Z.pow_pos_nonneg; lia).
        nia.
  - assert (Pb : (2 ^ b = 2 ^ a * 2 ^ (- (a - b)))%Z).
    { rewrite <- Z.pow_add_r by lia. f_equal. lia. }
    assert (0 < 2 ^ a)%Z by (apply Z.pow_pos_nonneg; lia).
    assert (0 < 2 ^ (- (a - b)))%Z by (apply Z.pow_pos_nonneg; lia).
    destruct (Z.leb_spec d (n * 2 ^ (- (a - b)))) as [T | T]; subst L.
    + split; [lia|]. intros _. split; [exact T|].
      assert (2 ^ (- (a - b)) = 2 * 2 ^ (- (a - b) - 1))%Z as P.
      { rewrite <- Z.pow_succ_r by lia. f_equal. lia. }
      assert (0 < 2 ^ (- (a - b) - 1))%Z by (apply Z.pow_pos_nonneg; lia).
      nia.
    + split; [lia|]. intros _.
      replace (- (a - b - 1) - 1)%Z with (- (a - b))%Z by lia.
      split; [|exact T].
      replace (- (a - b - 1))%Z with (Z.succ (- (a - b)))%Z by lia.
      rewrite Z.pow_succ_r by lia. nia.
Qed.

Lemma round_half_even_cases (num den : Z) :
  (0 < den)%Z ->
  let m := round_half_even num den in
  ((m = num / den /\ 2 * (num mod den) <= den)
   \/ (m = num / den + 1 /\ den <= 2 * (num mod den)))%Z.
Proof.
  intros Hd. unfold round_half_even.
  destruct (Z.ltb_spec (2 * (num mod den)) den); [left; lia|].
  destruct (Z.ltb_spec den (2 * (num mod den))); [right; lia|].
  destruct (Z.even (num / den)); [left | right]; lia.
Qed.

Lemma round_half_even_exact (k den : Z) :
  (0 < den)%Z -> round_half_even (k * den) den = k.
Proof.
  intros Hd. unfold round_half_even.
  rewrite Z.mod_mul, Z.div_mul by lia.
  destruct (Z.ltb_spec (2 * 0) den); [reflexivity | lia].
Qed.

Lemma round_half_even_le (num den k : Z) :
  (0 < den)%Z -> (num <= k * den)%Z -> (round_half_even num den <= k)%Z.
Proof.
  intros Hd H.
  pose proof (Z.div_mod num den ltac:(lia)) as E.
  pose proof (Z.mod_pos_bound num den Hd) as B.
  destruct (round_half_even_cases num den Hd) as [[-> _] | [-> T]]; nia.
Qed.

Lemma round_half_even_ge (num den k : Z) :
  (0 < den)%Z -> (k * den <= num)%Z -> (k <= round_half_even num den)%Z.
Proof.
  intros Hd H.
  pose proof (Z.div_mod num den ltac:(lia)) as E.
  pose proof (Z.mod_pos_bound num den Hd) as B.
  destruct (round_half_even_cases num den Hd) as [[-> _] | [-> T]]; nia.
Qed.

Lemma round_half_even_gt (num den k : Z) :
  (0 < den)%Z -> (k * den < num)%Z -> (den < 2 * (num - k * den))%Z ->
  (k < round_half_even num den)%Z.
Proof.
  intros Hd H Far.
  pose proof (Z.div_mod num den ltac:(lia)) as E.
  pose proof (Z.mod_pos_bound num den Hd) as B.
  destruct (round_half_even_cases num den Hd) as [[-> T] | [-> T]]; nia.
Qed.

Lemma Qred_integer (z : Z) : Qred (inject_Z z) = inject_Z z.
Proof.
  unfold Qred, inject_Z.
  pose proof (Z.ggcd_gcd z 1) as G.
  pose proof (Z.ggcd_correct_divisors z 1) as D.
  destruct (Z.ggcd z 1) as [g [aa bb]]. simpl in G.
  rewrite Z.gcd_1_r in G. subst g. destruct D as [Da Db].
  assert (bb = 1%Z) as -> by lia. assert (aa = z) as -> by lia.
  reflexivity.
Qed.

Lemma Qred_scaled (z s : Z) :
  (0 < s)%Z -> Qred (z * s # Z.to_pos s) = inject_Z z.
Proof.
  intros Hs. rewrite <- (Qred_integer z). apply Qred_complete.
  unfold Qeq, inject_Z. simpl. rewrite Z2Pos.id by lia. lia.
Qed.

(** A positive integer whose binary exponent is at most 52 is a double. *)
Lemma round_magnitude_small (n : Z) :
  (0 < n)%Z -> (floor_log2 n 1 <= 52)%Z ->
  round_magnitude n 1 = Fin (inject_Z n).
Proof.
  intros Pos L52.
  pose proof (floor_log2_spec n 1 Pos ltac:(lia)) as [Up Down].
  cbv zeta in Up, Down. unfold round_magnitude.
  set (L := floor_log2 n 1) in *.
  assert (0 <= L)%Z as L0.
  { destruct (Z.lt_ge_cases L 0) as [Neg|]; [|assumption].
    destruct (Down Neg) as [_ D].
    assert (0 < 2 ^ (- L - 1))%Z by (apply Z.pow_pos_nonneg; lia). nia. }
  replace (Z.max (L - 52) (-1074)) with (L - 52)%Z by lia.
  destruct (Z.ltb_spec 0 (L - 52)); [lia|].
  assert (0 < 2 ^ (- (L - 52)))%Z by (apply Z.pow_pos_nonneg; lia).
  set (E := (2 ^ (- (L - 52)))%Z) in *.
  replace (n * E)%Z with ((n * E) * 1)%Z by lia.
  rewrite round_half_even_exact by lia. now rewrite Qred_scaled.
Qed.

Lemma round_magnitude_integer (n : Z) :
  (0 < n <= MAX_SAFE_INTEGER)%Z -> round_magnitude n 1 = Fin (inject_Z n).
Proof.
  unfold MAX_SAFE_INTEGER. intros [Pos Small].
  apply round_magnitude_small; [assumption|].
  pose proof (floor_log2_spec n 1 Pos ltac:(lia)) as [Up _].
  cbv zeta in Up. set (L := floor_log2 n 1) in *.
  destruct (Z.le_gt_cases L 52) as [|Big]; [assumption|].
  destruct (Up ltac:(lia)) as [U _].
  assert (2 ^ 53 <= 2 ^ L)%Z by (apply Z.pow_le_mono_r; lia). lia.
Qed.

(** An integer up to [Number.MAX_SAFE_INTEGER] in size is a double:
    rounding leaves it as it is. *)
Lemma round64_integer (q : Q) :
  Qden q = 1%positive -> (Z.abs (Qnum q) <= MAX_SAFE_INTEGER)%Z ->
  round64 q = Fin (inject_Z (Qnum q)).
Proof.
  destruct q as [n d]. simpl. intros -> Small. unfold round64. simpl.
  destruct n as [|p|p].
  - reflexivity.
  - apply round_magnitude_integer. lia.
  - rewrite round_magnitude_integer by lia. reflexivity.
Qed.

Lemma round64_safe (z : Z) :
  (Z.abs z <= MAX_SAFE_INTEGER)%Z -> round64 (inject_Z z) = Fin (inject_Z z).
Proof. intros S. now apply (round64_integer (inject_Z z)). Qed.

(** Rounding a positive integer never gives zero. *)
Lemma round_magnitude_truthy (n : Z) :
  (0 < n)%Z ->
  match round_magnitude n 1 with
  | Fin q => Qeq_bool q 0 = false
  | Inf _ => True
  | NaN => False
  end.
Proof.
  intros Pos.
  destruct (Z.le_gt_cases (floor_log2 n 1) 52) as [Small | Big].
  - rewrite round_magnitude_small by assumption.
    destruct n; try lia. reflexivity.
  - pose proof (floor_log2_spec n 1 Pos ltac:(lia)) as [Up _].
    cbv zeta in Up. unfold round_magnitude.
    set (L := floor_log2 n 1) in *.
    replace (Z.max (L - 52) (-1074)) with (L - 52)%Z by lia.
    destruct (Z.ltb_spec 0 (L - 52)); [|lia].
    destruct (2 ^ 1024 <=? _)%Z; [exact I|].
    destruct (Up ltac:(lia)) as [U _].
    assert (0 < 2 ^ (L - 52))%Z as PE by (apply Z.pow_pos_nonneg; lia).
    assert (2 ^ L = 2 ^ 52 * 2 ^ (L - 52))%Z as P.
    { rewrite <- Z.pow_add_r by lia. f_equal. lia. }
    assert (2 ^ 52 <= round_half_even n (1 * 2 ^ (L - 52)))%Z as M.
    { apply round_half_even_ge; lia. }
    set (m := round_half_even n (1 * 2 ^ (L - 52))) in *.
    assert (0 < m * 2 ^ (L - 52))%Z as V by nia.
    destruct (m * 2 ^ (L - 52))%Z; try lia. reflexivity.
Qed.

(** [parseInt(s) || d]: the default replaces NaN and 0 and nothing else. *)
Lemma or_default_parsed (z d : Z) :
  or_default (round64 (inject_Z z)) d
  = if (z =? 0)%Z then Fin (inject_Z d) else round64 (inject_Z z).
Proof.
  destruct z as [|p|p]; [reflexivity| |].
  - pose proof (round_magnitude_truthy (Zpos p) eq_refl) as T.
    change (round64 (inject_Z (Zpos p))) with (round_magnitude (Zpos p) 1).
    cbn [Z.eqb]. destruct (round_magnitude (Zpos p) 1) as [q| |];
      cbn [or_default]; [now rewrite T | reflexivity | contradiction].
  - pose proof (round_magnitude_truthy (Zpos p) eq_refl) as T.
    change (round64 (inject_Z (Zneg p)))
      with (num_neg (round_magnitude (Zpos p) 1)).
    cbn [Z.eqb]. destruct (round_magnitude (Zpos p) 1) as [q| |];
      cbn [or_default num_neg]; [| reflexivity | contradiction].
    replace (Qeq_bool (- q) 0) with false; [reflexivity|].
    symmetry. destruct (Qeq_bool (- q) 0) eqn:E; [|reflexivity].
    apply Qeq_bool_eq in E.
    assert (q == 0)%Q as Z by (rewrite <- (Qopp_involutive q), E; reflexivity).
    apply Qeq_eq_bool in Z. congruence.
Qed.

Lemma or_default_of_parameter (v : option qval) (d : Z) :
  or_default (parseInt v) d
  = match v with
    | None => Fin (inject_Z d)
    | Some text =>
        match parse_integer (qToString text) with
        | None => Fin (inject_Z d)
        | Some z =>
            if (z =? 0)%Z then Fin (inject_Z d) else round64 (inject_Z z)
        end
    end.
Proof.
  destruct v as [text|]; [|reflexivity].
  unfold parseInt, parseInt_string.
  destruct (parse_integer (qToString text)) as [z|]; [|reflexivity].
  apply or_default_parsed.
Qed.

Lemma Qtruncate_integer (z : Z) : Qtruncate (inject_Z z) = z.
Proof.
  unfold Qtruncate. destruct (Qle_bool 0 (inject_Z z)).
  - apply Qfloor_Z.
  - apply Qceiling_Z.
Qed.

(** With whole bounds, [slice] on numbers is [slice] on integers. *)
Lemma slice_numbers_integers {A : Type} (l : list A) (a b : Z) :
  slice_numbers l (Fin (inject_Z a)) (Fin (inject_Z b)) = slice l a b.
Proof.
  unfold slice_numbers, slice, relative_bound, ToIntegerOrInfinity.
  now rewrite !Qtruncate_integer.
Qed.

(** In the safe range the page bounds are computed exactly. *)
Lemma start_index_exact (p l : Z) :
  (1 <= p)%Z -> (1 <= l)%Z -> (p * l <= MAX_SAFE_INTEGER)%Z ->
  start_index (Fin (inject_Z p)) (Fin (inject_Z l))
  = Fin (inject_Z ((p - 1) * l)).
Proof.
  intros Hp Hl S. unfold start_index, num_sub, num_mul, num_neg, num_add.
  rewrite (round64_integer (Qplus (inject_Z p) (Qopp 1)));
    [|reflexivity|cbn [Qnum Qplus Qmult inject_Z Qopp Qden]; nia].
  rewrite round64_integer;
    [|reflexivity|cbn [Qnum Qplus Qmult inject_Z Qopp Qden]; nia].
  do 2 f_equal. cbn [Qnum Qplus Qmult inject_Z Qopp Qden]. lia.
Qed.

Lemma end_index_exact (p l : Z) :
  (1 <= p)%Z -> (1 <= l)%Z -> (p * l <= MAX_SAFE_INTEGER)%Z ->
  end_index (Fin (inject_Z p)) (Fin (inject_Z l)) = Fin (inject_Z (p * l)).
Proof.
  intros Hp Hl S. unfold end_index, num_mul.
  rewrite round64_integer;
    [|reflexivity|cbn [Qnum Qplus Qmult inject_Z Qopp Qden]; nia].
  reflexivity.
Qed.

Lemma Qceiling_unique (q : Q) (c : Z) :
  (inject_Z (c - 1) < q)%Q -> (q <= inject_Z c)%Q -> Qceiling q = c.
Proof.
  intros Low Up.
  pose proof (Qle_ceiling q) as U. pose proof (Qceiling_lt q) as L.
  assert (inject_Z (Qceiling q - 1) < inject_Z c)%Q as A by
    (eapply Qlt_le_trans; eassumption).
  assert (inject_Z (c - 1) < inject_Z (Qceiling q))%Q as B by
    (eapply Qlt_le_trans; eassumption).
  rewrite <- Zlt_Qlt in A, B. lia.
Qed.

(** Rounding the quotient of two safe integers to a double does not move
    it across a whole number: its ceiling is the exact one. *)
Lemma ceil_of_rounded_quotient (n d : Z) :
  (0 < n <= MAX_SAFE_INTEGER)%Z -> (0 < d <= MAX_SAFE_INTEGER)%Z ->
  Math_ceil (round_magnitude n d) = Fin (inject_Z (ceil_div n d)).
Proof.
  unfold MAX_SAFE_INTEGER. intros [Pn Sn] [Pd Sd].
  pose proof (floor_log2_spec n d Pn Pd) as [Up Down].
  pose proof (ceil_div_bounds n d ltac:(lia)) as [CL CU].
  cbv zeta in Up, Down. unfold round_magnitude.
  set (c := ceil_div n d) in *. set (L := floor_log2 n d) in *.
  assert (L <= 52)%Z as L52.
  { destruct (Z.le_gt_cases L 52) as [|Big]; [assumption|].
    destruct (Up ltac:(lia)) as [U _].
    assert (2 ^ 53 <= 2 ^ L)%Z by (apply Z.pow_le_mono_r; lia). nia. }
  assert (-54 <= L)%Z as L54.
  { destruct (Z.le_gt_cases (-54) L) as [|Small]; [assumption|].
    destruct (Down ltac:(lia)) as [_ D].
    assert (2 ^ 53 <= 2 ^ (- L - 1))%Z by (apply Z.pow_le_mono_r; lia). nia. }
  replace (Z.max (L - 52) (-1074)) with (L - 52)%Z by lia.
  destruct (Z.ltb_spec 0 (L - 52)); [lia|].
  cbn [Math_ceil]. do 2 f_equal.
  assert (0 < 2 ^ (- (L - 52)))%Z as PE by (apply Z.pow_pos_nonneg; lia).
  assert (d < 2 * 2 ^ (- (L - 52)))%Z as Wide.
  { rewrite <- Z.pow_succ_r by lia.
    replace (Z.succ (- (L - 52))) with (53 - L)%Z by lia.
    destruct (Z.lt_ge_cases L 0) as [Neg | NonNeg].
    - destruct (Down Neg) as [D _].
      replace (53 - L)%Z with (53 + - L)%Z by lia.
      rewrite Z.pow_add_r by lia.
      assert (0 < 2 ^ (- L))%Z by (apply Z.pow_pos_nonneg; lia). nia.
    - destruct (Up NonNeg) as [U _].
      assert (0 < 2 ^ L)%Z by (apply Z.pow_pos_nonneg; lia).
      assert (2 ^ 53 = 2 ^ L * 2 ^ (53 - L))%Z as P.
      { rewrite <- Z.pow_add_r by lia. f_equal. lia. }
      assert (0 < 2 ^ (53 - L))%Z by (apply Z.pow_pos_nonneg; lia). nia. }
  set (E := (2 ^ (- (L - 52)))%Z) in *.
  set (m := round_half_even (n * E) d).
  assert (m <= c * E)%Z as MU.
  { apply round_half_even_le; [lia|]. nia. }
  assert ((c - 1) * E < m)%Z as ML.
  { apply round_half_even_gt; [lia | nia | nia]. }
  rewrite (Qceiling_comp _ _ (Qred_correct _)).
  apply Qceiling_unique; unfold Qlt, Qle, inject_Z; simpl;
    rewrite Z2Pos.id by lia; lia.
Qed.

(** In the safe range, [Math.ceil(length / limit)] is the exact number of
    pages. *)
Lemma total_pages_exact (count l : Z) :
  (0 <= count <= MAX_SAFE_INTEGER)%Z -> (1 <= l <= MAX_SAFE_INTEGER)%Z ->
  total_pages count (Fin (inject_Z l)) = Fin (inject_Z (ceil_div count l)).
Proof.
  intros [C0 CS] [L1 LS]. unfold total_pages, num_div.
  destruct l as [|lp|lp]; try lia.
  change (Qeq_bool (inject_Z (Z.pos lp)) 0) with false. cbv iota.
  destruct count as [|cp|cp]; try lia.
  - reflexivity.
  - replace (round64 (inject_Z (Z.pos cp) / inject_Z (Z.pos lp)))
      with (round_magnitude (Z.pos cp) (Z.pos lp)).
    + apply ceil_of_rounded_quotient; lia.
    + unfold round64, Qdiv, Qinv, Qmult, inject_Z. simpl.
      now rewrite Pos.mul_1_r.
Qed.

(* ================================================================== *)
(** * Pagination: the claim *)

(** C3, as stated, fails on the seed store for page -1 and limit 1: both
    values are used as parsed; the positions from (page-1)*limit = -2 up
    to page*limit = -1 hold no record, yet the response lists the second
    seed record, because [slice] counts negative bounds from the end. *)
Lemma negative_page_lists_a_record :
  page_of query_page_minus_one = Fin (inject_Z (-1))
  /\ limit_of query_page_minus_one = Fin (inject_Z 1)
  /\ start_index (page_of query_page_minus_one)
       (limit_of query_page_minus_one) = Fin (inject_Z (-2))
  /\ end_index (page_of query_page_minus_one)
       (limit_of query_page_minus_one) = Fin (inject_Z (-1))
  /\ window seed (-2) (-1) = []
  /\ listed (paginate query_page_minus_one seed) = VProducts [seed_smartphone]
  /\ listed (paginate query_page_minus_one seed)
     <> VProducts (window seed (-2) (-1))
  /\ app "unused" seed
       (request_of GET "/api/products?page=-1&limit=1" products_path
          query_page_minus_one None (VObj []))
     = Some (paginate query_page_minus_one seed, seed).
Proof.
  split; [reflexivity|]. split; [reflexivity|]. split; [reflexivity|].
  split; [reflexivity|]. split; [reflexivity|]. split; [reflexivity|].
  split; [|reflexivity].
  intros H. vm_compute in H. discriminate H.
Qed.

(** C3, amended.  On every list request the response has status 200; the
    page is 1 and the limit 10 when the parameter is absent, when
    [parseInt] finds no number in it, or when the number is 0; any other
    parsed integer is used, as the double nearest to it, which is the
    integer itself up to [Number.MAX_SAFE_INTEGER] in size.  When page
    and limit are whole numbers that are at least 1 and page*limit is at
    most [Number.MAX_SAFE_INTEGER], the response lists the records of the
    filtered store at positions (page-1)*limit up to, not including,
    page*limit (none when the filtered store ends before), and totalPages
    is ceil(filteredCount / limit), the least number of pages that hold
    the filtered records. *)
Theorem pagination_for_positive_page_and_limit
  (query : list (string * qval)) (filtered : list obj) :
  let page := page_of query in
  let limit := limit_of query in
  let count := Z.of_nat (List.length filtered) in
  let res := paginate query filtered in
  page = match query_get query "page" with
         | None => Fin (inject_Z 1)
         | Some v =>
             match parse_integer (qToString v) with
             | None => Fin (inject_Z 1)
             | Some z =>
                 if (z =? 0)%Z then Fin (inject_Z 1)
                 else round64 (inject_Z z)
             end
         end
  /\ limit = match query_get query "limit" with
            | None => Fin (inject_Z 10)
            | Some v =>
                match parse_integer (qToString v) with
                | None => Fin (inject_Z 10)
                | Some z =>
                    if (z =? 0)%Z then Fin (inject_Z 10)
                    else round64 (inject_Z z)
                end
            end
  /\ (forall z : Z,
        (Z.abs z <= MAX_SAFE_INTEGER)%Z ->
        round64 (inject_Z z) = Fin (inject_Z z))
  /\ statusCode res = 200%Z
  /\ pagination_field res "currentPage" = num_json page
  /\ pagination_field res "productsPerPage" = num_json limit
  /\ pagination_field res "totalProducts" = VInt count
  /\ (forall p l : Z,
        page = Fin (inject_Z p) -> limit = Fin (inject_Z l) ->
        (1 <= p)%Z -> (1 <= l)%Z -> (p * l <= MAX_SAFE_INTEGER)%Z ->
        (count <= MAX_SAFE_INTEGER)%Z ->
        listed res = VProducts (window filtered ((p - 1) * l) (p * l))
        /\ ((count <= (p - 1) * l)%Z -> listed res = VProducts [])
        /\ pagination_field res "currentPage" = VInt p
        /\ pagination_field res "productsPerPage" = VInt l
        /\ pagination_field res "totalPages" = VInt (ceil_div count l)
        /\ ((ceil_div count l - 1) * l < count <= ceil_div count l * l)%Z).
Proof.
  intros page limit count res.
  split; [apply or_default_of_parameter|].
  split; [apply or_default_of_parameter|].
  split; [exact round64_safe|].
  do 4 (split; [reflexivity|]).
  intros p l Ep El Hp Hl Safe Small.
  assert (W : listed res
              = VProducts (window filtered ((p - 1) * l) (p * l))).
  { unfold res, paginate, listed. cbn [payload json get String.eqb
      Ascii.eqb Bool.eqb].
    fold page limit. rewrite Ep, El.
    rewrite start_index_exact, end_index_exact by assumption.
    rewrite slice_numbers_integers. now rewrite slice_window by nia. }
  split; [exact W|]. split.
  { intros Far. rewrite W. now rewrite window_beyond. }
  assert (T : pagination_field res "totalPages" = VInt (ceil_div count l)).
  { unfold res, paginate, pagination_field.
    cbn [payload json get String.eqb Ascii.eqb Bool.eqb].
    fold limit count. rewrite El.
    rewrite total_pages_exact by (unfold count; nia). reflexivity. }
  split; [|split; [|split; [exact T | now apply ceil_div_bounds]]].
  - change (pagination_field res "currentPage") with (num_json page).
    now rewrite Ep.
  - change (pagination_field res "productsPerPage") with (num_json limit).
    now rewrite El.
Qed.

Lemma pagination_for_positive_page_and_limit_witness :
  listed (paginate query_second_page seed) = VProducts [seed_coffee_maker]
  /\ pagination_field (paginate query_second_page seed) "totalPages"
     = VInt 2.
Proof.
  destruct (pagination_for_positive_page_and_limit query_second_page seed)
    as (_ & _ & _ & _ & _ & _ & _ & H).
  destruct (H 2%Z 2%Z) as (L & _ & _ & _ & T & _).
  - reflexivity.
  - reflexivity.
  - lia.
  - lia.
  - vm_compute. discriminate.
  - vm_compute. discriminate.
  - split; [exact L | exact T].
Defined.

(** Outside the safe range the numbers are doubles.  A page of
    9007199254740993 is reported as 9007199254740992; a limit of 310
    digits is infinite: the start index 0 * Infinity is NaN, which
    [slice] reads as 0, the whole list is returned, totalPages is
    [Math.ceil(3 / Infinity)] = 0 and the limit is written as null. *)
Example unsafe_page_is_rounded :
  pagination_field (paginate query_unsafe_page seed) "currentPage"
  = VInt 9007199254740992
  /\ listed (paginate query_unsafe_page seed) = VProducts [].
Proof. vm_compute. split; reflexivity. Qed.

Example huge_limit_is_infinite :
  limit_of query_huge_limit = Inf false
  /\ start_index (page_of query_huge_limit) (limit_of query_huge_limit)
     = NaN
  /\ paginate query_huge_limit seed
     = json 200
         (VObj
            [ ("products", VProducts seed);
              ("pagination",
               VObj
                 [ ("currentPage", VInt 1);
                   ("totalPages", VInt 0);
                   ("totalProducts", VInt 3);
                   ("productsPerPage", VNull) ]) ]).
Proof. vm_compute. repeat split. Qed.

(* ================================================================== *)
(** * Search *)

Section Search.

Import JsStringFacts.

Lemma filterM_pure {A : Type} (f : A -> result bool) (g : A -> bool)
  (l : list A) :
  Forall (fun x => f x = Ok (g x)) l -> filterM f l = Ok (filter g l).
Proof.
  induction 1 as [|x l Hx _ IH]; simpl; [reflexivity|].
  now rewrite Hx, IH.
Qed.


End Search.

(* ================================================================== *)
(** * Search beyond code unit 255 *)

Lemma lower_unit_narrow (c : ascii) :
  Wide.lower_unit (Z.of_N (N_of_ascii c))
  = Z.of_N (N_of_ascii (lower_char c)).
Proof.
  destruct c as [[] [] [] [] [] [] [] []]; reflexivity.
Qed.

Lemma tabulated_narrow (c : ascii) :
  Wide.tabulated (Z.of_N (N_of_ascii c)) = true.
Proof.
  destruct c as [[] [] [] [] [] [] [] []]; reflexivity.
Qed.

Lemma not_sigma_narrow (c : ascii) :
  (Z.of_N (N_of_ascii c) =? Wide.capital_sigma)%Z = false.
Proof.
  destruct c as [[] [] [] [] [] [] [] []]; reflexivity.
Qed.

Lemma lower_from_narrow (s : string) (before : Wide.text) :
  Wide.lower_from before (Wide.embed s) = Wide.embed (toLowerCase s).
Proof.
  revert before; induction s as [|c s IH]; intros before; [reflexivity|].
  cbn [Wide.embed Wide.lower_from toLowerCase].
  now rewrite not_sigma_narrow, lower_unit_narrow, IH.
Qed.

(** On the texts of [JsString], lower-casing unit by unit is
    [String.prototype.toLowerCase]. *)
Lemma toLowerCase_narrow (s : string) :
  Wide.toLowerCase (Wide.embed s) = Some (Wide.embed (toLowerCase s)).
Proof.
  unfold Wide.toLowerCase.
  replace (forallb Wide.tabulated (Wide.embed s)) with true.
  - now rewrite lower_from_narrow.
  - symmetry. induction s as [|c s IH]; [reflexivity|].
    cbn [Wide.embed forallb]. now rewrite tabulated_narrow.
Qed.

Lemma code_unit_eqb (a b : ascii) :
  (Z.of_N (N_of_ascii a) =? Z.of_N (N_of_ascii b))%Z = Ascii.eqb a b.
Proof.
  destruct (Ascii.eqb_spec a b) as [-> | N].
  - apply Z.eqb_refl.
  - apply Z.eqb_neq. intros E. apply N.
    apply N2Z.inj in E.
    rewrite <- (ascii_N_embedding a), <- (ascii_N_embedding b).
    now rewrite E.
Qed.

Lemma starts_with_narrow (t s : string) :
  Wide.starts_with (Wide.embed t) (Wide.embed s) = prefix t s.
Proof.
  revert s; induction t as [|a t IH]; intros [|b s]; try reflexivity.
  cbn [Wide.embed Wide.starts_with prefix].
  rewrite code_unit_eqb, IH.
  destruct (Ascii.eqb_spec a b) as [-> | N].
  - destruct (ascii_dec b b); [reflexivity | contradiction].
  - destruct (ascii_dec a b); [contradiction | reflexivity].
Qed.

Lemma includes_narrow (s t : string) :
  Wide.includes (Wide.embed s) (Wide.embed t) = includes s t.
Proof.
  induction s as [|c s IH].
  - cbn [includes]. now rewrite <- starts_with_narrow.
  - cbn [Wide.embed Wide.includes includes].
    change (Z.of_N (N_of_ascii c) :: Wide.embed s)
      with (Wide.embed (String c s)).
    now rewrite starts_with_narrow, IH.
Qed.

Lemma search_matches_narrow (name description q : string) :
  Wide.search_matches (Wide.embed name) (Wide.embed description)
    (Wide.embed q)
  = Some (includes (toLowerCase name) (toLowerCase q)
          || includes (toLowerCase description) (toLowerCase q)).
Proof.
  unfold Wide.search_matches. rewrite !toLowerCase_narrow.
  now rewrite !includes_narrow.
Qed.




(* ================================================================== *)
(** * Statistics *)

Section Statistics.

Lemma get_own (o : obj) (k : string) :
  get o k = match own o k with Some v => v | None => VUndefined end.
Proof.
  induction o as [|[k' v] o IH]; simpl; [reflexivity|].
  now destruct (String.eqb k k').
Qed.

Lemma own_set_own_same (o : obj) (k : string) (v : value) :
  own (set_own o k v) k = Some v.
Proof.
  induction o as [|[k' v'] o IH]; simpl.
  - now rewrite String.eqb_refl.
  - destruct (String.eqb_spec k k') as [->|N]; simpl.
    + now rewrite String.eqb_refl.
    + destruct (String.eqb_spec k k'); [contradiction | exact IH].
Qed.

Lemma own_set_own_other (o : obj) (k c : string) (v : value) :
  c <> k -> own (set_own o k v) c = own o c.
Proof.
  intros N. induction o as [|[k' v'] o IH]; simpl.
  - destruct (String.eqb_spec c k); [contradiction | reflexivity].
  - destruct (String.eqb_spec k k') as [->|N']; simpl.
    + destruct (String.eqb_spec c k'); [contradiction | reflexivity].
    + now rewrite IH.
Qed.

Lemma own_assign_other (o : obj) (k c : string) (v : value) :
  c <> k -> own (assign o k v) c = own o c.
Proof.
  intros N. unfold assign. destruct (String.eqb k "__proto__");
    [reflexivity | now apply own_set_own_other].
Qed.

Lemma own_assign_same (o : obj) (c : string) (v : value) :
  object_prototype_text c = None -> own (assign o c v) c = Some v.
Proof.
  intros H. unfold assign.
  destruct (String.eqb_spec c "__proto__") as [->|N]; [discriminate|].
  apply own_set_own_same.
Qed.

Lemma own_count_entry (o : obj) (k : string) (v : value) :
  Forall count_entry o -> own o k = Some v -> count_entry (k, v).
Proof.
  induction 1 as [|[k' v'] o H _ IH]; simpl; [discriminate|].
  destruct (String.eqb k k'); [|exact IH]. now intros [= <-].
Qed.

Lemma set_own_count_entry (o : obj) (k : string) (v : value) :
  Forall count_entry o -> count_entry (k, v) ->
  Forall count_entry (set_own o k v).
Proof.
  intros H Hv. induction H as [|[k' v'] o H Ho IH]; simpl.
  - now constructor.
  - destruct (String.eqb k k'); constructor; auto.
Qed.

Lemma category_count_snoc (c : string) (seen : list obj) (p : obj) :
  category_count c (seen ++ [p])
  = (category_count c seen
     + if strict_eq_str (get p "category") c then 1 else 0)%nat.
Proof.
  unfold category_count. rewrite filter_app, length_app. simpl.
  now destruct (strict_eq_str (get p "category") c).
Qed.

(** One turn of the counting loop on a well-formed record. *)
Lemma count_category_step (counts : obj) (seen : list obj) (p : obj) :
  well_formed p -> Forall count_entry counts -> counts_agree counts seen ->
  exists counts',
    count_category counts p = Ok counts'
    /\ Forall count_entry counts'
    /\ counts_agree counts' (seen ++ [p]).
Proof.
  intros (id & n & d & price & k & b & -> & _) CE AG.
  unfold count_category. cbn [get product_literal String.eqb Ascii.eqb
    Bool.eqb].
  assert (exists v, incremented counts k = Ok v /\ count_entry (k, v)
                    /\ (object_prototype_text k = None ->
                        exists m, v = VNum m
                          /\ (m == inject_Z
                                     (Z.of_nat (S (category_count k seen))))%Q))
    as (v & -> & Hv & Hm).
  { unfold incremented. specialize (AG k).
    destruct (own counts k) as [[| | |m|s| |]|] eqn:O;
      try (now apply (own_count_entry _ _ _ CE) in O).
    - eexists; repeat split. intros T. destruct (AG T) as [E _].
      eexists; split; [reflexivity|]. rewrite E.
      rewrite Nat2Z.inj_succ. unfold Z.succ. rewrite inject_Z_plus.
      reflexivity.
    - exists (if is_empty s then VNum (0 + 1) else VStr (s ++ "1")%string).
      split; [reflexivity|]. split; [now destruct (is_empty s)|].
      intros T. now destruct (AG T).
    - destruct (object_prototype_text k) as [text|].
      + eexists; repeat split. discriminate.
      + eexists; repeat split. intros _. rewrite (AG eq_refl).
        eexists; split; reflexivity. }
  simpl. eexists; split; [reflexivity|]. split.
  - unfold assign. destruct (String.eqb k "__proto__"); [exact CE|].
    now apply set_own_count_entry.
  - intros c T. rewrite category_count_snoc.
    cbn [get product_literal String.eqb Ascii.eqb Bool.eqb strict_eq_str].
    destruct (String.eqb_spec k c) as [->|N].
    + rewrite (own_assign_same _ _ _ T).
      destruct (Hm T) as (m & -> & E). split; [|lia].
      rewrite E. now replace (category_count c seen + 1)%nat
        with (S (category_count c seen)) by lia.
    + rewrite own_assign_other by congruence.
      specialize (AG c T). rewrite Nat.add_0_r. exact AG.
Qed.

Lemma count_categories (l : list obj) :
  forall counts seen,
    Forall well_formed l -> Forall count_entry counts ->
    counts_agree counts seen ->
    exists counts',
      foldM count_category l counts = Ok counts'
      /\ Forall count_entry counts'
      /\ counts_agree counts' (seen ++ l).
Proof.
  induction l as [|p l IH]; intros counts seen WF CE AG.
  - exists counts. rewrite app_nil_r. auto.
  - inversion WF as [|? ? Hp Hl]; subst.
    destruct (count_category_step counts seen p Hp CE AG)
      as (c1 & E1 & CE1 & AG1).
    destruct (IH c1 (seen ++ [p]) Hl CE1 AG1) as (c2 & E2 & CE2 & AG2).
    exists c2. simpl. rewrite E1. simpl. rewrite E2.
    rewrite <- app_assoc in AG2. auto.
Qed.

Lemma prices_of_well_formed (l : list obj) :
  Forall well_formed l ->
  exists prices,
    mapM price_number l = Ok prices
    /\ List.length prices = List.length l
    /\ Forall (fun q => (0 <= q)%Q) prices.
Proof.
  induction 1 as [|p l (id & n & d & q & c & b & -> & _ & _ & Hq & _) _
                    (prices & E & L & P)].
  - exists []. auto.
  - exists (q :: prices). cbn [mapM].
    change (price_number (product_literal id n d (VNum q) c (VBool b)))
      with (Ok q).
    cbn [bind]. rewrite E. simpl. repeat split; auto.
Qed.

End Statistics.

Section PriceStatistics.

(** The average is computed in binary64.  A single price of 1.005 is
    held as the double just below it, and its average is 1, not 1.01;
    next to a price of 1e20 the sum absorbs the three seed prices, and
    the average is 2.5e19, which is 512.5 below the mean. *)
Example average_price_in_binary64 :
  average_price [1005 # 1000] = Fin 1
  /\ average_price [1200; 800; 50; inject_Z (10 ^ 20)]
     = Fin (inject_Z (25 * 10 ^ 18)).
Proof. vm_compute. split; reflexivity. Qed.

Lemma Qmin_cases (x y : Q) : Qmin x y = x \/ Qmin x y = y.
Proof.
  unfold Qmin, GenericMinMax.gmin. destruct (x ?= y)%Q; auto.
Qed.

Lemma Qmax_cases (x y : Q) : Qmax x y = x \/ Qmax x y = y.
Proof.
  unfold Qmax, GenericMinMax.gmax. destruct (x ?= y)%Q; auto.
Qed.

(** [Math.min] returns one of its arguments, below all of them. *)
Lemma Math_min_spec (xs : list Q) :
  forall x,
    In (Math_min x xs) (x :: xs)
    /\ Forall (fun y => (Math_min x xs <= y)%Q) (x :: xs).
Proof.
  unfold Math_min. induction xs as [|a xs IH]; intros x.
  - simpl. split; [now left|]. constructor; [apply Qle_refl|constructor].
  - cbn [fold_left]. destruct (IH (Qmin x a)) as [M B].
    inversion B as [|? ? B0 Bs]; subst. split.
    + destruct M as [<-|M]; [|right; right; exact M].
      destruct (Qmin_cases x a) as [-> | ->]; [now left | right; now left].
    + constructor; [|constructor]; auto.
      * eapply Qle_trans; [exact B0 | apply Q.le_min_l].
      * eapply Qle_trans; [exact B0 | apply Q.le_min_r].
Qed.

(** [Math.max] returns one of its arguments, above all of them. *)
Lemma Math_max_spec (xs : list Q) :
  forall x,
    In (Math_max x xs) (x :: xs)
    /\ Forall (fun y => (y <= Math_max x xs)%Q) (x :: xs).
Proof.
  unfold Math_max. induction xs as [|a xs IH]; intros x.
  - simpl. split; [now left|]. constructor; [apply Qle_refl|constructor].
  - cbn [fold_left]. destruct (IH (Qmax x a)) as [M B].
    inversion B as [|? ? B0 Bs]; subst. split.
    + destruct M as [<-|M]; [|right; right; exact M].
      destruct (Qmax_cases x a) as [-> | ->]; [now left | right; now left].
    + constructor; [|constructor]; auto.
      * eapply Qle_trans; [apply Q.le_max_l | exact B0].
      * eapply Qle_trans; [apply Q.le_max_r | exact B0].
Qed.

End PriceStatistics.

Section StatisticsOfTheStore.

Lemma counts_agree_empty : counts_agree [] [].
Proof. intros c _. reflexivity. Qed.

Lemma filter_inStock_well_formed (l : list obj) (b : bool) :
  Forall well_formed l ->
  filter (fun p => if b then truthy (get p "inStock")
                   else negb (truthy (get p "inStock"))) l
  = filter (fun p => strict_eq_bool (get p "inStock") b) l.
Proof.
  intros WF. apply filter_ext_in_iff. intros p Hp.
  rewrite Forall_forall in WF.
  destruct (WF p Hp) as (id & n & d & q & c & s & -> & _).
  destruct b, s; reflexivity.
Qed.

(** What the statistics handler answers on a store of well-formed
    records: it never gets stuck, it leaves the store alone, the three
    totals count the records, the in-stock and the out-of-stock ones, the
    entry of a category that is not an inherited property name is the
    number of its records (no entry when there is none), and the price
    fields are those of [price_stats]. *)
Lemma statistics_of_well_formed_store (products : list obj) :
  Forall well_formed products ->
  exists res prices,
    statsHandler products = Ok (res, products)
    /\ mapM price_number products = Ok prices
    /\ List.length prices = List.length products
    /\ statusCode res = 200%Z
    /\ stats_field res "totalProducts" = VLen products
    /\ stats_field res "inStockCount"
       = VLen (filter (fun p => strict_eq_bool (get p "inStock") true)
                 products)
    /\ stats_field res "outOfStockCount"
       = VLen (filter (fun p => strict_eq_bool (get p "inStock") false)
                 products)
    /\ (forall c,
          object_prototype_text c = None ->
          match category_count c products with
          | O => stats_category res c = VUndefined
          | S _ =>
              exists n,
                stats_category res c = VNum n
                /\ (n == inject_Z (Z.of_nat (category_count c products)))%Q
          end)
    /\ stats_field res "averagePrice"
       = num_json (fst (fst (price_stats prices)))
    /\ stats_field res "priceRange"
       = VObj [ ("min", VNum (snd (fst (price_stats prices))));
                ("max", VNum (snd (price_stats prices))) ].
Proof.
  intros WF.
  destruct (count_categories products [] [] WF (Forall_nil _)
              counts_agree_empty) as (counts & EC & _ & AG).
  destruct (prices_of_well_formed products WF) as (prices & EP & LP & _).
  simpl in AG. unfold statsHandler. rewrite EC, EP. cbn [bind].
  destruct (price_stats prices) as [[avg mn] mx] eqn:PS.
  eexists; exists prices. split; [reflexivity|].
  split; [reflexivity|]. split; [exact LP|]. split; [reflexivity|].
  split; [reflexivity|].
  split; [|split; [|split; [|split; rewrite PS; reflexivity]]].
  - unfold stats_field; simpl.
    now rewrite <- (filter_inStock_well_formed products true WF).
  - unfold stats_field; simpl.
    now rewrite <- (filter_inStock_well_formed products false WF).
  - intros c T. specialize (AG c T). unfold stats_category, stats_field.
    simpl. rewrite get_own.
    destruct (own counts c) as [[| | |n| | |]|]; try contradiction.
    + destruct AG as [E P].
      destruct (category_count c products); [lia|]. now exists n.
    + now rewrite AG.
Qed.

Lemma stats_never_stuck (products : list obj) :
  reachable products ->
  exists res, statsHandler products = Ok (res, products).
Proof.
  intros R.
  destruct (statistics_of_well_formed_store products
              (reachable_well_formed _ R)) as (res & _ & E & _).
  now exists res.
Qed.

(** The statistics of the seed store; the average is the double that is
    written 683.33. *)
Lemma statistics_of_the_seed :
  statsHandler seed
  = Ok (json 200
          (VObj
             [ ("totalProducts", VInt 3);
               ("inStockCount", VInt 2);
               ("outOfStockCount", VInt 1);
               ("categoryCounts",
                VObj [("electronics", VInt 2); ("kitchen", VInt 1)]);
               ("averagePrice", num_json (round64 (68333 # 100)));
               ("priceRange",
                VObj [("min", VNum 50); ("max", VNum 1200)]) ]),
        seed).
Proof. vm_compute. reflexivity. Qed.

(** The statistics of the empty store. *)
Lemma statistics_of_the_empty_store :
  statsHandler []
  = Ok (json 200
          (VObj
             [ ("totalProducts", VInt 0);
               ("inStockCount", VInt 0);
               ("outOfStockCount", VInt 0);
               ("categoryCounts", VObj []);
               ("averagePrice", VNum 0);
               ("priceRange", VObj [("min", VNum 0); ("max", VNum 0)]) ]),
        []).
Proof. reflexivity. Qed.

End StatisticsOfTheStore.

(** C5, at a store the API reaches with one valid create request.  The new
    record's category is 'constructor', the only record of that category;
    the statistics give, for that category, not the number 1 but a text:
    the inherited property of the empty counting object read as text, with
    1 appended.  The other fields are as the claim says. *)
Theorem statistics_miscount_an_inherited_name :
  app "uuid-2" seed create_kit = Some (created_response kit, seed ++ [kit])
  /\ category_count "constructor" (seed ++ [kit]) = 1%nat
  /\ answer (fun res => stats_category res "constructor")
       (app "unused" (seed ++ [kit]) get_stats)
     = Some (VStr "function Object() { [native code] }1")
  /\ answer (fun res => stats_category res "electronics")
       (app "unused" (seed ++ [kit]) get_stats)
     = Some (VInt 2)
  /\ answer (fun res => stats_field res "totalProducts")
       (app "unused" (seed ++ [kit]) get_stats)
     = Some (VInt 4).
Proof. repeat split; reflexivity. Qed.

(* ================================================================== *)
(** * The application always answers *)

Section Progress.

Lemma bind_not_stuck {A B : Type} (m : result A) (k : A -> result B) :
  m <> Stuck -> (forall a, k a <> Stuck) -> bind m k <> Stuck.
Proof. destruct m; simpl; auto; discriminate. Qed.

Lemma filterM_not_stuck {A : Type} (f : A -> result bool) (l : list A) :
  (forall x, f x <> Stuck) -> filterM f l <> Stuck.
Proof.
  intros H. induction l as [|x l IH]; simpl; [discriminate|].
  apply bind_not_stuck; [apply H|]. intros keep.
  apply bind_not_stuck; [exact IH|]. discriminate.
Qed.

Lemma method_toLowerCase_not_stuck (v : value) :
  method_toLowerCase v <> Stuck.
Proof. destruct v; discriminate. Qed.

Lemma q_toLowerCase_not_stuck (v : qval) : q_toLowerCase v <> Stuck.
Proof. destruct v; discriminate. Qed.

Lemma authMiddleware_not_stuck (req : request) : authMiddleware req <> Stuck.
Proof.
  rewrite authMiddleware_spec.
  destruct (req_method req); try discriminate;
    destruct (credential_ok (req_api_key req)); discriminate.
Qed.

Lemma validateProduct_not_stuck (req : request) :
  validateProduct req <> Stuck.
Proof.
  unfold validateProduct. read_fields (body_value req).
  destruct (0 <? _)%nat; discriminate.
Qed.

Lemma build_product_not_stuck (id : string) (body : value) :
  build_product id body <> Stuck.
Proof.
  unfold build_product. read_fields body.
  destruct name; try discriminate. destruct description; try discriminate.
  destruct category; discriminate.
Qed.

(** No route gets stuck on a store of well-formed records. *)
Lemma run_not_stuck h uuid products req params :
  Forall well_formed products ->
  run h uuid products req params <> Stuck.
Proof.
  intros WF. destruct h; simpl.
  - discriminate.
  - unfold listHandler. apply bind_not_stuck; [|discriminate].
    unfold filter_by_category.
    destruct (query_get (req_query req) "category") as [c|]; [|discriminate].
    destruct (q_truthy c); [|discriminate].
    apply filterM_not_stuck. intros p.
    apply bind_not_stuck; [apply method_toLowerCase_not_stuck|]. intros mine.
    apply bind_not_stuck; [apply q_toLowerCase_not_stuck|]. discriminate.
  - unfold searchHandler.
    destruct (query_get (req_query req) "q") as [q|]; [|discriminate].
    destruct (negb (q_truthy q)); [discriminate|].
    apply bind_not_stuck; [|discriminate].
    apply filterM_not_stuck. intros p. unfold search_matches.
    apply bind_not_stuck; [apply method_toLowerCase_not_stuck|]. intros name.
    apply bind_not_stuck; [apply q_toLowerCase_not_stuck|]. intros needle.
    destruct (includes name needle); [discriminate|].
    apply bind_not_stuck; [apply method_toLowerCase_not_stuck|]. intros d.
    apply bind_not_stuck; [apply q_toLowerCase_not_stuck|]. discriminate.
  - destruct (statistics_of_well_formed_store products WF)
      as (res & _ & E & _).
    rewrite E. discriminate.
  - unfold getHandler. destruct (find _ products); discriminate.
  - apply bind_not_stuck; [apply authMiddleware_not_stuck|]. intros _.
    apply bind_not_stuck; [apply validateProduct_not_stuck|]. intros _.
    unfold createHandler.
    apply bind_not_stuck; [apply build_product_not_stuck|]. discriminate.
  - apply bind_not_stuck; [apply authMiddleware_not_stuck|]. intros _.
    apply bind_not_stuck; [apply validateProduct_not_stuck|]. intros _.
    unfold updateHandler. destruct (findIndex _ products); [|discriminate].
    apply bind_not_stuck; [apply build_product_not_stuck|]. discriminate.
  - apply bind_not_stuck; [apply authMiddleware_not_stuck|]. intros _.
    unfold deleteHandler. destruct (findIndex _ products); discriminate.
Qed.

(** Every request to a reachable store gets a response, and leaves a
    reachable store. *)
Lemma app_always_answers uuid products req :
  reachable products ->
  exists res products',
    app uuid products req = Some (res, products') /\ reachable products'.
Proof.
  intros R.
  assert (exists res products', app uuid products req = Some (res, products'))
    as (res & products' & E).
  { unfold app. destruct (req_body req); [eauto|].
    destruct (find_route routes (req_method req) (req_path req))
      as [[h params]|]; [|eauto].
    pose proof (run_not_stuck h uuid products req params
                  (reachable_well_formed _ R)) as N.
    destruct (run h uuid products req params) as [[r s]| |];
      [eauto | eauto | contradiction]. }
  exists res, products'. split; [exact E|].
  eapply reachable_step; eauto.
Qed.

(** A PUT for an id that no record carries leaves the store as it was,
    whatever the credential and the body. *)
Lemma update_of_unknown_id_keeps_store uuid products url id query key body :
  reachable products ->
  (forall p, In p products -> get p "id" <> VStr id) ->
  exists res,
    app uuid products
      (request_of PUT url (products_path ++ [id]) query key body)
    = Some (res, products).
Proof.
  intros R H.
  assert (F : findIndex (has_id id) products = None).
  { apply findIndex_None. intros x Hx. apply has_id_false. now apply H. }
  set (req := request_of PUT url (products_path ++ [id]) query key body).
  assert (A : app uuid products req
              = settle products
                  (authMiddleware req ;;; validateProduct req ;;;
                   updateHandler products id req)) by reflexivity.
  rewrite A. unfold updateHandler. rewrite F.
  pose proof (authMiddleware_not_stuck req) as N1.
  pose proof (validateProduct_not_stuck req) as N2.
  destruct (authMiddleware req); [|simpl; eauto|contradiction].
  destruct (validateProduct req); [|simpl; eauto|contradiction].
  simpl. eauto.
Qed.

End Progress.

(** A list request whose category filter is absent or a string is
    answered with status 200 on every reachable store, whatever page and
    limit hold: the filters and the pagination block do not throw. *)
Lemma list_answers_200 uuid products url query key body :
  reachable products ->
  (forall v, query_get query "category" = Some v -> exists c, v = QStr c) ->
  exists filtered,
    app uuid products (request_of GET url products_path query key body)
    = Some (paginate query filtered, products)
    /\ statusCode (paginate query filtered) = 200%Z.
Proof.
  intros R H.
  set (req := request_of GET url products_path query key body).
  assert (A : app uuid products req
              = settle products (listHandler products req)) by reflexivity.
  assert (exists kept, filter_by_category query products = Ok kept)
    as (kept & K).
  { unfold filter_by_category.
    destruct (query_get query "category") as [v|]; [|eauto].
    destruct (H v eq_refl) as (c & ->).
    destruct (q_truthy (QStr c)); [|eauto].
    eexists. apply filterM_pure
      with (g := fun p => String.eqb (toLowerCase (text_of (get p "category")))
                            (toLowerCase c)).
    eapply Forall_impl; [|exact (reachable_well_formed _ R)].
    now intros p (id & n & d & q & k & b & -> & _). }
  exists (filter_by_inStock query kept). split; [|reflexivity].
  rewrite A. unfold listHandler. change (req_query req) with query.
  now rewrite K.
Qed.

(* ================================================================== *)
(** * The documented scenarios, run on the seed store *)

Section Scenarios.

Example list_without_filters :
  answer listed (app "unused" seed (get_list "/api/products?limit=10"
                                      [("limit", QStr "10")]))
  = Some (VProducts seed)
  /\ answer (fun res => pagination_field res "totalPages")
       (app "unused" seed (get_list "/api/products?limit=10"
                             [("limit", QStr "10")]))
     = Some (VInt 1).
Proof. split; reflexivity. Qed.

Example list_electronics :
  answer listed
    (app "unused" seed (get_list "/api/products?category=Electronics"
                          [("category", QStr "Electronics")]))
  = Some (VProducts [seed_laptop; seed_smartphone]).
Proof. reflexivity. Qed.

Example list_out_of_stock :
  answer listed
    (app "unused" seed (get_list "/api/products?inStock=false"
                          [("inStock", QStr "false")]))
  = Some (VProducts [seed_coffee_maker]).
Proof. reflexivity. Qed.

Example create_without_key :
  app "uuid-1" seed
    (request_of POST "/api/products" products_path [] None lamp_body)
  = Some (json 401
            (error_body "AuthenticationError" authentication_message 401),
          seed).
Proof. reflexivity. Qed.

Example create_without_price_and_name :
  app "uuid-1" seed
    (request_of POST "/api/products" products_path [] (Some secret_api_key)
       (VObj [ ("name", VStr "   ");
               ("description", VStr "LED lamp");
               ("category", VStr "home");
               ("inStock", VBool true) ]))
  = Some (json 400
            (error_body "ValidationError"
               (name_message ++ ", " ++ price_message) 400),
          seed).
Proof. reflexivity. Qed.

Example delete_unknown_id :
  app "unused" seed
    (request_of DELETE "/api/products/9" (products_path ++ ["9"]) []
       (Some secret_api_key) (VObj []))
  = Some (json 404 (error_body "NotFoundError" (not_found_message "9") 404),
          seed).
Proof. reflexivity. Qed.

Example delete_second_record :
  option_map snd
    (app "unused" seed
       (request_of DELETE "/api/products/2" (products_path ++ ["2"]) []
          (Some secret_api_key) (VObj [])))
  = Some [seed_laptop; seed_coffee_maker].
Proof. reflexivity. Qed.

Example get_after_update :
  app "unused" [seed_laptop; cheaper_smartphone; seed_coffee_maker]
    (request_of GET "/api/products/2" (products_path ++ ["2"]) [] None
       (VObj []))
  = Some (json 200 (VObj cheaper_smartphone),
          [seed_laptop; cheaper_smartphone; seed_coffee_maker]).
Proof. reflexivity. Qed.

Example unknown_route :
  app "unused" seed (request_of PATCH "/nowhere" ["nowhere"] [] None (VObj []))
  = Some (json 404
            (error_body "Not Found" "Route PATCH /nowhere not found" 404),
          seed).
Proof. reflexivity. Qed.

Example malformed_body :
  app "unused" seed
    {| req_method := POST; req_originalUrl := "/api/products";
       req_path := products_path; req_query := [];
       req_api_key := Some secret_api_key; req_body := Malformed |}
  = Some (json 400
            (error_body "Invalid JSON" "Request body contains invalid JSON"
               400),
          seed).
Proof. reflexivity. Qed.

(** A query value that is not a string makes the category filter throw,
    which the responder sends as 500. *)
Example list_with_repeated_category :
  app "unused" seed
    (get_list "/api/products?category=a&category=b"
       [("category", QArr [QStr "a"; QStr "b"])])
  = Some (json 500
            (error_body "Internal Server Error"
               "Something went wrong on the server" 500),
          seed).
Proof. reflexivity. Qed.

End Scenarios.

(* ================================================================== *)
(** * Further properties: single records *)

Section FirstMatch.

Context {A : Type} (f : A -> bool).

(** [findIndex] gives the position of the first element that satisfies
    the test. *)
Lemma findIndex_first (l : list A) (i : nat) :
  findIndex f l = Some i ->
  exists before x after,
    l = before ++ x :: after
    /\ List.length before = i
    /\ f x = true
    /\ Forall (fun y => f y = false) before.
Proof.
  revert i; induction l as [|y l IH]; intros i; simpl; [discriminate|].
  destruct (f y) eqn:E.
  - intros [= <-]. exists [], y, l. auto.
  - destruct (findIndex f l) as [j|]; [|discriminate]. intros [= <-].
    destruct (IH j eq_refl) as (b & x & a & -> & L & Hx & Hb).
    exists (y :: b), x, a. simpl. repeat split; auto.
Qed.

Lemma findIndex_at_first (before after : list A) (x : A) :
  Forall (fun y => f y = false) before -> f x = true ->
  findIndex f (before ++ x :: after) = Some (List.length before).
Proof.
  intros Hb Hx. induction Hb as [|y b Hy _ IH]; simpl.
  - now rewrite Hx.
  - now rewrite Hy, IH.
Qed.

Lemma find_at_first (before after : list A) (x : A) :
  Forall (fun y => f y = false) before -> f x = true ->
  find f (before ++ x :: after) = Some x.
Proof.
  intros Hb Hx. induction Hb as [|y b Hy _ IH]; simpl.
  - now rewrite Hx.
  - now rewrite Hy.
Qed.

Lemma find_none (l : list A) :
  (forall x, In x l -> f x = false) -> find f l = None.
Proof.
  intros H. destruct (find f l) as [x|] eqn:E; [|reflexivity].
  apply find_some in E as [I T]. rewrite (H x I) in T. discriminate.
Qed.

(** When some element satisfies the test, the list splits at the first
    one that does. *)
Lemma first_match (l : list A) :
  (exists x, In x l /\ f x = true) ->
  exists before x after,
    l = before ++ x :: after
    /\ f x = true
    /\ Forall (fun y => f y = false) before.
Proof.
  intros (x & I & T).
  destruct (findIndex f l) as [i|] eqn:E.
  - destruct (findIndex_first l i E) as (b & y & a & ? & _ & ? & ?).
    now exists b, y, a.
  - rewrite (proj1 (findIndex_None f l) E x I) in T. discriminate.
Qed.

End FirstMatch.

Lemma remove_nth_middle {A : Type} (before after : list A) (x : A) :
  remove_nth (before ++ x :: after) (List.length before) = before ++ after.
Proof. induction before; simpl; congruence. Qed.

Lemma set_nth_middle {A : Type} (before after : list A) (x y : A) :
  set_nth (before ++ x :: after) (List.length before) y
  = before ++ y :: after.
Proof. induction before; simpl; congruence. Qed.

Lemma nth_error_middle {A : Type} (before after : list A) (x : A) :
  nth_error (before ++ x :: after) (List.length before) = Some x.
Proof. induction before; simpl; congruence. Qed.

Lemma Forall_has_id_false (id : string) (l : list obj) :
  Forall (fun p => has_id id p = false) l
  <-> forall p, In p l -> get p "id" <> VStr id.
Proof.
  rewrite Forall_forall. split; intros H p I;
    apply has_id_false, H, I.
Qed.

(** Where the router sends a request for one record. *)
Lemma item_route (m : method) (id : string) :
  find_route routes m (item_path id)
  = match m with
    | GET =>
        if String.eqb (toLowerCase id) "search"
        then Some (SearchProducts, [])
        else if String.eqb (toLowerCase id) "stats"
             then Some (ProductStats, [])
             else Some (GetProduct, [("id", id)])
    | PUT => Some (UpdateProduct, [("id", id)])
    | DELETE => Some (DeleteProduct, [("id", id)])
    | POST | PATCH => None
    end.
Proof.
  destruct m; try reflexivity.
  cbn. destruct (String.eqb (toLowerCase id) "search"); [reflexivity|].
  destruct (String.eqb (toLowerCase id) "stats"); reflexivity.
Qed.

Lemma app_item (uuid : string) (products : list obj) (m : method)
  (url id : string) query key body :
  app uuid products (request_of m url (item_path id) query key body)
  = match find_route routes m (item_path id) with
    | Some (h, params) =>
        settle products
          (run h uuid products
             (request_of m url (item_path id) query key body) params)
    | None =>
        Some (notFoundHandler
                (request_of m url (item_path id) query key body),
              products)
    end.
Proof.
  unfold app; cbn [req_body request_of req_method req_path].
  destruct (find_route routes m (item_path id)) as [[h params]|];
    [|reflexivity].
  unfold settle. now destruct (run h uuid products _ params) as [[? ?]| |].
Qed.

(** X1.  A DELETE with the secret key, whatever its body: when some
    record carries the id, the first such record is taken out, the
    records before and after it stay in their order, and the response is
    200 with the removed record; when none does, the response is the 404
    NotFoundError and the store is the one before. *)
Theorem delete_removes_the_first_match
  (uuid : string) (products : list obj) (url id : string)
  (query : list (string * qval)) (body : value) :
  let req :=
    request_of DELETE url (item_path id) query (Some secret_api_key) body in
  ((exists p, In p products /\ carries_id id p) ->
   exists before removed after,
     products = before ++ removed :: after
     /\ carries_id id removed
     /\ (forall p, In p before -> ~ carries_id id p)
     /\ app uuid products req
        = Some (deleted_response removed, before ++ after)
     /\ List.length products = S (List.length (before ++ after)))
  /\ ((forall p, In p products -> ~ carries_id id p) ->
      app uuid products req = Some (not_found_response id, products)).
Proof.
  intros req. unfold req. rewrite app_item, item_route.
  cbn [run settle param String.eqb Ascii.eqb Bool.eqb].
  change (authMiddleware _) with (Ok tt). cbn [bind].
  unfold deleteHandler. split.
  - intros (p & I & C).
    destruct (first_match (has_id id) products) as (b & x & a & -> & Hx & Hb).
    { exists p. split; [exact I | now apply has_id_true]. }
    exists b, x, a. split; [reflexivity|].
    split; [now apply has_id_true|].
    split; [now apply Forall_has_id_false|].
    rewrite (findIndex_at_first _ b a x Hb Hx), nth_error_middle,
      remove_nth_middle.
    split; [reflexivity|]. rewrite !length_app. simpl. lia.
  - intros H.
    assert (F : findIndex (has_id id) products = None).
    { apply findIndex_None. intros x Hx. apply has_id_false. now apply H. }
    now rewrite F.
Qed.

Lemma delete_removes_the_first_match_witness :
  app "unused" seed delete_smartphone
  = Some (deleted_response seed_smartphone, [seed_laptop; seed_coffee_maker]).
Proof.
  destruct (delete_removes_the_first_match "unused" seed "/api/products/2"
              "2" [] (VObj [])) as [H _].
  destruct H as (b & x & a & E & C & N & H & _).
  - exists seed_smartphone. split; [right; left|]; reflexivity.
  - unfold seed in E. destruct b as [|p0 [|p1 b]]; simpl in E.
    + injection E as <- _. discriminate C.
    + injection E as <- <- <-. exact H.
    + injection E as _ <- _. exfalso.
      apply (N seed_smartphone); [right; left|]; reflexivity.
Defined.

(** X2.  A GET of one record, with or without a key, for an id that is
    not one of the two literal segments: when some record carries the id
    the response is 200 with the first such record; when none does it is
    the 404 NotFoundError; the store is the one before. *)
Theorem get_returns_the_first_match
  (uuid : string) (products : list obj) (url id : string)
  (query : list (string * qval)) (key : option string) (body : value) :
  is_literal_segment id = false ->
  let req := request_of GET url (item_path id) query key body in
  ((exists p, In p products /\ carries_id id p) ->
   exists before found after,
     products = before ++ found :: after
     /\ carries_id id found
     /\ (forall p, In p before -> ~ carries_id id p)
     /\ app uuid products req = Some (json 200 (VObj found), products))
  /\ ((forall p, In p products -> ~ carries_id id p) ->
      app uuid products req = Some (not_found_response id, products)).
Proof.
  intros L req. unfold req. rewrite app_item, item_route.
  apply orb_false_elim in L as [L1 L2]. rewrite L1, L2.
  cbn [run settle param String.eqb Ascii.eqb Bool.eqb].
  unfold getHandler. split.
  - intros (p & I & C).
    destruct (first_match (has_id id) products) as (b & x & a & -> & Hx & Hb).
    { exists p. split; [exact I | now apply has_id_true]. }
    exists b, x, a. split; [reflexivity|].
    split; [now apply has_id_true|].
    split; [now apply Forall_has_id_false|].
    now rewrite (find_at_first _ b a x Hb Hx).
  - intros H. rewrite find_none; [reflexivity|].
    intros x Hx. apply has_id_false. now apply H.
Qed.

Lemma get_returns_the_first_match_witness :
  app "unused" seed get_smartphone
  = Some (json 200 (VObj seed_smartphone), seed).
Proof.
  destruct (get_returns_the_first_match "unused" seed "/api/products/2" "2"
              [] None (VObj []) eq_refl) as [H _].
  destruct H as (b & x & a & E & C & N & H).
  - exists seed_smartphone. split; [right; left|]; reflexivity.
  - unfold seed in E. destruct b as [|p0 [|p1 b]]; simpl in E.
    + injection E as <- _. discriminate C.
    + injection E as _ <- _. exact H.
    + injection E as _ <- _. exfalso.
      apply (N seed_smartphone); [right; left|]; reflexivity.
Defined.

(* ================================================================== *)
(** * Further properties: every request *)

Ltac split_routes F :=
  cbn [find_route routes route_method method_eqb method_name String.eqb
         Ascii.eqb Bool.eqb route_path route_handler] in F;
  repeat match type of F with
    | context [match match_path ?p ?l with _ => _ end] =>
        destruct (match_path p l)
    end.

(** The routes of GET run the handlers that only read. *)
Lemma get_route_reads (path : list string) h params :
  find_route routes GET path = Some (h, params) ->
  h = Root \/ h = ListProducts \/ h = SearchProducts \/ h = ProductStats
  \/ h = GetProduct.
Proof.
  intros F. split_routes F; try discriminate; injection F as <- _; tauto.
Qed.

Lemma create_route_is_post (m : method) (path : list string) params :
  find_route routes m path = Some (CreateProduct, params) -> m = POST.
Proof.
  intros F. destruct m; try reflexivity; split_routes F; discriminate.
Qed.

(** X3.  A GET request never changes the store, whatever its path, query,
    key and body. *)
Theorem get_requests_leave_the_store
  (uuid : string) (products : list obj) (req : request) (res : response)
  (products' : list obj) :
  req_method req = GET ->
  app uuid products req = Some (res, products') ->
  products' = products.
Proof.
  intros M. unfold app. rewrite M.
  destruct (req_body req); [now intros [= _ <-]|].
  destruct (find_route routes GET (req_path req)) as [[h params]|] eqn:F;
    [|now intros [= _ <-]].
  destruct (run h uuid products req params) as [[r s]| |] eqn:R;
    [|now intros [= _ <-]|discriminate].
  intros [= _ <-].
  destruct (get_route_reads _ _ _ F) as [-> | [-> | [-> | [-> | ->]]]];
    simpl in R.
  - now injection R.
  - now apply listHandler_store in R.
  - now apply searchHandler_store in R.
  - now apply statsHandler_store in R.
  - now apply getHandler_store in R.
Qed.

Lemma get_requests_leave_the_store_witness :
  [seed_laptop; seed_smartphone; seed_coffee_maker] = seed.
Proof.
  exact (get_requests_leave_the_store "unused" seed get_smartphone
           (json 200 (VObj seed_smartphone))
           [seed_laptop; seed_smartphone; seed_coffee_maker]
           eq_refl eq_refl).
Defined.

Lemma errorHandler_shape (e : error) :
  exists name message status,
    errorHandler e = json status (error_body name message status)
    /\ In status [400; 401; 404; 500]%Z.
Proof.
  destruct e; simpl; do 3 eexists; (split; [reflexivity|]); simpl; auto.
Qed.

(** What a route answers when it does not throw: 201 from the create
    handler, 200 from the others. *)
Lemma run_status h uuid products req params res products' :
  run h uuid products req params = Ok (res, products') ->
  (h = CreateProduct /\ statusCode res = 201%Z)
  \/ (h <> CreateProduct /\ statusCode res = 200%Z).
Proof.
  intros H. destruct h; simpl in H;
    [right | right | right | right | right | left | right | right];
    (split; [try discriminate; try reflexivity|]).
  - now injection H as <- _.
  - unfold listHandler in H. apply bind_Ok in H as (f & _ & H).
    now injection H as <- _.
  - unfold searchHandler in H.
    destruct (query_get (req_query req) "q"); [|discriminate].
    destruct (negb (q_truthy q)); [discriminate|].
    apply bind_Ok in H as (f & _ & H). now injection H as <- _.
  - unfold statsHandler in H.
    apply bind_Ok in H as (counts & _ & H).
    apply bind_Ok in H as (prices & _ & H).
    destruct (price_stats prices) as [[a mn] mx]. now injection H as <- _.
  - unfold getHandler in H. destruct (find _ products); [|discriminate].
    now injection H as <- _.
  - apply bind_Ok in H as (_ & _ & H). apply bind_Ok in H as (_ & _ & H).
    unfold createHandler in H. apply bind_Ok in H as (o & _ & H).
    now injection H as <- _.
  - apply bind_Ok in H as (_ & _ & H). apply bind_Ok in H as (_ & _ & H).
    unfold updateHandler in H.
    destruct (findIndex _ products); [|discriminate].
    apply bind_Ok in H as (o & _ & H). now injection H as <- _.
  - apply bind_Ok in H as (_ & _ & H). unfold deleteHandler in H.
    destruct (findIndex _ products); [|discriminate].
    now injection H as <- _.
Qed.

Ltac in_known_statuses :=
  unfold known_statuses; simpl; repeat first [left; reflexivity | right].

(** X4.  Whatever the request, the status of the response is one of 200,
    201, 400, 401, 404 and 500; 201 is sent to POST requests only; and a
    response with another status than 200 and 201 has a body of exactly
    the fields error, message and statusCode, the last one equal to the
    status, and comes with the store unchanged. *)
Theorem responses_have_a_known_shape
  (uuid : string) (products : list obj) (req : request) (res : response)
  (products' : list obj) :
  app uuid products req = Some (res, products') ->
  In (statusCode res) known_statuses
  /\ (statusCode res = 201%Z -> req_method req = POST)
  /\ (statusCode res <> 200%Z -> statusCode res <> 201%Z ->
      products' = products
      /\ exists name message,
           payload res = error_body name message (statusCode res)).
Proof.
  assert (E : forall e,
             In (statusCode (errorHandler e)) known_statuses
             /\ (statusCode (errorHandler e) = 201%Z -> req_method req = POST)
             /\ (statusCode (errorHandler e) <> 200%Z ->
                 statusCode (errorHandler e) <> 201%Z ->
                 products = products
                 /\ exists name message,
                      payload (errorHandler e)
                      = error_body name message
                          (statusCode (errorHandler e)))).
  { intros e. destruct (errorHandler_shape e) as (n & m & s & -> & I).
    simpl in *. split; [|split].
    - unfold known_statuses. simpl. intuition.
    - intros ->. intuition discriminate.
    - intros _ _. split; [reflexivity|]. now exists n, m. }
  unfold app. destruct (req_body req).
  - intros [= <- <-]. exact (E BodySyntaxError).
  - destruct (find_route routes (req_method req) (req_path req))
      as [[h params]|] eqn:F.
    + destruct (run h uuid products req params) as [[r s]| |] eqn:R;
        [|intros [= <- <-]; apply E|discriminate].
      intros [= <- <-].
      destruct (run_status _ _ _ _ _ _ _ R) as [[-> S] | [N S]]; rewrite S.
      * split; [in_known_statuses|].
        split; [intros _; eapply create_route_is_post; eauto|].
        intros _ C. now contradiction C.
      * split; [in_known_statuses|].
        split; [discriminate|]. intros C. now contradiction C.
    + intros [= <- <-]. simpl. split; [in_known_statuses|].
      split; [discriminate|]. intros _ _. split; [reflexivity|].
      now do 2 eexists.
Qed.

Lemma responses_have_a_known_shape_witness :
  In 404%Z known_statuses
  /\ (404%Z = 201%Z -> DELETE = POST)
  /\ (404%Z <> 200%Z -> 404%Z <> 201%Z ->
      seed = seed
      /\ exists name message,
           error_body "NotFoundError" (not_found_message "9") 404
           = error_body name message 404).
Proof.
  exact (responses_have_a_known_shape "unused" seed
           (request_of DELETE "/api/products/9" (item_path "9") []
              (Some secret_api_key) (VObj []))
           (not_found_response "9") seed eq_refl).
Defined.

(* ================================================================== *)
(** * Further properties: what the writers leave in the store *)

Section Built.

Variable P : obj -> Prop.
Hypothesis built : forall id body o, build_product id body = Ok o -> P o.

(** A property of every record the writers build, once true of the
    store, stays true whatever request comes. *)
Lemma app_preserves_built uuid products req res products' :
  Forall P products ->
  app uuid products req = Some (res, products') ->
  Forall P products'.
Proof.
  intros WF. unfold app.
  destruct (req_body req); [now intros [= _ <-]|].
  destruct (find_route routes (req_method req) (req_path req))
    as [[h params]|]; [|now intros [= _ <-]].
  destruct (run h uuid products req params) as [[r s]| |] eqn:R;
    [|now intros [= _ <-]|discriminate].
  intros [= _ <-]. destruct h; simpl in R.
  - now injection R as _ <-.
  - apply listHandler_store in R. now subst.
  - apply searchHandler_store in R. now subst.
  - apply statsHandler_store in R. now subst.
  - apply getHandler_store in R. now subst.
  - apply bind_Ok in R as (_ & _ & R). apply bind_Ok in R as (_ & _ & R).
    unfold createHandler in R. apply bind_Ok in R as (o & B & R).
    injection R as _ <-. apply Forall_app. split; [exact WF|].
    constructor; [eapply built; eauto | constructor].
  - apply bind_Ok in R as (_ & _ & R). apply bind_Ok in R as (_ & _ & R).
    unfold updateHandler in R.
    destruct (findIndex _ products); [|discriminate].
    apply bind_Ok in R as (o & B & R). injection R as _ <-.
    apply Forall_set_nth; [exact WF | eapply built; eauto].
  - apply bind_Ok in R as (_ & _ & R). unfold deleteHandler in R.
    destruct (findIndex _ products); [|discriminate].
    injection R as _ <-. now apply Forall_remove_nth.
Qed.

Lemma reachable_built products :
  Forall P seed -> reachable products -> Forall P products.
Proof.
  intros S. induction 1 as [|products uuid req res products' _ IH H].
  - exact S.
  - eapply app_preserves_built; eauto.
Qed.

End Built.

Lemma build_product_normalized id body o :
  build_product id body = Ok o -> normalized o.
Proof.
  intros H.
  apply build_product_shape in H as (n & d & p & c & b & _ & _ & _ & _ & _ & ->).
  exists id, (trim n), (trim d), p, (toLowerCase (trim c)), b.
  rewrite !JsStringFacts.trim_idempotent, JsStringFacts.trim_lower,
    JsStringFacts.trim_idempotent, JsStringFacts.toLowerCase_idempotent.
  tauto.
Qed.

Lemma seed_normalized : Forall normalized seed.
Proof.
  repeat constructor;
    (eexists _, _, _, _, _, _; split; [reflexivity|]);
    repeat split; reflexivity.
Qed.

Lemma reachable_normalized (products : list obj) :
  reachable products -> Forall normalized products.
Proof.
  apply reachable_built; [apply build_product_normalized|].
  apply seed_normalized.
Qed.

(** X5.  In every reachable store the text fields are sanitized: name,
    description and category have no white space at either end, and the
    category is in lower case. *)
Theorem stored_text_is_sanitized (products : list obj) :
  reachable products -> Forall normalized products.
Proof. apply reachable_normalized. Qed.

Lemma stored_text_is_sanitized_witness : Forall normalized (seed ++ [lamp]).
Proof.
  exact (stored_text_is_sanitized (seed ++ [lamp]) lamp_store_reachable).
Defined.

(* ================================================================== *)
(** * Further properties: the filters of the list *)

Lemma filter_by_category_string (query : list (string * qval))
  (products : list obj) (c : string) :
  Forall well_formed products -> Forall normalized products ->
  query_get query "category" = Some (QStr c) ->
  filter_by_category query products
  = Ok (if is_empty c then products else filter (has_category c) products).
Proof.
  intros WF NF Q. unfold filter_by_category. rewrite Q. cbn [q_truthy].
  destruct (is_empty c); [reflexivity|]. cbn [negb].
  apply filterM_pure. rewrite Forall_forall in *. intros p I.
  destruct (NF p I) as (id & n & d & price & k & b & -> & _ & _ & _ & L).
  unfold has_category. simpl. now rewrite L.
Qed.

(** X6.  A list request whose category is a text, on a reachable store:
    an empty text filters nothing; any other text keeps, in store order,
    the records whose stored category is that text in lower case; the
    inStock filter and the pagination then work on what is kept, and the
    store is the one before. *)
Theorem category_filter_compares_in_lower_case
  (uuid : string) (products : list obj) (url : string)
  (query : list (string * qval)) (key : option string) (body : value)
  (c : string) :
  reachable products ->
  query_get query "category" = Some (QStr c) ->
  let kept :=
    if is_empty c then products else filter (has_category c) products in
  app uuid products (request_of GET url products_path query key body)
  = Some (paginate query (filter_by_inStock query kept), products)
  /\ (forall p,
        In p (filter (has_category c) products)
        <-> In p products /\ get p "category" = VStr (toLowerCase c)).
Proof.
  intros R Q kept.
  pose proof (reachable_well_formed _ R) as WF.
  pose proof (reachable_normalized _ R) as NF. split.
  - change (app uuid products
              (request_of GET url products_path query key body))
      with (settle products
              (listHandler products
                 (request_of GET url products_path query key body))).
    unfold listHandler. cbn [req_query request_of].
    now rewrite (filter_by_category_string query products c WF NF Q).
  - intros p. rewrite filter_In. split; intros [I H]; (split; [exact I|]).
    + rewrite Forall_forall in WF.
      destruct (WF p I) as (id & n & d & q & k & b & -> & _).
      unfold has_category in H. simpl in H. apply String.eqb_eq in H.
      simpl. now rewrite H.
    + unfold has_category. rewrite H. apply String.eqb_refl.
Qed.

Lemma category_filter_compares_in_lower_case_witness :
  app "unused" seed
    (get_list "/api/products?category=KITCHEN" [("category", QStr "KITCHEN")])
  = Some (paginate [("category", QStr "KITCHEN")] [seed_coffee_maker], seed).
Proof.
  exact (proj1 (category_filter_compares_in_lower_case "unused" seed
                  "/api/products?category=KITCHEN"
                  [("category", QStr "KITCHEN")] None (VObj []) "KITCHEN"
                  reachable_seed eq_refl)).
Defined.

(** X7.  A list request without a category and with an inStock value, on
    a reachable store: the value 'true' keeps the records that are in
    stock, and every other value (another spelling, an empty text, a
    repeated parameter) keeps the records that are not; the two
    selections split the store between them. *)
Theorem inStock_filter_reads_only_true
  (uuid : string) (products : list obj) (url : string)
  (query : list (string * qval)) (key : option string) (body : value)
  (v : qval) :
  reachable products ->
  query_get query "category" = None ->
  query_get query "inStock" = Some v ->
  let kept := filter (has_stock (asks_in_stock v)) products in
  app uuid products (request_of GET url products_path query key body)
  = Some (paginate query kept, products)
  /\ (forall p,
        In p kept
        <-> In p products /\ get p "inStock" = VBool (asks_in_stock v))
  /\ (List.length (filter (has_stock true) products)
      + List.length (filter (has_stock false) products)
      = List.length products)%nat.
Proof.
  intros R C S kept.
  pose proof (reachable_well_formed _ R) as WF. split; [|split].
  - change (app uuid products
              (request_of GET url products_path query key body))
      with (settle products
              (listHandler products
                 (request_of GET url products_path query key body))).
    unfold listHandler, filter_by_category, filter_by_inStock.
    cbn [req_query request_of]. now rewrite C, S.
  - intros p. unfold kept. rewrite filter_In.
    split; intros [I H]; (split; [exact I|]).
    + rewrite Forall_forall in WF.
      destruct (WF p I) as (id & n & d & q & k & b & -> & _).
      unfold has_stock in H. simpl in *. now apply Bool.eqb_prop in H as ->.
    + unfold has_stock. rewrite H. simpl. apply Bool.eqb_reflx.
  - clear kept R. induction WF as [|p l Hp _ IH]; [reflexivity|].
    assert (E : has_stock false p = negb (has_stock true p)).
    { destruct Hp as (id & n & d & q & k & b & -> & _). now destruct b. }
    cbn [filter]. rewrite E.
    destruct (has_stock true p); cbn [negb List.length]; lia.
Qed.

Lemma inStock_filter_reads_only_true_witness :
  app "unused" seed
    (get_list "/api/products?inStock=TRUE" [("inStock", QStr "TRUE")])
  = Some (paginate [("inStock", QStr "TRUE")] [seed_coffee_maker], seed).
Proof.
  exact (proj1 (inStock_filter_reads_only_true "unused" seed
                  "/api/products?inStock=TRUE" [("inStock", QStr "TRUE")]
                  None (VObj []) (QStr "TRUE") reachable_seed eq_refl
                  eq_refl)).
Defined.

(* ================================================================== *)
(** * Further properties: pages *)

Lemma slice_firstn_skipn {A : Type} (l : list A) (a b : Z) :
  (0 <= a)%Z -> (0 <= b)%Z ->
  slice l a b = firstn (Z.to_nat (b - a)) (skipn (Z.to_nat a) l).
Proof.
  intros Ha Hb. rewrite slice_window by assumption.
  unfold window. rewrite window_from_spec.
  replace (Z.max a 0) with a by lia. now replace (a - 0)%Z with a by lia.
Qed.

Lemma firstn_plus {A : Type} (n m : nat) (l : list A) :
  firstn (n + m) l = firstn n l ++ firstn m (skipn n l).
Proof.
  revert l; induction n as [|n IH]; intros [|x l]; simpl;
    try reflexivity.
  - now rewrite firstn_nil.
  - now rewrite IH.
Qed.

(** X8.  For a page and a limit that are whole numbers at least 1, with
    page*limit at most [Number.MAX_SAFE_INTEGER], the slice the list
    handler cuts has at most limit records; it is empty exactly when the
    page lies after totalPages, which is the exact ceiling of
    length/limit; the pages before it followed by it are the first
    page*limit records; and from page totalPages on, the pages so far
    are the whole filtered list. *)
Theorem pages_tile_the_list {A : Type} (l : list A) (limit page : Z) :
  (1 <= limit)%Z -> (1 <= page)%Z ->
  (page * limit <= MAX_SAFE_INTEGER)%Z ->
  (Z.of_nat (List.length l) <= MAX_SAFE_INTEGER)%Z ->
  let lim := Fin (inject_Z limit) in
  let pg := Fin (inject_Z page) in
  let totalPages := ceil_div (Z.of_nat (List.length l)) limit in
  let current := slice_numbers l (start_index pg lim) (end_index pg lim) in
  total_pages (Z.of_nat (List.length l)) lim = Fin (inject_Z totalPages)
  /\ (Z.of_nat (List.length current) <= limit)%Z
  /\ (current = [] <-> (totalPages < page)%Z)
  /\ slice_numbers l (Fin (inject_Z 0)) (start_index pg lim) ++ current
     = slice_numbers l (Fin (inject_Z 0)) (end_index pg lim)
  /\ ((totalPages <= page)%Z ->
      slice_numbers l (Fin (inject_Z 0)) (end_index pg lim) = l).
Proof.
  intros Hl Hp Safe Small lim pg totalPages current.
  pose proof (ceil_div_bounds (Z.of_nat (List.length l)) limit Hl) as B.
  fold totalPages in B.
  assert (0 <= totalPages)%Z by nia.
  split; [apply total_pages_exact; nia|].
  unfold current, lim, pg.
  rewrite start_index_exact, end_index_exact by assumption.
  rewrite !slice_numbers_integers.
  rewrite !slice_firstn_skipn by nia.
  replace (page * limit - (page - 1) * limit)%Z with limit by lia.
  rewrite !Z.sub_0_r. change (Z.to_nat 0) with 0%nat. cbn [skipn].
  split; [|split; [|split]].
  - rewrite length_firstn. lia.
  - split.
    + intros E. apply (f_equal (@List.length A)) in E.
      rewrite length_firstn, length_skipn in E. simpl in E. nia.
    + intros T. rewrite skipn_all2 by nia. apply firstn_nil.
  - replace (Z.to_nat (page * limit))
      with (Z.to_nat ((page - 1) * limit) + Z.to_nat limit)%nat by nia.
    symmetry. apply firstn_plus.
  - intros Last. apply firstn_all2. nia.
Qed.

Lemma pages_tile_the_list_witness :
  slice_numbers seed (Fin (inject_Z 0)) (Fin (inject_Z 2))
  ++ slice_numbers seed (Fin (inject_Z 2)) (Fin (inject_Z 4))
  = slice_numbers seed (Fin (inject_Z 0)) (Fin (inject_Z 4))
  /\ slice_numbers seed (Fin (inject_Z 0)) (Fin (inject_Z 4)) = seed.
Proof.
  destruct (pages_tile_the_list seed 2 2) as (_ & _ & _ & T & W).
  - lia.
  - lia.
  - vm_compute. discriminate.
  - vm_compute. discriminate.
  - split; [exact T|]. apply W. vm_compute. discriminate.
Defined.

(* ================================================================== *)
(** * Further properties: ids *)

Lemma NoDup_snoc {A : Type} (l : list A) (x : A) :
  NoDup l -> ~ In x l -> NoDup (l ++ [x]).
Proof.
  intros N. induction N as [|y l Hy _ IH]; intros I; simpl.
  - constructor; [intros []|constructor].
  - constructor.
    + rewrite in_app_iff. intros [H | [-> | []]]; [auto|].
      apply I. now left.
    + apply IH. intros H. apply I. now right.
Qed.

Lemma build_product_id id body o :
  build_product id body = Ok o -> get o "id" = VStr id.
Proof.
  intros H.
  now apply build_product_shape in H
    as (n & d & p & c & b & _ & _ & _ & _ & _ & ->).
Qed.

(** X9.  If no two records carry the same id and the generated id is
    carried by none, then whatever the request, no two records of the
    store it leaves carry the same id. *)
Theorem ids_stay_unique
  (uuid : string) (products : list obj) (req : request) (res : response)
  (products' : list obj) :
  ids_unique products ->
  (forall p, In p products -> ~ carries_id uuid p) ->
  app uuid products req = Some (res, products') ->
  ids_unique products'.
Proof.
  intros U Fresh. unfold app.
  destruct (req_body req); [now intros [= _ <-]|].
  destruct (find_route routes (req_method req) (req_path req))
    as [[h params]|]; [|now intros [= _ <-]].
  destruct (run h uuid products req params) as [[r s]| |] eqn:R;
    [|now intros [= _ <-]|discriminate].
  intros [= _ <-]. destruct h; simpl in R.
  - now injection R as _ <-.
  - apply listHandler_store in R. now subst.
  - apply searchHandler_store in R. now subst.
  - apply statsHandler_store in R. now subst.
  - apply getHandler_store in R. now subst.
  - apply bind_Ok in R as (_ & _ & R). apply bind_Ok in R as (_ & _ & R).
    unfold createHandler in R. apply bind_Ok in R as (o & B & R).
    injection R as _ <-. unfold ids_unique. rewrite map_app. simpl.
    rewrite (build_product_id _ _ _ B). apply NoDup_snoc; [exact U|].
    rewrite in_map_iff. intros (p & E & I). exact (Fresh p I E).
  - apply bind_Ok in R as (_ & _ & R). apply bind_Ok in R as (_ & _ & R).
    unfold updateHandler in R.
    destruct (findIndex _ products) as [i|] eqn:F; [|discriminate].
    apply bind_Ok in R as (o & B & R). injection R as _ <-.
    destruct (findIndex_first _ _ _ F) as (b & x & a & -> & <- & Hx & _).
    rewrite set_nth_middle. unfold ids_unique in *.
    rewrite map_app in *. simpl in *.
    apply has_id_true in Hx. now rewrite (build_product_id _ _ _ B), <- Hx.
  - apply bind_Ok in R as (_ & _ & R). unfold deleteHandler in R.
    destruct (findIndex _ products) as [i|] eqn:F; [|discriminate].
    injection R as _ <-.
    destruct (findIndex_first _ _ _ F) as (b & x & a & -> & <- & _ & _).
    rewrite remove_nth_middle. unfold ids_unique in *.
    rewrite map_app in *. simpl in U. now apply NoDup_remove_1 in U.
Qed.

Lemma seed_ids_unique : ids_unique seed.
Proof.
  unfold ids_unique. simpl.
  repeat constructor; simpl; intuition discriminate.
Qed.

Lemma ids_stay_unique_witness : ids_unique (seed ++ [lamp]).
Proof.
  apply (ids_stay_unique "uuid-1" seed create_lamp (created_response lamp)).
  - exact seed_ids_unique.
  - intros p [<- | [<- | [<- | []]]]; discriminate.
  - reflexivity.
Defined.

(* ================================================================== *)
(** * Further properties: how the operations compose *)

(** A create request that got through the two middlewares. *)
Lemma app_create_validated uuid products url query body :
  validateProduct (post_request url query body) = Ok tt ->
  exists o,
    build_product uuid body = Ok o
    /\ well_formed o
    /\ app uuid products (post_request url query body)
       = Some (created_response o, products ++ [o]).
Proof.
  intros V.
  destruct (validateProduct_ok _ V)
    as (n & d & p & c & b & Hn & Hd & Hp & Hc & Hb & ? & ? & ? & ?).
  change (body_value (post_request url query body)) with body in *.
  pose proof (build_product_validated uuid _ _ _ _ _ _ Hn Hd Hp Hc Hb) as B.
  eexists. split; [exact B|]. split; [now apply well_formed_built|].
  unfold app, post_request.
  cbn [req_body request_of req_method req_path].
  change (find_route routes POST products_path)
    with (Some (CreateProduct, @nil (string * string))).
  cbv iota. unfold run. fold (post_request url query body). rewrite V.
  change (authMiddleware (post_request url query body)) with (Ok tt).
  cbn [bind]. unfold createHandler.
  change (body_value (post_request url query body)) with body.
  now rewrite B.
Qed.

(** An update request that got through the two middlewares. *)
Lemma app_update_validated uuid products url id query body :
  validateProduct (put_request url id query body) = Ok tt ->
  exists o,
    build_product id body = Ok o
    /\ well_formed o
    /\ app uuid products (put_request url id query body)
       = match findIndex (has_id id) products with
         | Some i => Some (updated_response o, set_nth products i o)
         | None => Some (not_found_response id, products)
         end.
Proof.
  intros V.
  destruct (validateProduct_ok _ V)
    as (n & d & p & c & b & Hn & Hd & Hp & Hc & Hb & ? & ? & ? & ?).
  change (body_value (put_request url id query body)) with body in *.
  pose proof (build_product_validated id _ _ _ _ _ _ Hn Hd Hp Hc Hb) as B.
  eexists. split; [exact B|]. split; [now apply well_formed_built|].
  unfold put_request. rewrite app_item, item_route.
  fold (put_request url id query body).
  cbn [run settle param String.eqb Ascii.eqb Bool.eqb]. rewrite V.
  change (authMiddleware (put_request url id query body)) with (Ok tt).
  cbn [bind]. unfold updateHandler.
  change (body_value (put_request url id query body)) with body.
  destruct (findIndex (has_id id) products); [|reflexivity].
  now rewrite B.
Qed.

(** X10.  After a create request that passes validation, with a generated
    id that no record carried and that is not a literal segment, a GET of
    that id on the store the create left answers 200 with the very record
    the create answered with. *)
Theorem created_record_can_be_fetched
  (uuid : string) (products : list obj) (url : string)
  (query : list (string * qval)) (body : value) :
  validateProduct (post_request url query body) = Ok tt ->
  (forall p, In p products -> ~ carries_id uuid p) ->
  is_literal_segment uuid = false ->
  exists newProduct,
    app uuid products (post_request url query body)
    = Some (created_response newProduct, products ++ [newProduct])
    /\ forall uuid' url' query' key' body',
         app uuid' (products ++ [newProduct])
           (request_of GET url' (item_path uuid) query' key' body')
         = Some (json 200 (VObj newProduct), products ++ [newProduct]).
Proof.
  intros V Fresh L.
  destruct (app_create_validated uuid products url query body V)
    as (o & B & _ & E).
  exists o. split; [exact E|]. intros uuid' url' query' key' body'.
  rewrite app_item, item_route.
  apply orb_false_elim in L as [L1 L2]. rewrite L1, L2.
  cbn [run settle param String.eqb Ascii.eqb Bool.eqb]. unfold getHandler.
  rewrite (find_at_first (has_id uuid) products [] o); [reflexivity| |].
  - now apply Forall_has_id_false.
  - apply has_id_true. eapply build_product_id; eauto.
Qed.

Lemma created_record_can_be_fetched_witness :
  app "unused" (seed ++ [lamp]) get_lamp
  = Some (json 200 (VObj lamp), seed ++ [lamp]).
Proof.
  destruct (created_record_can_be_fetched "uuid-1" seed "/api/products" []
              lamp_body eq_refl) as (o & E & G).
  - intros p [<- | [<- | [<- | []]]]; discriminate.
  - reflexivity.
  - change (post_request "/api/products" [] lamp_body) with create_lamp in E.
    assert (o = lamp) as ->.
    { assert (H : Some (created_response o, seed ++ [o])
                  = Some (created_response lamp, seed ++ [lamp]))
        by (rewrite <- E; reflexivity).
      now injection H. }
    apply G.
Defined.

(** X11.  After an update that passes validation, of an id some record
    carries and that is not a literal segment, a GET of that id answers
    200 with the very record the update answered with. *)
Theorem updated_record_can_be_fetched
  (uuid : string) (products : list obj) (url id : string)
  (query : list (string * qval)) (body : value) :
  validateProduct (put_request url id query body) = Ok tt ->
  (exists p, In p products /\ carries_id id p) ->
  is_literal_segment id = false ->
  exists updated products',
    app uuid products (put_request url id query body)
    = Some (updated_response updated, products')
    /\ List.length products' = List.length products
    /\ forall uuid' url' query' key' body',
         app uuid' products'
           (request_of GET url' (item_path id) query' key' body')
         = Some (json 200 (VObj updated), products').
Proof.
  intros V (p & I & C) L.
  destruct (app_update_validated uuid products url id query body V)
    as (o & B & _ & E).
  destruct (first_match (has_id id) products) as (b & x & a & -> & Hx & Hb).
  { exists p. split; [exact I | now apply has_id_true]. }
  rewrite (findIndex_at_first _ b a x Hb Hx), set_nth_middle in E.
  exists o, (b ++ o :: a). split; [exact E|].
  split; [rewrite !length_app; reflexivity|].
  intros uuid' url' query' key' body'.
  rewrite app_item, item_route.
  apply orb_false_elim in L as [L1 L2]. rewrite L1, L2.
  cbn [run settle param String.eqb Ascii.eqb Bool.eqb]. unfold getHandler.
  rewrite (find_at_first (has_id id) b a o Hb); [reflexivity|].
  apply has_id_true. eapply build_product_id; eauto.
Qed.

Lemma updated_record_can_be_fetched_witness :
  exists updated products',
    app "unused" seed update_smartphone
    = Some (updated_response updated, products')
    /\ List.length products' = 3%nat
    /\ forall uuid' url' query' key' body',
         app uuid' products'
           (request_of GET url' (item_path "2") query' key' body')
         = Some (json 200 (VObj updated), products').
Proof.
  apply (updated_record_can_be_fetched "unused" seed "/api/products/2" "2"
           [] smartphone_body eq_refl).
  - exists seed_smartphone. split; [right; left|]; reflexivity.
  - reflexivity.
Defined.

Lemma put_route_updates (path : list string) h params :
  find_route routes PUT path = Some (h, params) ->
  h = UpdateProduct /\ exists id, params = [("id", id)].
Proof.
  intros F. cbn [find_route routes route_method method_eqb method_name
    String.eqb Ascii.eqb Bool.eqb route_path route_handler] in F.
  destruct path as [|s0 [|s1 [|s2 [|s3 path]]]]; cbn in F;
    try discriminate;
    repeat match type of F with
      | context [if ?c then _ else _] => destruct c
      end; try discriminate; injection F as <- <-; eauto.
Qed.

(** X12.  PUT is idempotent: sending the request a second time, to the
    store the first one left, gives the same response and leaves that
    same store, whatever the path, key and body. *)
Theorem put_twice_is_put_once
  (uuid uuid' : string) (products : list obj) (req : request)
  (res : response) (products' : list obj) :
  req_method req = PUT ->
  app uuid products req = Some (res, products') ->
  app uuid' products' req = Some (res, products').
Proof.
  intros M. unfold app. rewrite M.
  destruct (req_body req); [now intros [= <- <-]|].
  destruct (find_route routes PUT (req_path req)) as [[h params]|] eqn:F;
    [|now intros [= <- <-]].
  destruct (put_route_updates _ _ _ F) as (-> & id & ->).
  cbn [run param String.eqb Ascii.eqb Bool.eqb].
  destruct (authMiddleware req) as [[]|e|]; cbn [bind];
    [|now intros [= <- <-]|discriminate].
  destruct (validateProduct req) as [[]|e|]; cbn [bind];
    [|now intros [= <- <-]|discriminate].
  unfold updateHandler.
  destruct (findIndex (has_id id) products) as [i|] eqn:I.
  - destruct (build_product id (body_value req)) as [o|e|] eqn:B;
      cbn [bind]; [|intros [= <- <-]; now rewrite I|discriminate].
    intros [= <- <-].
    destruct (findIndex_first _ _ _ I) as (b & x & a & -> & <- & _ & Hb).
    rewrite set_nth_middle.
    rewrite (findIndex_at_first (has_id id) b a o Hb)
      by (apply has_id_true; eapply build_product_id; eauto).
    cbn [bind]. now rewrite set_nth_middle.
  - intros [= <- <-]. now rewrite I.
Qed.

Lemma put_twice_is_put_once_witness :
  app "other" [seed_laptop; cheaper_smartphone; seed_coffee_maker]
    update_smartphone
  = Some (updated_response cheaper_smartphone,
          [seed_laptop; cheaper_smartphone; seed_coffee_maker]).
Proof.
  exact (put_twice_is_put_once "unused" "other" seed update_smartphone
           (updated_response cheaper_smartphone)
           [seed_laptop; cheaper_smartphone; seed_coffee_maker]
           eq_refl eq_refl).
Defined.

(** X13.  The checks of a write come in a fixed order.  Without the secret
    key a POST or PUT is answered 401 whatever the body and the id; with
    the key and a body that violates a rule it is answered 400 with all
    violations, also for an id no record carries; the store is the one
    before in each case. *)
Theorem checks_come_in_order
  (uuid : string) (products : list obj) (url id : string)
  (query : list (string * qval)) (key : option string) (o : obj) :
  key <> Some secret_api_key ->
  violations o <> [] ->
  app uuid products (request_of POST url products_path query key (VObj o))
  = Some (json 401
            (error_body "AuthenticationError" authentication_message 401),
          products)
  /\ app uuid products (request_of PUT url (item_path id) query key (VObj o))
     = Some (json 401
               (error_body "AuthenticationError" authentication_message 401),
             products)
  /\ app uuid products (post_request url query (VObj o))
     = Some (validation_response (join ", " (violations o)), products)
  /\ app uuid products (put_request url id query (VObj o))
     = Some (validation_response (join ", " (violations o)), products).
Proof.
  intros K V.
  assert (A : forall m path,
             m <> GET ->
             authMiddleware (request_of m url path query key (VObj o))
             = Throw (AuthenticationError authentication_message)).
  { intros m path N. rewrite authMiddleware_spec. simpl.
    assert (C : credential_ok key = false).
    { unfold credential_ok. destruct key as [k|]; [|reflexivity].
      destruct (String.eqb_spec k secret_api_key); [|reflexivity].
      subst. now contradiction K. }
    rewrite C. now destruct m. }
  assert (W : forall m path,
             validateProduct
               (request_of m url path query (Some secret_api_key) (VObj o))
             = Throw (ValidationError (join ", " (violations o)))).
  { intros m path. unfold validateProduct, request_of, body_value; simpl.
    rewrite validation_errors_spec.
    destruct (violations o); [now contradiction V | reflexivity]. }
  split; [|split; [|split]].
  - unfold app. cbn [req_body request_of req_method req_path].
    change (find_route routes POST products_path)
      with (Some (CreateProduct, @nil (string * string))).
    cbv iota. unfold run. rewrite A by discriminate. reflexivity.
  - rewrite app_item, item_route. unfold run.
    rewrite A by discriminate. reflexivity.
  - unfold post_request, app.
    cbn [req_body request_of req_method req_path].
    change (find_route routes POST products_path)
      with (Some (CreateProduct, @nil (string * string))).
    cbv iota. unfold run. rewrite W.
    change (authMiddleware _) with (Ok tt). reflexivity.
  - unfold put_request. rewrite app_item, item_route. unfold run.
    rewrite W. change (authMiddleware _) with (Ok tt). reflexivity.
Qed.

Lemma checks_come_in_order_witness :
  app "unused" seed
    (request_of PUT "/api/products/9" (item_path "9") [] None
       (VObj blank_body))
  = Some (json 401
            (error_body "AuthenticationError" authentication_message 401),
          seed)
  /\ app "unused" seed (put_request "/api/products/9" "9" [] (VObj blank_body))
     = Some (validation_response
               (name_message ++ ", " ++ price_message), seed).
Proof.
  destruct (checks_come_in_order "unused" seed "/api/products/9" "9" []
              None blank_body) as (_ & U & _ & V).
  - discriminate.
  - discriminate.
  - split; [exact U | exact V].
Defined.

(** X14.  Stored records are fixed points of the writers: on a reachable
    store, a PUT whose body is the first record that carries the id, as
    it is stored, passes validation and leaves every record, that one
    included, as it was. *)
Theorem resubmitting_a_record_changes_nothing
  (uuid : string) (before after : list obj) (p : obj) (url id : string)
  (query : list (string * qval)) :
  reachable (before ++ p :: after) ->
  carries_id id p ->
  (forall q, In q before -> ~ carries_id id q) ->
  app uuid (before ++ p :: after) (put_request url id query (VObj p))
  = Some (updated_response p, before ++ p :: after).
Proof.
  intros R C N.
  pose proof (reachable_well_formed _ R) as WF.
  pose proof (reachable_normalized _ R) as NF.
  rewrite Forall_forall in WF, NF.
  assert (I : In p (before ++ p :: after))
    by (apply in_or_app; right; now left).
  destruct (WF p I) as (i0 & n & d & q & c & b & E & Hn & Hd & Hq & Hc).
  destruct (NF p I) as (i1 & n1 & d1 & q1 & c1 & b1 & E1 & Tn & Td & Tc & Lc).
  rewrite E in E1. injection E1 as <- <- <- <- <- <-.
  assert (i0 = id) as ->.
  { unfold carries_id in C. rewrite E in C. now injection C. }
  assert (V : validateProduct (put_request url id query (VObj p)) = Ok tt).
  { unfold validateProduct, put_request, request_of, body_value; simpl.
    rewrite validation_errors_spec.
    pose proof (proj2 (well_formed_rules p (WF p I))) as PV.
    unfold passes_validation in PV. rewrite validation_errors_spec in PV.
    now rewrite PV. }
  destruct (app_update_validated uuid (before ++ p :: after) url id query
              (VObj p) V) as (o & B & _ & A).
  rewrite A.
  rewrite (findIndex_at_first (has_id id) before after p)
    by (try apply Forall_has_id_false; try apply has_id_true; assumption).
  rewrite set_nth_middle.
  assert (o = p) as ->; [|reflexivity].
  rewrite E in B. unfold build_product in B. simpl in B.
  rewrite Tn, Td, Tc, Lc in B. rewrite E. now injection B.
Qed.

Lemma resubmitting_a_record_changes_nothing_witness :
  app "unused" seed
    (put_request "/api/products/2" "2" [] (VObj seed_smartphone))
  = Some (updated_response seed_smartphone, seed).
Proof.
  apply (resubmitting_a_record_changes_nothing "unused" [seed_laptop]
           [seed_coffee_maker] seed_smartphone "/api/products/2" "2" []).
  - exact reachable_seed.
  - reflexivity.
  - intros q [<- | []]. discriminate.
Defined.

Lemma stock_partition (products : list obj) :
  Forall well_formed products ->
  (List.length (filter (has_stock true) products)
   + List.length (filter (has_stock false) products)
   = List.length products)%nat.
Proof.
  induction 1 as [|p l Hp _ IH]; [reflexivity|].
  assert (E : has_stock false p = negb (has_stock true p)).
  { destruct Hp as (id & n & d & q & k & b & -> & _). now destruct b. }
  cbn [filter]. rewrite E.
  destruct (has_stock true p); cbn [negb List.length]; lia.
Qed.

Lemma prices_are_price_of (products : list obj) :
  Forall well_formed products ->
  mapM price_number products = Ok (map price_of products).
Proof.
  induction 1 as [|p l (id & n & d & q & c & b & -> & _) _ IH];
    [reflexivity|].
  cbn [mapM map].
  change (price_number (product_literal id n d (VNum q) c (VBool b)))
    with (Ok q).
  cbn [bind]. now rewrite IH.
Qed.

(** X15.  The statistics of a reachable store are consistent with the
    records: the in-stock and out-of-stock counts add up to the total,
    which is the number of records; and when there is a record, min and
    max are the prices of two records that bound the price of every
    record. *)
Theorem statistics_agree_with_the_records
  (uuid : string) (products : list obj) (url : string)
  (query : list (string * qval)) (key : option string) (body : value) :
  reachable products ->
  exists res a b,
    app uuid products (request_of GET url stats_path query key body)
    = Some (res, products)
    /\ stats_field res "inStockCount" = VInt (Z.of_nat a)
    /\ stats_field res "outOfStockCount" = VInt (Z.of_nat b)
    /\ stats_field res "totalProducts" = VInt (Z.of_nat (a + b))
    /\ (a + b)%nat = List.length products
    /\ (products <> [] ->
        exists cheapest dearest,
          In cheapest products /\ In dearest products
          /\ range_field res "min" = VNum (price_of cheapest)
          /\ range_field res "max" = VNum (price_of dearest)
          /\ (forall p, In p products ->
                (price_of cheapest <= price_of p <= price_of dearest)%Q)).
Proof.
  intros R. pose proof (reachable_well_formed _ R) as WF.
  destruct (statistics_of_well_formed_store products WF)
    as (res & prices & E & P & _ & _ & T & I & O & _ & _ & Rg).
  rewrite (prices_are_price_of products WF) in P. injection P as <-.
  exists res, (List.length (filter (has_stock true) products)),
    (List.length (filter (has_stock false) products)).
  split.
  { change (app uuid products (request_of GET url stats_path query key body))
      with (settle products (statsHandler products)). now rewrite E. }
  split; [exact I|]. split; [exact O|].
  rewrite (stock_partition products WF). split; [exact T|].
  split; [reflexivity|]. intros NE.
  destruct products as [|p0 ps]; [now contradiction NE|].
  cbn [map] in Rg. cbn [price_stats fst snd] in Rg.
  destruct (Math_min_spec (map price_of ps) (price_of p0)) as [Imin Bmin].
  destruct (Math_max_spec (map price_of ps) (price_of p0)) as [Imax Bmax].
  change (price_of p0 :: map price_of ps)
    with (map price_of (p0 :: ps)) in Imin, Bmin, Imax, Bmax.
  apply in_map_iff in Imin as (c & Ec & Ic).
  apply in_map_iff in Imax as (x & Ex & Ix).
  exists c, x. split; [exact Ic|]. split; [exact Ix|].
  unfold range_field. rewrite Rg. cbn [get String.eqb Ascii.eqb Bool.eqb].
  rewrite Ec, Ex. split; [reflexivity|]. split; [reflexivity|].
  intros p Ip. rewrite Forall_forall in Bmin, Bmax. split.
  - apply Bmin. now apply in_map.
  - apply Bmax. now apply in_map.
Qed.

Lemma statistics_agree_with_the_records_witness :
  exists res a b,
    app "unused" seed get_stats = Some (res, seed)
    /\ stats_field res "inStockCount" = VInt (Z.of_nat a)
    /\ stats_field res "outOfStockCount" = VInt (Z.of_nat b)
    /\ stats_field res "totalProducts" = VInt (Z.of_nat (a + b))
    /\ (a + b)%nat = 3%nat.
Proof.
  destruct (statistics_agree_with_the_records "unused" seed
              "/api/products/stats" [] None (VObj []) reachable_seed)
    as (res & a & b & E & I & O & T & L & _).
  exists res, a, b. repeat split; assumption.
Defined.

(** X16.  When no two records carry the same id, a DELETE that is
    answered 200 leaves no record with that id: a GET of it (for an id
    that is not a literal segment) and a second DELETE are both answered
    with the 404 NotFoundError. *)
Theorem deleted_record_is_gone
  (uuid : string) (products : list obj) (url id : string)
  (query : list (string * qval)) (body : value) (res : response)
  (products' : list obj) :
  ids_unique products ->
  is_literal_segment id = false ->
  app uuid products (delete_request url id query body)
  = Some (res, products') ->
  statusCode res = 200%Z ->
  (forall p, In p products' -> ~ carries_id id p)
  /\ (forall uuid' url' query' key' body',
        app uuid' products'
          (request_of GET url' (item_path id) query' key' body')
        = Some (not_found_response id, products'))
  /\ (forall uuid' url' query' body',
        app uuid' products' (delete_request url' id query' body')
        = Some (not_found_response id, products')).
Proof.
  intros U L A S.
  unfold delete_request in A. rewrite app_item, item_route in A.
  cbn [run settle param String.eqb Ascii.eqb Bool.eqb] in A.
  change (authMiddleware _) with (Ok tt) in A. cbn [bind] in A.
  unfold deleteHandler in A.
  destruct (findIndex (has_id id) products) as [i|] eqn:F;
    [|injection A as <- _; discriminate S].
  injection A as _ <-.
  destruct (findIndex_first _ _ _ F) as (b & x & a & -> & <- & Hx & _).
  rewrite remove_nth_middle.
  assert (G : forall p, In p (b ++ a) -> ~ carries_id id p).
  { intros p I C. unfold ids_unique in U. rewrite map_app in U. simpl in U.
    apply NoDup_remove_2 in U. apply U. apply has_id_true in Hx.
    unfold carries_id in C. rewrite Hx, <- map_app, <- C.
    exact (in_map (fun q => get q "id") _ _ I). }
  split; [exact G|]. split.
  - intros uuid' url' query' key' body'. rewrite app_item, item_route.
    apply orb_false_elim in L as [L1 L2]. rewrite L1, L2.
    cbn [run settle param String.eqb Ascii.eqb Bool.eqb]. unfold getHandler.
    rewrite find_none; [reflexivity|].
    intros p I. apply has_id_false. now apply G.
  - intros uuid' url' query' body'. unfold delete_request.
    rewrite app_item, item_route.
    cbn [run settle param String.eqb Ascii.eqb Bool.eqb].
    change (authMiddleware _) with (Ok tt). cbn [bind]. unfold deleteHandler.
    assert (N : findIndex (has_id id) (b ++ a) = None).
    { apply findIndex_None. intros p I. apply has_id_false. now apply G. }
    now rewrite N.
Qed.

Lemma deleted_record_is_gone_witness :
  app "unused" [seed_laptop; seed_coffee_maker] get_smartphone
  = Some (not_found_response "2", [seed_laptop; seed_coffee_maker]).
Proof.
  destruct (deleted_record_is_gone "unused" seed "/api/products/2" "2" []
              (VObj []) (deleted_response seed_smartphone)
              [seed_laptop; seed_coffee_maker] seed_ids_unique eq_refl
              eq_refl eq_refl) as (_ & G & _).
  apply G.
Defined.

(** X17.  On a reachable store the statistics map every category that is
    not the name of an inherited object property to the number of records
    that carry it, and have no entry for such a category that no record
    carries. *)
Theorem ordinary_categories_are_counted
  (uuid : string) (products : list obj) (url : string)
  (query : list (string * qval)) (key : option string) (body : value)
  (c : string) :
  reachable products ->
  object_prototype_text c = None ->
  exists res,
    app uuid products (request_of GET url stats_path query key body)
    = Some (res, products)
    /\ match category_count c products with
       | O => stats_category res c = VUndefined
       | S _ =>
           exists n,
             stats_category res c = VNum n
             /\ (n == inject_Z (Z.of_nat (category_count c products)))%Q
       end.
Proof.
  intros R T. pose proof (reachable_well_formed _ R) as WF.
  destruct (statistics_of_well_formed_store products WF)
    as (res & prices & E & _ & _ & _ & _ & _ & _ & C & _).
  exists res. split.
  - change (app uuid products (request_of GET url stats_path query key body))
      with (settle products (statsHandler products)). now rewrite E.
  - exact (C c T).
Qed.

Lemma ordinary_categories_are_counted_witness :
  exists res,
    app "unused" seed get_stats = Some (res, seed)
    /\ exists n,
         stats_category res "electronics" = VNum n /\ (n == 2)%Q.
Proof.
  exact (ordinary_categories_are_counted "unused" seed "/api/products/stats"
           [] None (VObj []) "electronics" reachable_seed eq_refl).
Defined.

(** X18.  Creating a record with a generated id that no record carried,
    and then deleting that id, gives back the store from before the
    create; the delete answers with the record the create answered
    with. *)
Theorem create_then_delete_restores_the_store
  (uuid : string) (products : list obj) (url : string)
  (query : list (string * qval)) (body : value) :
  validateProduct (post_request url query body) = Ok tt ->
  (forall p, In p products -> ~ carries_id uuid p) ->
  exists newProduct,
    app uuid products (post_request url query body)
    = Some (created_response newProduct, products ++ [newProduct])
    /\ forall uuid' url' query' body',
         app uuid' (products ++ [newProduct])
           (delete_request url' uuid query' body')
         = Some (deleted_response newProduct, products).
Proof.
  intros V Fresh.
  destruct (app_create_validated uuid products url query body V)
    as (o & B & _ & E).
  exists o. split; [exact E|]. intros uuid' url' query' body'.
  unfold delete_request. rewrite app_item, item_route.
  cbn [run settle param String.eqb Ascii.eqb Bool.eqb].
  change (authMiddleware _) with (Ok tt). cbn [bind]. unfold deleteHandler.
  rewrite (findIndex_at_first (has_id uuid) products [] o).
  - now rewrite nth_error_middle, remove_nth_middle, app_nil_r.
  - now apply Forall_has_id_false.
  - apply has_id_true. eapply build_product_id; eauto.
Qed.

Lemma create_then_delete_restores_the_store_witness :
  exists newProduct,
    app "uuid-1" seed (post_request "/api/products" [] lamp_body)
    = Some (created_response newProduct, seed ++ [newProduct])
    /\ forall uuid' url' query' body',
         app uuid' (seed ++ [newProduct])
           (delete_request url' "uuid-1" query' body')
         = Some (deleted_response newProduct, seed).
Proof.
  apply (create_then_delete_restores_the_store "uuid-1" seed "/api/products"
           [] lamp_body eq_refl).
  intros p [<- | [<- | [<- | []]]]; discriminate.
Defined.

(* ================================================================== *)
(** * Further properties: requests no route takes *)

Ltac decide_conditions :=
  repeat match goal with
    | |- context [if ?c then _ else _] => destruct c
    end.

Lemma no_route_for_long_paths (m : method) (path : list string) :
  (3 < List.length path)%nat -> find_route routes m path = None.
Proof.
  intros H.
  destruct path as [|s0 [|s1 [|s2 [|s3 path]]]]; simpl in H; try lia.
  destruct m; cbn; decide_conditions; reflexivity.
Qed.

Lemma no_route_for_patch (path : list string) :
  find_route routes PATCH path = None.
Proof. reflexivity. Qed.

(** X19.  A request with a parsed body whose method is PATCH, or whose
    path has more than three segments, is taken by no route: the answer
    is 404 with the error 'Not Found' and a message that names the method
    and the requested URL, and the store is the one before. *)
Theorem unrouted_requests_are_answered_404
  (uuid : string) (products : list obj) (req : request) (v : value) :
  req_body req = Parsed v ->
  req_method req = PATCH \/ (3 < List.length (req_path req))%nat ->
  app uuid products req
  = Some (json 404
            (error_body "Not Found"
               ("Route " ++ method_name (req_method req) ++ " "
                ++ req_originalUrl req ++ " not found")
               404),
          products).
Proof.
  intros B H. unfold app. rewrite B.
  assert (F : find_route routes (req_method req) (req_path req) = None).
  { destruct H as [-> | H];
      [apply no_route_for_patch | now apply no_route_for_long_paths]. }
  now rewrite F.
Qed.

Lemma unrouted_requests_are_answered_404_witness :
  app "unused" seed
    (request_of DELETE "/api/products/2/reviews/7"
       ["api"; "products"; "2"; "reviews"; "7"] [] (Some secret_api_key)
       (VObj []))
  = Some (json 404
            (error_body "Not Found"
               "Route DELETE /api/products/2/reviews/7 not found" 404),
          seed).
Proof.
  apply (unrouted_requests_are_answered_404 "unused" seed
           (request_of DELETE "/api/products/2/reviews/7"
              ["api"; "products"; "2"; "reviews"; "7"] []
              (Some secret_api_key) (VObj []))
           (VObj []) eq_refl).
  right. simpl. lia.
Defined.
